(** * RTTIHook: PE parser, RTTI scanner and VFT hook chains

    A shallow embedding of the three headers of the repository
    (PE.h, RTTIScanner.h, VFTHook.h with HookTemplates.h) and of the
    properties stated about them.

    Process memory is a byte-addressed map; pointers and [uintptr_t] values
    are integers in [0, 2^64) with their wrap-around written out; [int] and
    [short] loads are sign-extended as on x86-64 with the Microsoft ABI. *)

From Stdlib Require Import ZArith Lia List String Ascii Bool.
From stdpp Require Import base option gmap strings list.

Open Scope Z_scope.

(** ** Byte-addressed memory *)

Module Mem.

(** The byte held at every address; only the low eight bits of an entry
    are ever observed. *)
Definition memory := Z -> Z.

(** [n] consecutive bytes starting at [a]. *)
Fixpoint read (m : memory) (a : Z) (n : nat) : list Z :=
  match n with
  | O => []
  | S k => m a mod 256 :: read m (a + 1) k
  end.

(** [memcpy] of a byte list to address [a]. *)
Definition write (m : memory) (a : Z) (l : list Z) : memory :=
  fun x =>
    if (a <=? x) && (x <? a + Z.of_nat (length l))
    then nth (Z.to_nat (x - a)) l 0
    else m x.

(** Little-endian encoding of the low [n] bytes of [v], and decoding. *)
Fixpoint encode (n : nat) (v : Z) : list Z :=
  match n with
  | O => []
  | S k => v mod 256 :: encode k (v / 256)
  end.

Fixpoint decode (l : list Z) : Z :=
  match l with
  | [] => 0
  | b :: r => b mod 256 + 256 * decode r
  end.

(** Two's complement reading of a [w]-bit pattern. *)
Definition signed (w : Z) (x : Z) : Z :=
  if x <? 2 ^ (w - 1) then x else x - 2 ^ w.

Definition wrap64 (x : Z) : Z := x mod 2 ^ 64.

Definition load16 (m : memory) (a : Z) : Z := decode (read m a 2).
Definition load32 (m : memory) (a : Z) : Z := decode (read m a 4).
Definition load64 (m : memory) (a : Z) : Z := decode (read m a 8).
(** [*reinterpret_cast<short*>(a)] and [*reinterpret_cast<int*>(a)]. *)
Definition load16s (m : memory) (a : Z) : Z := signed 16 (load16 m a).
Definition load32s (m : memory) (a : Z) : Z := signed 32 (load32 m a).

(** A pointer-sized store. *)
Definition store64 (m : memory) (a v : Z) : memory := write m a (encode 8 v).

(** A NUL-terminated string starting at [a]; [None] when no NUL byte is
    met within [fuel] bytes. *)
Fixpoint c_str (fuel : nat) (m : memory) (a : Z) : option string :=
  match fuel with
  | O => None
  | S k =>
      let b := m a mod 256 in
      if b =? 0 then Some EmptyString
      else match c_str k m (a + 1) with
           | Some s => Some (String (ascii_of_N (Z.to_N b)) s)
           | None => None
           end
  end.

End Mem.

(** ** PE.h: image-base offsets, sections and the header parser *)

Module PEParser.
Import Mem.

(** [ProcessInfo] with the two [MODULEINFO] fields that describe the
    mapped module. *)
Record ProcessInfo := { lpBaseOfDll : Z; SizeOfImage : Z }.

(** [static_cast<int>] of a 64-bit unsigned value. *)
Definition to_int (x : Z) : Z := signed 32 (x mod 2 ^ 32).

(** [ibo32::ibo32(address, base)]: the value kept in [val]. *)
Definition ibo32 (address base : Z) : Z := to_int (wrap64 (address - base)).

(** [ibo32::as(base)]: [base + val] as a pointer. *)
Definition as_ (val base : Z) : Z := wrap64 (base + val).

(** [struct Section]; [start] and [end_] are [ibo32] values. *)
Record PESection := { name : string; size : Z; start : Z; end_ : Z }.

(** [SectionMap::sectionMap]: section name to the sections of that name. *)
Abbreviation SectionMap := (gmap string (list PESection)).

Definition getSectionsWithName (nm : string) (sm : SectionMap) : option (list PESection) :=
  sm !! nm.

(** [SectionMap::addSection]; the argument is a pointer, [None] is null. *)
Definition addSection (section : option PESection) (sm : SectionMap) : bool * SectionMap :=
  match section with
  | None => (false, sm)
  | Some s =>
      match sm !! name s with
      | Some l => (true, <[name s := l ++ [s]]> sm)
      | None => (true, <[name s := [s]]> sm)
      end
  end.

(** The two static members of the parser. *)
Record state := { pInfo : option ProcessInfo; sectionMap : option SectionMap }.

(** [setProcessInfo]; [os] is what [GetModuleInformation] reports for the
    current process ([None] when the call fails).  [arg] is the
    [ProcessInfo] behind the pointer passed, which the parser takes
    ownership of: it stands for an object that the parser does not own
    yet.  A pointer that [PEParser::pInfo] owns already would be freed by
    [reset] before it is read; values have no identity, and that call is
    not described here. *)
Definition setProcessInfo (os arg : option ProcessInfo) (st : state) : state :=
  {| pInfo := match arg with Some i => Some i | None => os end;
     sectionMap := None |}.

(** The loop of [parse] over the section headers, [n] headers left. *)
Fixpoint parse_headers (fuel : nat) (m : memory) (n : nat) (base : Z) (sm : SectionMap)
  : option SectionMap :=
  match n with
  | O => Some sm
  | S k =>
      match c_str fuel m base with
      | None => None
      | Some nm =>
          let sz := wrap64 (load32s m (base + 0x08)) in
          let st := load32s m (base + 0x0C) in
          let en := to_int (wrap64 (st + sz)) in
          let section := {| name := nm; size := sz; start := st; end_ := en |} in
          parse_headers fuel m k (base + 0x28) (snd (addSection (Some section) sm))
      end
  end.

(** [PEParser::parse].  The result is [None] when the call does not return:
    [PEParser::pInfo] is null when dereferenced, or a section name is not
    terminated within [fuel] bytes. *)
Definition parse (fuel : nat) (m : memory) (os arg : option ProcessInfo) (st : state)
  : option (bool * state) :=
  let st := setProcessInfo os arg st in
  match pInfo st with
  | None => None
  | Some info =>
      let base := lpBaseOfDll info in
      if (base =? 0) || negb (load16s m base =? 0x5A4D) then Some (false, st)
      else
        let base := base + load32s m (base + 0x3C) in
        if negb (load32s m base =? 0x4550) then Some (false, st)
        else
          let sectionCount := load16s m (base + 0x06) in
          let base := base + (load16s m (base + 0x14) + 0x18) in
          match parse_headers fuel m (Z.to_nat sectionCount) base ∅ with
          | None => None
          | Some sm => Some (true, {| pInfo := pInfo st; sectionMap := Some sm |})
          end
  end.

(** Static [isAddressInSection(address, sections)]; [section->start.as<uintptr_t>()]
    adds the base of the current process module. *)
Fixpoint isAddressInSection (base address : Z) (sections : list PESection) : bool :=
  match sections with
  | [] => false
  | s :: rest =>
      if (as_ (start s) base <=? address) && (address <? as_ (end_ s) base) then true
      else isAddressInSection base address rest
  end.

(** Static [isIbo32InSection(ibo, sections)]. *)
Fixpoint isIbo32InSection (ibo : Z) (sections : list PESection) : bool :=
  match sections with
  | [] => false
  | s :: rest =>
      if (start s <=? ibo) && (ibo <? end_ s) then true
      else isIbo32InSection ibo rest
  end.

End PEParser.

(** ** RTTIScanner.h: the class map and the two scanning loops *)

Module RTTIScanner.
Import Mem.
Export PEParser.

(** [class RTTI]: five pointers. *)
Record RTTI := {
  pVirtualFunctionTable : Z;
  pCompleteObjectLocator : Z;
  pTypeDescriptor : Z;
  pClassHierarchyDescriptor : Z;
  pBaseClassDescriptor : Z
}.

(** [struct SectionData]. *)
Record SectionData := {
  text : list PESection;
  data : list PESection;
  rdata : list PESection
}.

(** The static members of the scanner. *)
Record state := {
  parser : PEParser.state;
  classRTTI : gmap string RTTI;
  sectionData : option SectionData
}.

(** [std::unordered_map::emplace]: nothing happens when the key is present. *)
Definition emplace (k : string) (v : RTTI) (c : gmap string RTTI) : gmap string RTTI :=
  match c !! k with
  | Some _ => c
  | None => <[k := v]> c
  end.

(** [RTTIScanner::getClassRTTI]; [None] is the null pointer. *)
Definition getClassRTTI (nm : string) (c : gmap string RTTI) : option RTTI :=
  match c !! nm with
  | Some r => Some r
  | None => None
  end.

(** [RTTIScanner::setSectionData]. *)
Definition setSectionData (p : PEParser.state) : bool * option SectionData :=
  let get nm := match sectionMap p with
                | None => None
                | Some sm => getSectionsWithName nm sm
                end in
  match get ".text"%string, get ".data"%string, get ".rdata"%string with
  | Some t, Some d, Some r => (true, Some {| text := t; data := d; rdata := r |})
  | _, _, _ => (false, None)
  end.

Section Scan.
(** [UnDecorateSymbolName] of the string at an address, with the flags of
    [demangleName]; [None] when it returns 0. *)
Variable UnDecorateSymbolName : memory -> Z -> option string.
Variable m : memory.
Variable base : Z.
Variable sd : SectionData.

(** [RTTI::demangleName]. *)
Definition demangleName (nm : Z) : string :=
  let nm := if m nm mod 256 =? 46 then nm + 1 else nm in
  match UnDecorateSymbolName m nm with
  | None => EmptyString
  | Some out => out
  end.

(** The checks both loops run on a locator [COL] once its vtable pointer
    [pVFT] is known, from the signature test down to the record that
    would be emplaced; [None] where the loop says [continue]. *)
Definition check_locator (pVFT COL : Z) : option (string * RTTI) :=
  if negb (load32 m COL =? 1) then None
  else
    let iboTypeDescriptor := load32s m (COL + 12) in
    let iboClassDescriptor := load32s m (COL + 16) in
    if negb (isIbo32InSection iboTypeDescriptor (data sd)) then None
    else if negb (isIbo32InSection iboClassDescriptor (rdata sd)) then None
    else
      let TD := as_ iboTypeDescriptor base in
      let CHD := as_ iboClassDescriptor base in
      let iboBaseClassDescriptor := load32s m (CHD + 12) in
      if negb (isIbo32InSection iboBaseClassDescriptor (rdata sd)) then None
      else
        let pBCD := as_ iboBaseClassDescriptor base in
        let nm := demangleName (TD + 16) in
        if String.eqb nm EmptyString then None
        else Some (nm, {| pVirtualFunctionTable := pVFT;
                          pCompleteObjectLocator := COL;
                          pTypeDescriptor := TD;
                          pClassHierarchyDescriptor := CHD;
                          pBaseClassDescriptor := pBCD |}).

Definition emplace_found (r : option (string * RTTI)) (c : gmap string RTTI) :=
  match r with
  | Some (nm, rtti) => emplace nm rtti c
  | None => c
  end.

(** The state of the [.rdata] sweep: the class map, and the slots read as
    [auto COL = *pCOL] so far, oldest first. *)
Record sweep_state := { found : gmap string RTTI; examined : list Z }.

(** The [while (pCOL++ < end)] loop of the [.rdata] sweep; one unit of
    [fuel] per iteration. *)
Fixpoint sweep (fuel : nat) (pCOL end_ : Z) (st : sweep_state) : sweep_state :=
  match fuel with
  | O => st
  | S k =>
      if pCOL <? end_ then
        let pCOL := pCOL + 8 in
        let COL := load64 m pCOL in
        let st := {| found := found st; examined := examined st ++ [pCOL] |} in
        if negb (isAddressInSection base COL (rdata sd)) then sweep k pCOL end_ st
        else
          let pCOL := pCOL + 8 in
          if negb (isAddressInSection base (load64 m pCOL) (text sd)) then sweep k pCOL end_ st
          else
            sweep k pCOL end_
              {| found := emplace_found (check_locator pCOL COL) (found st);
                 examined := examined st |}
      else st
  end.

(** The sweep of one [.rdata] section, with fuel for every slot of it. *)
Definition sweep_section (s : PESection) (st : sweep_state) : sweep_state :=
  let pCOL := as_ (start s) base in
  let e := as_ (end_ s) base in
  sweep (S (Z.to_nat (e - pCOL))) pCOL e st.

(** [for (auto& section : *rdata)]. *)
Definition sweep_rdata (st : sweep_state) : sweep_state :=
  fold_left (fun st s => sweep_section s st) (rdata sd) st.


(** *** The instruction-pattern scan of src/RTTIScanner.h *)

(** The SSE intrinsics of the loop, on vectors of sixteen bytes. *)
Definition mm_and (a b : list Z) : list Z := zip_with Z.land a b.
Definition mm_xor (a b : list Z) : list Z := zip_with Z.lxor a b.
Definition mm_sub_epi8 (a b : list Z) : list Z := zip_with (fun x y => (x - y) mod 256) a b.
Definition mm_cmpeq_epi8 (a b : list Z) : list Z :=
  zip_with (fun x y => if x =? y then 0xFF else 0) a b.
Definition mm_movemask_epi8 (a : list Z) : Z :=
  fold_right (fun b acc => Z.b2z (Z.testbit b 7) + 2 * acc) 0 a.
Definition mm_testz (a b : list Z) : bool := forallb (fun x => x =? 0) (mm_and a b).
Definition mm_set1 (b : Z) : list Z := repeat (b mod 256) 16.
(** [_mm_insert_epi8(_mm_srli_si128(v, 1), b, 15)]. *)
Definition mm_shift_insert (v : list Z) (b : Z) : list Z := tl v ++ [b mod 256].
(** [_tzcnt_u16]. *)
Fixpoint tzcnt (bits : nat) (x : Z) : Z :=
  match bits with
  | O => 0
  | S k => if Z.odd x then 0 else 1 + tzcnt k (x / 2)
  end.

Definition signature : list Z :=
  [0x48; 0x8D; 0x05; 0; 0; 0; 0; 0x48; 0x89; 0; 0; 0; 0; 0; 0; 0].
Definition bitmask : list Z :=
  [0x04; 0; 0x38; 0xFF; 0xFF; 0xFF; 0xFF; 0x05; 0; 0x3F; 0xFF; 0xFF; 0xFF; 0xFF; 0xFF; 0xFF].

Definition sigFill : list Z := mm_set1 (nth 0 signature 0).
Definition maskFillNot : list Z := mm_sub_epi8 (mm_set1 (-1)) (mm_set1 (nth 0 bitmask 0)).
Definition sigShift : list Z := mm_shift_insert signature 0.
Definition maskShiftNot : list Z :=
  mm_sub_epi8 (mm_set1 (-1)) (mm_shift_insert bitmask (-1)).

(** What follows a bitwise match at [curr]: the register checks on the
    [InstructionEncoding] at [curr - 1], the two [.rdata] tests, and the
    checks on the locator. *)
Definition check_instruction (curr : Z) : option (string * RTTI) :=
  let inst := curr - 1 in
  let leaRexPrefix := m inst mod 256 in
  let leaOperands := m (inst + 2) mod 256 in
  let RIPOffset := load32s m (inst + 3) in
  let movRexPrefix := m (inst + 7) mod 256 in
  let movOperands := m (inst + 9) mod 256 in
  let movExtraOp := m (inst + 10) mod 256 in
  if (Z.land movOperands 7 =? 5)
     && ((Z.land movOperands 0x40 =? 0) || negb (movExtraOp =? 0)) then None
  else if negb (Z.land leaRexPrefix 4 =? Z.land movRexPrefix 4) then None
  else if negb (Z.land (Z.lxor leaOperands movOperands) 0x38 =? 0) then None
  else
    let pVFT := curr + RIPOffset + 6 in
    let ppCOL := curr + RIPOffset - 2 in
    if negb (isAddressInSection base ppCOL (rdata sd)) then None
    else
      let pCOL := load64 m ppCOL in
      if negb (isAddressInSection base pCOL (rdata sd)) then None
      else check_locator pVFT pCOL.

(** The inner [for (curr = textStart; curr < textEnd;)] loop; [bytes] is
    the window loaded at [curr]. *)
Fixpoint text_scan (fuel : nat) (curr textEnd : Z) (c : gmap string RTTI) : gmap string RTTI :=
  match fuel with
  | O => c
  | S k =>
      if curr <? textEnd then
        let bytes := read m curr 16 in
        let bytes := mm_cmpeq_epi8 (mm_and bytes maskFillNot) sigFill in
        let match_ := tzcnt 16 (mm_movemask_epi8 bytes) in
        let curr := curr + (match_ + 1) in
        let bytes := read m curr 16 in
        if match_ =? 16 then text_scan k curr textEnd c
        else
          let bytes_ := mm_xor (mm_and bytes maskShiftNot) sigShift in
          if mm_testz bytes_ bytes_
          then text_scan k curr textEnd (emplace_found (check_instruction curr) c)
          else text_scan k curr textEnd c
      else c
  end.

Definition text_scan_section (s : PESection) (c : gmap string RTTI) : gmap string RTTI :=
  let textStart := as_ (start s) base in
  let textEnd := as_ (end_ s) base in
  text_scan (S (Z.to_nat (textEnd - textStart))) textStart textEnd c.

(** [for (std::unique_ptr<PEParser::Section>& textSection : *text)]. *)
Definition text_scan_sections (c : gmap string RTTI) : gmap string RTTI :=
  fold_left (fun c s => text_scan_section s c) (text sd) c.

End Scan.

(** [RTTIScanner::scan], the [.rdata] sweep of example/dllmain.cpp.
    [None] when [parse] does not return. *)
Definition scan (und : memory -> Z -> option string) (fuel : nat) (m : memory)
    (os arg : option ProcessInfo) (st : state) : option (bool * state * list Z) :=
  match PEParser.parse fuel m os arg (parser st) with
  | None => None
  | Some (false, p) =>
      Some (false, {| parser := p; classRTTI := classRTTI st; sectionData := sectionData st |}, [])
  | Some (true, p) =>
      match setSectionData p with
      | (true, Some sd) =>
          match pInfo p with
          | None =>
              Some (false, {| parser := p; classRTTI := classRTTI st; sectionData := Some sd |}, [])
          | Some info =>
              let r := sweep_rdata und m (lpBaseOfDll info) sd
                         {| found := classRTTI st; examined := [] |} in
              Some (true, {| parser := p; classRTTI := found r; sectionData := Some sd |},
                    examined r)
          end
      | _ =>
          Some (false, {| parser := p; classRTTI := classRTTI st; sectionData := None |}, [])
      end
  end.

(** [RTTIScanner::scan] of src/RTTIScanner.h, the pattern scan of [.text]. *)
Definition scan_text (und : memory -> Z -> option string) (fuel : nat) (m : memory)
    (os arg : option ProcessInfo) (st : state) : option (bool * state) :=
  match PEParser.parse fuel m os arg (parser st) with
  | None => None
  | Some (false, p) =>
      Some (false, {| parser := p; classRTTI := classRTTI st; sectionData := sectionData st |})
  | Some (true, p) =>
      match setSectionData p with
      | (true, Some sd) =>
          match pInfo p with
          | None =>
              Some (false, {| parser := p; classRTTI := classRTTI st; sectionData := Some sd |})
          | Some info =>
              Some (true, {| parser := p;
                             classRTTI := text_scan_sections und m (lpBaseOfDll info) sd
                                            (classRTTI st);
                             sectionData := Some sd |})
          end
      | _ =>
          Some (false, {| parser := p; classRTTI := classRTTI st; sectionData := None |})
      end
  end.

End RTTIScanner.

(** ** VFTHook.h and HookTemplates.h: trampolines and hook chains *)

Module VFTHook.
Import Mem.

(** Calls into the system made by the hook code, as they are logged. *)
Inductive call :=
| Alloc (result : Z)
| Protect (lpAddress : Z) (ok : bool)
| Free (lpAddress : Z)
| Lock (mutex : Z)
| Unlock (mutex : Z).

(** The process as the hook code sees it.  [pages] lists what the coming
    [VirtualAlloc] calls return (0, or nothing left, is failure), [heap]
    what the coming [operator new] calls return, [frozen] tells the
    addresses where the [VirtualProtect] that makes the bytes writable
    fails, [stuck] those where the [VirtualProtect] that puts the old
    protection back fails, and [calls] is the log of system calls, latest
    first.  [mem] is the memory of the image, of the pages and of whatever
    else the hook code reads or writes through pointers; what the runtime
    keeps inside the objects of the heap (a [std::mutex], the control block
    of a [shared_ptr], a [HookContext]) is not recorded in it. *)
Record World := {
  mem : memory;
  pages : list Z;
  heap : list Z;
  frozen : Z -> bool;
  stuck : Z -> bool;
  calls : list call
}.

Definition page_size : Z := 4096.

Definition set_mem (w : World) (m : memory) : World :=
  {| mem := m; pages := pages w; heap := heap w; frozen := frozen w; stuck := stuck w; calls := calls w |}.

Definition log (c : call) (w : World) : World :=
  {| mem := mem w; pages := pages w; heap := heap w; frozen := frozen w; stuck := stuck w;
     calls := c :: calls w |}.

(** [VirtualAlloc(nullptr, size, MEM_COMMIT | MEM_RESERVE, PAGE_EXECUTE_READWRITE)]:
    a committed page comes zero-filled. *)
Definition VirtualAlloc (w : World) : Z * World :=
  match pages w with
  | [] => (0, log (Alloc 0) w)
  | A :: rest =>
      (A, {| mem := if A =? 0 then mem w
                    else write (mem w) A (repeat 0 (Z.to_nat page_size));
             pages := rest; heap := heap w; frozen := frozen w; stuck := stuck w;
             calls := Alloc A :: calls w |})
  end.

Definition VirtualFree (A : Z) (w : World) : World := log (Free A) w.

(** [operator new]: the next address of [heap].  A run in which
    [operator new] throws is not described: [heap] is meant to hold an
    address for every object that is made, and the 0 given once it has
    run out stands for no address that [operator new] returns.  What the
    object is filled with is not recorded in [mem]. *)
Definition new (w : World) : Z * World :=
  (hd 0 (heap w),
   {| mem := mem w; pages := pages w; heap := tl (heap w); frozen := frozen w; stuck := stuck w;
      calls := calls w |}).

(** [VFTHook::rdataWrite]: when the first [VirtualProtect] fails nothing is
    written and the result is false; otherwise the pointer is stored, the
    old protection is put back by a second call, and the result is what
    that second call returns. *)
Definition rdataWrite (pAddress pointer : Z) (w : World) : bool * World :=
  if frozen w pAddress then (false, log (Protect pAddress false) w)
  else
    let w := log (Protect pAddress true) w in
    let w := set_mem w (store64 (mem w) pAddress pointer) in
    let restored := negb (stuck w pAddress) in
    (restored, log (Protect pAddress restored) w).

(** The shape of a hook object: the data part that starts every hook, then
    the trampoline.  [sizeof_data] is [sizeof(HookLayout::HookData)] for
    [VFTHook] and [sizeof(HookBase)] for [VFTHookTemplate]; it is also the
    offset of [asmRaw], which the trampolines address their data with. *)
Record HookType := {
  magic : Z;
  sizeof_data : Z;
  off_mutex : Z;
  off_context : option Z;
  off_previous : Z;
  off_fnNew : Z;
  off_fnHooked : Z;
  asmRaw : list Z;
  sizeof_hook : Z
}.

(** [VFTHook::HookLayout] of src/VFTHook.h. *)
Definition HookLayout : HookType := {|
  magic := 0x6B6F6F48544656;
  sizeof_data := 56;
  off_mutex := 8;
  off_context := None;
  off_previous := 24;
  off_fnNew := 32;
  off_fnHooked := 40;
  asmRaw := [
    0x48; 0x8D; 0x44; 0x24; 0xA0; 0x24; 0xF0; 0x0F; 0x29; 0x40; 0x50; 0x0F;
    0x29; 0x48; 0x40; 0x0F; 0x29; 0x50; 0x30; 0x0F; 0x29; 0x58; 0x20; 0x0F;
    0x29; 0x60; 0x10; 0x0F; 0x29; 0x28; 0x48; 0x89; 0x60; 0xF0; 0x48; 0x89;
    0x48; 0xE8; 0x48; 0x89; 0x50; 0xE0; 0x4C; 0x89; 0x40; 0xD8; 0x4C; 0x89;
    0x48; 0xD0; 0x48; 0x8D; 0x60; 0xB0; 0xFF; 0x15; 0xAC; 0xFF; 0xFF; 0xFF;
    0x48; 0x8D; 0x44; 0x24; 0x50; 0x4C; 0x8B; 0x48; 0xD0; 0x4C; 0x8B; 0x40;
    0xD8; 0x48; 0x8B; 0x50; 0xE0; 0x48; 0x8B; 0x48; 0xE8; 0x0F; 0x28; 0x28;
    0x0F; 0x28; 0x60; 0x10; 0x0F; 0x28; 0x58; 0x20; 0x0F; 0x28; 0x50; 0x30;
    0x0F; 0x28; 0x48; 0x40; 0x0F; 0x28; 0x40; 0x50; 0x48; 0x8B; 0x60; 0xF0;
    0xFF; 0x25; 0x7E; 0xFF; 0xFF; 0xFF ];
  sizeof_hook := 176
|}.

(** [EntryHook] of HookTemplates.h, whose data part is [HookData]: 80 bytes,
    with [allocator] at offset 32 and [context] after it at 40.  The
    trampoline agrees: it starts at offset 80, and its [jmp [rip - 0x44]],
    which ends at offset 124 of the object, goes through [fnNew] at 56. *)
Definition EntryHook : HookType := {|
  magic := 0x6B6F6F48696E55;
  sizeof_data := 80;
  off_mutex := 16;
  off_context := Some 32;
  off_previous := 48;
  off_fnNew := 56;
  off_fnHooked := 64;
  asmRaw := [
    0x4C; 0x8D; 0x15; 0xD1; 0xFF; 0xFF; 0xFF; 0x49; 0x8B; 0x02; 0x48; 0x89;
    0x48; 0x10; 0x48; 0x89; 0x50; 0x18; 0x4C; 0x89; 0x40; 0x40; 0x4C; 0x89;
    0x48; 0x48; 0x49; 0x8D; 0x42; 0x54; 0x48; 0x87; 0x04; 0x24; 0x49; 0x89;
    0x42; 0x20; 0xFF; 0x25; 0xBC; 0xFF; 0xFF; 0xFF; 0x4C; 0x8B; 0x15; 0xA5;
    0xFF; 0xFF; 0xFF; 0x49; 0x8B; 0x4A; 0x10; 0x49; 0x8B; 0x52; 0x18; 0x4D;
    0x8B; 0x42; 0x40; 0x4D; 0x8B; 0x4A; 0x48; 0xFF; 0x35; 0xAF; 0xFF; 0xFF;
    0xFF; 0xFF; 0x25; 0xA1; 0xFF; 0xFF; 0xFF ];
  sizeof_hook := 160
|}.

(** The bytes of a hook object whose pointers are all null. *)
Definition image (T : HookType) : list Z :=
  encode 8 (magic T) ++ repeat 0 (Z.to_nat (sizeof_data T - 8)) ++ asmRaw T
  ++ repeat 0 (Z.to_nat (sizeof_hook T - sizeof_data T) - length (asmRaw T)).

(** The object placed at [A]: [memcpy] of the static [hookLayout], or the
    placement [new (allocationBase) HookType{}], whose [HookData] also
    allocates its [HookContext] and keeps it in [allocator] and [context]. *)
Definition construct (T : HookType) (A : Z) (w : World) : World :=
  let w := set_mem w (write (mem w) A (image T)) in
  match off_context T with
  | None => w
  | Some o =>
      let '(ctx, w) := new w in
      let w := set_mem w (store64 (mem w) (A + o) ctx) in
      set_mem w (store64 (mem w) (A + o + 8) ctx)
  end.

(** [hookData.mutex.reset(new std::mutex)]: the object and its control block. *)
Definition mutex_reset (T : HookType) (A : Z) (w : World) : World :=
  let '(p, w) := new w in
  let '(c, w) := new w in
  let w := set_mem w (store64 (mem w) (A + off_mutex T) p) in
  set_mem w (store64 (mem w) (A + off_mutex T + 8) c).

Section Hook.
Variable T : HookType.

Definition get_magic (w : World) (hook : Z) : Z := load64 (mem w) hook.
Definition get_mutex (w : World) (hook : Z) : Z := load64 (mem w) (hook + off_mutex T).
Definition get_previous (w : World) (hook : Z) : Z := load64 (mem w) (hook + off_previous T).
Definition get_fnNew (w : World) (hook : Z) : Z := load64 (mem w) (hook + off_fnNew T).
Definition get_fnHooked (w : World) (hook : Z) : Z := load64 (mem w) (hook + off_fnHooked T).

(** [VFTHook::hook]; the result is the new value of [allocationBase]. *)
Definition hook (pVirtualFunctionTable vftIndex function : Z) (w : World) : Z * World :=
  let '(allocationBase, w) := VirtualAlloc w in
  if allocationBase =? 0 then (0, w)
  else
    let hook := allocationBase in
    let w := construct T hook w in
    let vftEntry := wrap64 (pVirtualFunctionTable + 8 * vftIndex) in
    let w := mutex_reset T hook w in
    let w := set_mem w (store64 (mem w) (hook + off_fnHooked T) (load64 (mem w) vftEntry)) in
    let w := set_mem w (store64 (mem w) (hook + off_previous T) vftEntry) in
    let w := set_mem w (store64 (mem w) (hook + off_fnNew T) function) in
    let prevHook := wrap64 (get_fnHooked w hook - sizeof_data T) in
    if get_magic w hook =? get_magic w prevHook then
      let mutex := get_mutex w prevHook in
      let w := log (Lock mutex) w in
      let '(prevHook, w) :=
        if negb (get_fnHooked w hook =? load64 (mem w) vftEntry) then
          let w := set_mem w (store64 (mem w) (hook + off_fnHooked T) (load64 (mem w) vftEntry)) in
          (wrap64 (get_fnHooked w hook - sizeof_data T), w)
        else (prevHook, w) in
      let w := snd (rdataWrite (prevHook + off_previous T) hook w) in
      let w := snd (rdataWrite vftEntry (hook + sizeof_data T) w) in
      (allocationBase, log (Unlock mutex) w)
    else
      let w :=
        if negb (get_fnHooked w hook =? load64 (mem w) vftEntry) then
          set_mem w (store64 (mem w) (hook + off_fnHooked T) (load64 (mem w) vftEntry))
        else w in
      (allocationBase, snd (rdataWrite vftEntry (hook + sizeof_data T) w)).

(** The constructor that takes the table itself. *)
Definition new_hook (pVirtualFunctionTable vftIndex function : Z) (w : World) : Z * World :=
  hook pVirtualFunctionTable vftIndex function w.

(** The constructor that looks the class up by name; [allocationBase]
    stays null when the class is not in the map. *)
Definition new_hook_by_name (classRTTI : gmap string RTTIScanner.RTTI) (className : string)
    (vftIndex function : Z) (w : World) : Z * World :=
  match RTTIScanner.getClassRTTI className classRTTI with
  | None => (0, w)
  | Some pClass => hook (RTTIScanner.pVirtualFunctionTable pClass) vftIndex function w
  end.

(** The loop that finds the topmost hook of the chain; [None] when it has
    not stopped after [fuel] steps. *)
Fixpoint find_top (fuel : nat) (w : World) (hook topHook : Z) : option Z :=
  match fuel with
  | O => None
  | S k =>
      if get_magic w (get_previous w topHook) =? get_magic w hook
      then find_top k w hook (get_previous w topHook)
      else Some topHook
  end.

(** The destructor, for a handle whose [allocationBase] is given; [None]
    when the search for the top of the chain does not stop within [fuel]
    steps.  [hook->~HookType()] gives heap objects back and leaves the
    fields of the hook as they are; the heap is not reclaimed here. *)
Definition destroy (fuel : nat) (allocationBase : Z) (w : World) : option World :=
  let hook := allocationBase in
  if hook =? 0 then Some w
  else
    match find_top fuel w hook hook with
    | None => None
    | Some topHook =>
        let mutex := get_mutex w topHook in
        let w := log (Lock mutex) w in
        let nextHook := wrap64 (get_fnHooked w hook - sizeof_data T) in
        let prevHook := get_previous w hook in
        let w :=
          if get_magic w hook =? get_magic w nextHook
          then snd (rdataWrite (nextHook + off_previous T) prevHook w)
          else w in
        let w :=
          if get_magic w hook =? get_magic w prevHook
          then snd (rdataWrite (prevHook + off_fnHooked T) (get_fnHooked w hook) w)
          else snd (rdataWrite prevHook (get_fnHooked w hook) w) in
        let w := log (Unlock mutex) w in
        Some (VirtualFree allocationBase w)
    end.

End Hook.

End VFTHook.

(** ** Facts about memory accesses *)

Module MemFacts.
Import Mem.

Lemma length_encode n v : length (encode n v) = n.
Proof. revert v. induction n as [|n IH]; intros v; simpl; [reflexivity|]. now rewrite IH. Qed.

Lemma decode_encode n v : decode (encode n v) = v mod 256 ^ Z.of_nat n.
Proof.
  revert v. induction n as [|n IH]; intros v.
  - simpl. now rewrite Z.mod_1_r.
  - cbn [encode decode]. rewrite IH, Z.mod_mod by lia.
    rewrite Nat2Z.inj_succ, Z.pow_succ_r by lia.
    rewrite Z.rem_mul_r by lia. reflexivity.
Qed.

Lemma read_write_in m a l off n :
  0 <= off -> off + Z.of_nat n <= Z.of_nat (length l) ->
  read (write m a l) (a + off) n =
  map (fun b => b mod 256) (firstn n (skipn (Z.to_nat off) l)).
Proof.
  revert off. induction n as [|n IH]; intros off H0 H1; [reflexivity|].
  cbn [read].
  replace (a + off + 1) with (a + (off + 1)) by lia.
  rewrite IH by lia.
  unfold write at 1.
  replace ((a <=? a + off) && (a + off <? a + Z.of_nat (length l))) with true
    by (symmetry; apply andb_true_iff; split; [apply Z.leb_le | apply Z.ltb_lt]; lia).
  replace (a + off - a) with off by lia.
  assert (Hlt : (Z.to_nat off < length l)%nat) by lia.
  replace (Z.to_nat (off + 1)) with (S (Z.to_nat off)) by lia.
  clear - Hlt. revert l Hlt. generalize (Z.to_nat off) as k.
  induction k as [|k IHk]; intros [|x l] Hlt; simpl in *; try lia.
  - reflexivity.
  - apply IHk. lia.
Qed.

Lemma read_write_out m a l b n :
  b + Z.of_nat n <= a \/ a + Z.of_nat (length l) <= b ->
  read (write m a l) b n = read m b n.
Proof.
  revert b. induction n as [|n IH]; intros b H; [reflexivity|].
  cbn [read]. rewrite IH by lia. f_equal.
  unfold write.
  replace ((a <=? b) && (b <? a + Z.of_nat (length l))) with false; [reflexivity|].
  symmetry. apply andb_false_iff.
  destruct H; [left; apply Z.leb_gt | right; apply Z.ltb_ge]; lia.
Qed.

Lemma map_mod_encode n v : map (fun b => b mod 256) (encode n v) = encode n v.
Proof.
  revert v. induction n as [|n IH]; intros v; simpl; [reflexivity|].
  rewrite IH, Z.mod_mod by lia. reflexivity.
Qed.

Lemma load64_store64_same m a v :
  0 <= v < 2 ^ 64 -> load64 (store64 m a v) a = v.
Proof.
  intros Hv. unfold load64, store64.
  replace a with (a + 0) at 2 by lia.
  rewrite read_write_in by (rewrite ?length_encode; lia).
  change (Z.to_nat 0) with 0%nat. rewrite skipn_O.
  rewrite firstn_all2 by (rewrite length_encode; lia).
  rewrite map_mod_encode, decode_encode.
  change (256 ^ Z.of_nat 8) with (2 ^ 64). now apply Z.mod_small.
Qed.

Lemma load64_store64_other m a v b :
  a + 8 <= b \/ b + 8 <= a -> load64 (store64 m a v) b = load64 m b.
Proof.
  intros H. unfold load64, store64.
  rewrite read_write_out; [reflexivity|]. rewrite length_encode. lia.
Qed.

Lemma load64_write_out m a l b :
  b + 8 <= a \/ a + Z.of_nat (length l) <= b ->
  load64 (write m a l) b = load64 m b.
Proof. intros H. unfold load64. rewrite read_write_out; [reflexivity|lia]. Qed.

Lemma decode_range l : 0 <= decode l < 256 ^ Z.of_nat (length l).
Proof.
  induction l as [|b l IH].
  - simpl. lia.
  - cbn [decode length]. rewrite Nat2Z.inj_succ, Z.pow_succ_r by lia.
    pose proof (Z.mod_pos_bound b 256). lia.
Qed.

Lemma length_read m a n : length (read m a n) = n.
Proof. revert a. induction n as [|n IH]; intros a; simpl; [reflexivity|]. now rewrite IH. Qed.

Lemma load64_range m a : 0 <= load64 m a < 2 ^ 64.
Proof.
  unfold load64. pose proof (decode_range (read m a 8)) as H.
  rewrite length_read in H. exact H.
Qed.

End MemFacts.

(** ** Facts about PE.h *)

Module PEFacts.
Import Mem PEParser.

Lemma wrap64_small x : 0 <= x < 2 ^ 64 -> wrap64 x = x.
Proof. intros H. unfold wrap64. now apply Z.mod_small. Qed.

Lemma to_int_small d : - 2 ^ 31 <= d < 2 ^ 31 -> to_int (wrap64 d) = d.
Proof.
  intros Hd. unfold to_int, wrap64.
  rewrite Z.mod_mod_divide by (exists (2 ^ 32); reflexivity).
  pose proof (Z.div_mod d (2 ^ 32) ltac:(lia)) as E.
  pose proof (Z.mod_pos_bound d (2 ^ 32) ltac:(lia)) as B.
  unfold signed. change (32 - 1) with 31.
  destruct (Z.ltb_spec (d mod 2 ^ 32) (2 ^ 31)); lia.
Qed.

Lemma to_int_range x : - 2 ^ 31 <= to_int x < 2 ^ 31.
Proof.
  unfold to_int, signed. change (32 - 1) with 31.
  pose proof (Z.mod_pos_bound x (2 ^ 32) ltac:(lia)).
  destruct (Z.ltb_spec (x mod 2 ^ 32) (2 ^ 31)); lia.
Qed.

Lemma to_int_range_signed m a : load32s m a < 2 ^ 31.
Proof.
  unfold load32s, load32, signed. change (32 - 1) with 31.
  pose proof (MemFacts.decode_range (read m a 4)) as H.
  rewrite MemFacts.length_read in H. change (256 ^ Z.of_nat 4) with (2 ^ 32) in H.
  destruct (Z.ltb_spec (decode (read m a 4)) (2 ^ 31)); lia.
Qed.

(** Going to an address and back gives the offset again, whatever the base. *)
Lemma ibo32_as_any v B' : - 2 ^ 31 <= v < 2 ^ 31 -> ibo32 (as_ v B') B' = v.
Proof.
  intros Hv. unfold ibo32, as_, wrap64.
  rewrite Zminus_mod_idemp_l.
  replace (B' + v - B') with v by lia.
  now apply to_int_small.
Qed.

(** C6.  For a base [B] and an address [A] within the 2^31-byte window of
    [B] (the difference [A - B] fits a signed 32-bit integer), the offset
    built by [ibo32(A, B)] converts back to [A] with [as(B)]; and taking
    that offset to an address with any base [B'] and back to an offset
    with the same [B'] gives the offset again. *)
Theorem ibo32_round_trip (A B : Z) :
  0 <= A < 2 ^ 64 -> 0 <= B < 2 ^ 64 -> - 2 ^ 31 <= A - B < 2 ^ 31 ->
  as_ (ibo32 A B) B = A /\
  forall B', ibo32 (as_ (ibo32 A B) B') B' = ibo32 A B.
Proof.
  intros HA HB Hw.
  assert (E : ibo32 A B = A - B) by (unfold ibo32; now apply to_int_small).
  rewrite E. split.
  - unfold as_. replace (B + (A - B)) with A by lia. now apply wrap64_small.
  - intros B'. now apply ibo32_as_any.
Qed.

Lemma ibo32_round_trip_witness :
  as_ (ibo32 0x7FF6A0001500 0x7FF6A0000000) 0x7FF6A0000000 = 0x7FF6A0001500 /\
  forall B', ibo32 (as_ (ibo32 0x7FF6A0001500 0x7FF6A0000000) B') B'
             = ibo32 0x7FF6A0001500 0x7FF6A0000000.
Proof. apply (ibo32_round_trip 0x7FF6A0001500 0x7FF6A0000000); lia. Defined.


(** *** The failures of [parse] *)

(** What makes [parse] give up: a null base, or one of the two signatures. *)
Definition not_an_image (m : memory) (base : Z) : Prop :=
  base = 0 \/ load16s m base <> 0x5A4D \/
  load32s m (base + load32s m (base + 0x3C)) <> 0x4550.

(** A module of 0x40 loaded bytes whose [e_lfanew] is 0x80: the PE
    signature and the whole COFF header lie past the loaded size. *)
Definition short_module : ProcessInfo := {| lpBaseOfDll := 0x10000; SizeOfImage := 0x40 |}.

Definition short_module_memory : memory :=
  write (write (write (fun _ => 0) 0x10000 [0x4D; 0x5A])
               (0x10000 + 0x3C) (encode 4 0x80))
        (0x10000 + 0x80) [0x50; 0x45; 0; 0].

Definition no_state : PEParser.state := {| pInfo := None; sectionMap := None |}.

(** C7, as stated, fails: the offset of the PE header exceeds the loaded
    size of the module, and [parse] succeeds. *)
Lemma parse_truncated_counterexample :
  SizeOfImage short_module
    < load32s short_module_memory (lpBaseOfDll short_module + 0x3C) /\
  parse 0 short_module_memory None (Some short_module) no_state
    = Some (true, {| pInfo := Some short_module; sectionMap := Some ∅ |}).
Proof. split; [vm_compute; reflexivity | reflexivity]. Qed.

(** C7, amended.  [parse] fails exactly when the base is null, the MZ
    signature at offset 0 mismatches or the PE signature at the [e_lfanew]
    offset mismatches; the failure is returned at once, with no section
    map and no second attempt.  The loaded size of the module plays no part:
    no computed offset is compared with it. *)
Theorem parse_fails_iff_not_an_image fuel m os (info : ProcessInfo) st st' :
  parse fuel m os (Some info) st = Some (false, st')
  <-> not_an_image m (lpBaseOfDll info)
      /\ st' = {| pInfo := Some info; sectionMap := None |}.
Proof.
  unfold parse, not_an_image, setProcessInfo. cbn [pInfo sectionMap].
  destruct (Z.eqb_spec (lpBaseOfDll info) 0) as [E0|N0]; cbn [orb].
  { split; [intros [= <-]; auto | intros [_ ->]; reflexivity]. }
  destruct (Z.eqb_spec (load16s m (lpBaseOfDll info)) 0x5A4D) as [Emz|Nmz]; cbn [negb].
  2: { split; [intros [= <-]; auto | intros [_ ->]; reflexivity]. }
  destruct (Z.eqb_spec
              (load32s m (lpBaseOfDll info + load32s m (lpBaseOfDll info + 0x3C)))
              0x4550) as [Epe|Npe]; cbn [negb].
  2: { split; [intros [= <-]; auto | intros [_ ->]; reflexivity]. }
  split.
  - destruct (parse_headers _ _ _ _ _); discriminate.
  - intros [[H|[H|H]] _]; contradiction.
Qed.


(** *** The sections that [parse] stores *)

(** The section built from the header at [base], once its name is read. *)
Definition header_section (m : memory) (base : Z) (nm : string) : PESection :=
  {| name := nm;
     size := wrap64 (load32s m (base + 0x08));
     start := load32s m (base + 0x0C);
     end_ := to_int (wrap64 (load32s m (base + 0x0C) + wrap64 (load32s m (base + 0x08)))) |}.

(** The sections of [n] consecutive headers, in the order of the table. *)
Fixpoint headers (fuel : nat) (m : memory) (n : nat) (base : Z) : option (list PESection) :=
  match n with
  | O => Some []
  | S k =>
      match c_str fuel m base with
      | None => None
      | Some nm =>
          match headers fuel m k (base + 0x28) with
          | None => None
          | Some l => Some (header_section m base nm :: l)
          end
      end
  end.

Definition add_all (l : list PESection) (sm : SectionMap) : SectionMap :=
  fold_left (fun sm s => snd (addSection (Some s) sm)) l sm.

(** The sections filed under a name, none when the name is absent. *)
Definition sections_named (nm : string) (sm : SectionMap) : list PESection :=
  default [] (sm !! nm).

Lemma parse_headers_headers fuel m : forall n base sm,
  parse_headers fuel m n base sm =
  match headers fuel m n base with
  | None => None
  | Some l => Some (add_all l sm)
  end.
Proof.
  induction n as [|k IH]; intros base sm; cbn [parse_headers headers]; [reflexivity|].
  destruct (c_str fuel m base) as [nm|]; [|reflexivity].
  rewrite IH. destruct (headers fuel m k (base + 0x28)); reflexivity.
Qed.

Lemma addSection_named s sm nm :
  sections_named nm (snd (addSection (Some s) sm)) =
  if String.eqb (name s) nm then sections_named nm sm ++ [s] else sections_named nm sm.
Proof.
  unfold sections_named, addSection.
  destruct (String.eqb_spec (name s) nm) as [<-|Hne].
  - destruct (sm !! name s) eqn:E; cbn [snd]; rewrite lookup_insert_eq; reflexivity.
  - destruct (sm !! name s); cbn [snd]; rewrite lookup_insert_ne by exact Hne; reflexivity.
Qed.

(** Sections of one name are kept, after those already there, in the order
    in which they are met. *)
Lemma add_all_named nm : forall l sm,
  sections_named nm (add_all l sm) =
  sections_named nm sm ++ List.filter (fun s => String.eqb (name s) nm) l.
Proof.
  induction l as [|s l IH]; intros sm; cbn [add_all fold_left List.filter].
  - now rewrite app_nil_r.
  - fold (add_all l (snd (addSection (Some s) sm))). rewrite IH, addSection_named.
    destruct (String.eqb (name s) nm); [|reflexivity].
    now rewrite <- app_assoc.
Qed.

(** The end of a section is its start plus its virtual size, as long as
    that is an [int]. *)
Lemma header_section_end m base nm :
  0 <= load32s m (base + 0x08) ->
  - 2 ^ 31 <= load32s m (base + 0x0C) + load32s m (base + 0x08) < 2 ^ 31 ->
  start (header_section m base nm) = load32s m (base + 0x0C) /\
  end_ (header_section m base nm)
  = start (header_section m base nm) + load32s m (base + 0x08).
Proof.
  intros Hs Hr. cbn [start end_ header_section]. split; [reflexivity|].
  assert (Hb : load32s m (base + 0x08) < 2 ^ 31) by apply to_int_range_signed.
  rewrite (wrap64_small (load32s m (base + 0x08))) by lia.
  now apply to_int_small.
Qed.

(** *** Section names *)

(** The name of a section header as the image format defines it: the eight
    bytes of the name field, without the NUL bytes that pad it. *)
Fixpoint trim_trailing_nuls (l : list Z) : list Z :=
  match l with
  | [] => []
  | b :: r =>
      match trim_trailing_nuls r with
      | [] => if b =? 0 then [] else [b]
      | r' => b :: r'
      end
  end.

Definition string_of_bytes (l : list Z) : string :=
  fold_right (fun b s => String (ascii_of_N (Z.to_N b)) s) EmptyString l.

Definition header_name (m : memory) (hdr : Z) : string :=
  string_of_bytes (trim_trailing_nuls (read m hdr 8)).

(** An image with one section whose name fills the eight bytes of the name
    field, [.textbss], of virtual size 0x4142 at virtual address 0x1000.
    The section table starts at offset 0x98. *)
Definition textbss_module : ProcessInfo :=
  {| lpBaseOfDll := 0x10000; SizeOfImage := 0x6000 |}.

Definition textbss_memory : memory :=
  let m := write (fun _ => 0) 0x10000 [0x4D; 0x5A] in
  let m := write m (0x10000 + 0x3C) (encode 4 0x80) in
  let m := write m (0x10000 + 0x80) [0x50; 0x45; 0; 0] in
  let m := write m (0x10000 + 0x86) (encode 2 1) in
  let m := write m (0x10000 + 0x94) (encode 2 0) in
  let m := write m (0x10000 + 0x98) [46; 116; 101; 120; 116; 98; 115; 115] in
  let m := write m (0x10000 + 0xA0) (encode 4 0x4142) in
  write m (0x10000 + 0xA4) (encode 4 0x1000).

(** C5 on that image.  The name field reads [.textbss]; [parse] takes the
    name as a C string, runs into the bytes of the virtual size and files
    the section under [.textbssBA]; no section is stored under the name of
    the header. *)
Theorem parse_name_runs_past_field :
  header_name textbss_memory (0x10000 + 0x98) = ".textbss"%string /\
  exists sm,
    parse 32 textbss_memory None (Some textbss_module) no_state
      = Some (true, {| pInfo := Some textbss_module; sectionMap := Some sm |}) /\
    getSectionsWithName ".textbss" sm = None /\
    getSectionsWithName ".textbssBA" sm
      = Some [ {| name := ".textbssBA"; size := 0x4142; start := 0x1000; end_ := 0x5142 |} ].
Proof.
  split; [vm_compute; reflexivity|].
  eexists. split; [vm_compute; reflexivity|].
  split; vm_compute; reflexivity.
Qed.

End PEFacts.

(** ** Facts about RTTIScanner.h *)

Module ScannerFacts.
Import Mem RTTIScanner.

(** *** Names already in the class map *)

Lemma emplace_present k v (c : gmap string RTTI) nm r :
  c !! nm = Some r -> emplace k v c !! nm = Some r.
Proof.
  intros H. unfold emplace.
  destruct (c !! k) eqn:E; [exact H|].
  rewrite lookup_insert_ne; [exact H|]. intros ->. congruence.
Qed.

Lemma emplace_absent k v (c : gmap string RTTI) :
  c !! k = None -> emplace k v c !! k = Some v.
Proof. intros H. unfold emplace. rewrite H. apply lookup_insert_eq. Qed.

Lemma emplace_again k v v' (c : gmap string RTTI) :
  emplace k v' (emplace k v c) = emplace k v c.
Proof.
  unfold emplace at 1.
  destruct (emplace k v c !! k) eqn:E; [reflexivity|].
  unfold emplace in E. destruct (c !! k) eqn:E'; [congruence|].
  rewrite lookup_insert_eq in E. discriminate.
Qed.

Section Loops.
Variable und : memory -> Z -> option string.
Variable m : memory.
Variable base : Z.
Variable sd : SectionData.

Lemma emplace_found_present o (c : gmap string RTTI) nm r :
  c !! nm = Some r -> emplace_found o c !! nm = Some r.
Proof.
  intros H. destruct o as [[k v]|]; simpl; [now apply emplace_present | exact H].
Qed.

(** The [.rdata] sweep never touches a name that is in the map. *)
Lemma sweep_present fuel : forall pCOL e st nm r,
  found st !! nm = Some r ->
  found (sweep und m base sd fuel pCOL e st) !! nm = Some r.
Proof.
  induction fuel as [|k IH]; intros pCOL e st nm r H; cbn [sweep]; [exact H|].
  destruct (pCOL <? e); [|exact H].
  destruct (negb (isAddressInSection base (load64 m (pCOL + 8)) (rdata sd))).
  { apply IH. exact H. }
  destruct (negb (isAddressInSection base (load64 m (pCOL + 8 + 8)) (text sd))).
  { apply IH. exact H. }
  apply IH. cbn [found]. now apply emplace_found_present.
Qed.

Lemma sweep_rdata_present : forall st nm r,
  found st !! nm = Some r ->
  found (sweep_rdata und m base sd st) !! nm = Some r.
Proof.
  unfold sweep_rdata. induction (rdata sd) as [|s l IH]; intros st nm r H; simpl; [exact H|].
  apply IH. unfold sweep_section. now apply sweep_present.
Qed.

(** Neither does the pattern scan of [.text]. *)
Lemma text_scan_present fuel : forall curr e (c : gmap string RTTI) nm r,
  c !! nm = Some r ->
  text_scan und m base sd fuel curr e c !! nm = Some r.
Proof.
  induction fuel as [|k IH]; intros curr e c nm r H; cbn [text_scan]; [exact H|].
  destruct (curr <? e); [|exact H].
  destruct (_ =? 16); [now apply IH|].
  destruct (mm_testz _ _); apply IH; [now apply emplace_found_present | exact H].
Qed.

Lemma text_scan_sections_present : forall (c : gmap string RTTI) nm r,
  c !! nm = Some r ->
  text_scan_sections und m base sd c !! nm = Some r.
Proof.
  unfold text_scan_sections. induction (text sd) as [|s l IH]; intros c nm r H; simpl; [exact H|].
  apply IH. unfold text_scan_section. now apply text_scan_present.
Qed.


(** The fuel given to the loops is enough: with more, the result is the
    same. *)
Lemma sweep_fuel : forall fuel fuel' pCOL e st,
  (Z.to_nat (e - pCOL) < fuel)%nat -> (Z.to_nat (e - pCOL) < fuel')%nat ->
  sweep und m base sd fuel pCOL e st = sweep und m base sd fuel' pCOL e st.
Proof.
  induction fuel as [|k IH]; intros [|k'] pCOL e st H H'; try lia.
  cbn [sweep]. destruct (Z.ltb_spec pCOL e); [|reflexivity].
  destruct (negb (isAddressInSection base (load64 m (pCOL + 8)) (rdata sd)));
    [apply IH; lia|].
  destruct (negb (isAddressInSection base (load64 m (pCOL + 8 + 8)) (text sd)));
    apply IH; lia.
Qed.

Lemma text_scan_fuel : forall fuel fuel' curr e (c : gmap string RTTI),
  (Z.to_nat (e - curr) < fuel)%nat -> (Z.to_nat (e - curr) < fuel')%nat ->
  text_scan und m base sd fuel curr e c = text_scan und m base sd fuel' curr e c.
Proof.
  assert (Htz : forall bits x, 0 <= tzcnt bits x).
  { induction bits as [|b IHb]; intros x; cbn [tzcnt]; [lia|].
    destruct (Z.odd x); [lia|]. specialize (IHb (x / 2)). lia. }
  induction fuel as [|k IH]; intros [|k'] curr e c H H'; try lia.
  cbn [text_scan]. destruct (Z.ltb_spec curr e); [|reflexivity].
  match goal with |- context [tzcnt 16 ?x] => pose proof (Htz 16%nat x) as Hm end.
  destruct (_ =? 16); [apply IH; lia|].
  destruct (mm_testz _ _); apply IH; lia.
Qed.

End Loops.

(** C8.  Once a candidate has been emplaced under a name that was not in
    the map, the map holds that first record: emplacing a later candidate
    of the same name changes nothing, and whatever either scanning loop
    finds afterwards, in the rest of the section or in the sections still
    to come, the record stored under the name stays the first one. *)
Theorem duplicate_name_keeps_first (c : gmap string RTTI) (nm : string) (first : RTTI) :
  c !! nm = None ->
  emplace nm first c !! nm = Some first /\
  (forall later, emplace nm later (emplace nm first c) = emplace nm first c) /\
  (forall und m base sd fuel pCOL e seen,
      found (sweep und m base sd fuel pCOL e
               {| found := emplace nm first c; examined := seen |}) !! nm = Some first) /\
  (forall und m base sd seen,
      found (sweep_rdata und m base sd
               {| found := emplace nm first c; examined := seen |}) !! nm = Some first) /\
  (forall und m base sd fuel curr e,
      text_scan und m base sd fuel curr e (emplace nm first c) !! nm = Some first) /\
  (forall und m base sd,
      text_scan_sections und m base sd (emplace nm first c) !! nm = Some first).
Proof.
  intros Habs. pose proof (emplace_absent nm first c Habs) as H1.
  split; [exact H1|]. split; [intros; apply emplace_again|].
  split; [intros; now apply sweep_present|].
  split; [intros; now apply sweep_rdata_present|].
  split; [intros; now apply text_scan_present | intros; now apply text_scan_sections_present].
Qed.


Definition sample_record : RTTI :=
  {| pVirtualFunctionTable := 0x12010; pCompleteObjectLocator := 0x12040;
     pTypeDescriptor := 0x13000; pClassHierarchyDescriptor := 0x12058;
     pBaseClassDescriptor := 0x12070 |}.

Lemma duplicate_name_keeps_first_witness :
  (∅ : gmap string RTTI) !! "Foo"%string = None /\
  emplace "Foo" sample_record ∅ !! "Foo"%string = Some sample_record /\
  (forall later, emplace "Foo" later (emplace "Foo" sample_record ∅)
                 = emplace "Foo" sample_record ∅) /\
  (forall und m base sd fuel pCOL e seen,
      found (sweep und m base sd fuel pCOL e
               {| found := emplace "Foo" sample_record ∅; examined := seen |})
        !! "Foo"%string = Some sample_record) /\
  (forall und m base sd seen,
      found (sweep_rdata und m base sd
               {| found := emplace "Foo" sample_record ∅; examined := seen |})
        !! "Foo"%string = Some sample_record) /\
  (forall und m base sd fuel curr e,
      text_scan und m base sd fuel curr e (emplace "Foo" sample_record ∅)
        !! "Foo"%string = Some sample_record) /\
  (forall und m base sd,
      text_scan_sections und m base sd (emplace "Foo" sample_record ∅)
        !! "Foo"%string = Some sample_record).
Proof.
  split; [reflexivity|].
  apply (duplicate_name_keeps_first ∅ "Foo" sample_record). reflexivity.
Defined.

(** *** The stepping of the [.rdata] sweep *)

(** The pointer-aligned slots of a section, first to last. *)
Definition slots_of (base : Z) (s : PESection) : list Z :=
  map (fun i => as_ (start s) base + 8 * Z.of_nat i)
      (seq 0 (Z.to_nat ((as_ (end_ s) base - as_ (start s) base) / 8))).

(** A demangler that knows one name. *)
Definition und_Foo (m : memory) (a : Z) : option string :=
  match c_str 64 m a with
  | Some s => if String.eqb s "?AVFoo@@" then Some "Foo"%string else None
  | None => None
  end.

(** A module at 0x10000 with [.text] at 0x1000, [.rdata] at 0x2000 (sixteen
    slots) and [.data] at 0x3000. *)
Definition sample_sections : SectionData :=
  {| text := [ {| name := ".text"; size := 0x1000; start := 0x1000; end_ := 0x2000 |} ];
     data := [ {| name := ".data"; size := 0x1000; start := 0x3000; end_ := 0x4000 |} ];
     rdata := [ {| name := ".rdata"; size := 0x80; start := 0x2000; end_ := 0x2080 |} ] |}.

(** The RTTI of one class [Foo]: locator at 0x12040, hierarchy descriptor at
    0x12058, base class array at 0x12070, type descriptor at 0x13000 with
    the name [.?AVFoo@@]. *)
Definition class_Foo : memory :=
  let m := write (fun _ => 0) 0x12040
             (encode 4 1 ++ encode 4 0 ++ encode 4 0 ++ encode 4 0x3000 ++ encode 4 0x2058) in
  let m := write m 0x12058 (encode 4 0 ++ encode 4 0 ++ encode 4 1 ++ encode 4 0x2070) in
  write m 0x13010 [46; 63; 65; 86; 70; 111; 111; 64; 64; 0].

(** The vtable of [Foo] with its locator pointer in slot [k] of [.rdata]
    and its first entry, a function at 0x11000, in slot [k + 1]. *)
Definition vtable_at (k : Z) (m : memory) : memory :=
  let m := store64 m (0x12000 + 8 * k) 0x12040 in
  store64 m (0x12000 + 8 * (k + 1)) 0x11000.

Definition sweep_sample (m : memory) : sweep_state :=
  sweep_rdata und_Foo m 0x10000 sample_sections {| found := ∅; examined := [] |}.

(** C3 on that module.  With the vtable of [Foo] at the start of [.rdata],
    slot 0 holds a pointer into [.rdata] to a locator that passes every
    check and slot 1 a pointer into [.text]; the sweep never reads slot 0
    as a candidate, reads the slot past the end of the section instead,
    and finds no class.  The same vtable one slot further is found.  And a
    slot that follows a slot holding any [.rdata] pointer is not read as a
    candidate either: with a pointer into [.rdata] in slot 1 and the vtable
    from slot 2 on, again no class is found. *)
Theorem sweep_skips_slots :
  let first := 0x12000 in
  check_locator und_Foo (vtable_at 0 class_Foo) 0x10000 sample_sections
    (first + 8) (load64 (vtable_at 0 class_Foo) first)
    = Some ("Foo"%string, {| pVirtualFunctionTable := first + 8;
                             pCompleteObjectLocator := 0x12040;
                             pTypeDescriptor := 0x13000;
                             pClassHierarchyDescriptor := 0x12058;
                             pBaseClassDescriptor := 0x12070 |}) /\
  examined (sweep_sample (vtable_at 0 class_Foo))
    = map (fun a => a + 8) (slots_of 0x10000 {| name := ".rdata"; size := 0x80;
                                                start := 0x2000; end_ := 0x2080 |}) /\
  ~ In first (examined (sweep_sample (vtable_at 0 class_Foo))) /\
  In (0x10000 + 0x2080) (examined (sweep_sample (vtable_at 0 class_Foo))) /\
  found (sweep_sample (vtable_at 0 class_Foo)) = ∅ /\
  found (sweep_sample (vtable_at 1 class_Foo)) !! "Foo"%string = Some sample_record /\
  ~ In (first + 16)
       (examined (sweep_sample (vtable_at 2 (store64 class_Foo (first + 8) 0x12070)))) /\
  found (sweep_sample (vtable_at 2 (store64 class_Foo (first + 8) 0x12070))) = ∅.
Proof.
  cbv zeta.
  assert (E0 : examined (sweep_sample (vtable_at 0 class_Foo))
               = [0x12008; 0x12010; 0x12018; 0x12020; 0x12028; 0x12030; 0x12038; 0x12040;
                  0x12048; 0x12050; 0x12058; 0x12060; 0x12068; 0x12070; 0x12078; 0x12080])
    by (vm_compute; reflexivity).
  assert (E2 : examined (sweep_sample (vtable_at 2 (store64 class_Foo (0x12000 + 8) 0x12070)))
               = [0x12008; 0x12018; 0x12020; 0x12028; 0x12030; 0x12038; 0x12040;
                  0x12048; 0x12050; 0x12058; 0x12060; 0x12068; 0x12070; 0x12078; 0x12080])
    by (vm_compute; reflexivity).
  rewrite E0, E2.
  repeat split; try (vm_compute; reflexivity).
  - cbn [In]. intros H. repeat (destruct H as [H|H]; [discriminate H|]). exact H.
  - cbn [In]. do 15 right. left. reflexivity.
  - cbn [In]. intros H. repeat (destruct H as [H|H]; [discriminate H|]). exact H.
Qed.

End ScannerFacts.

(** ** Facts about VFTHook.h *)

Module HookFacts.
Import Mem MemFacts VFTHook.

(** A page handed out by [VirtualAlloc]: page-aligned, not null, inside the
    address space. *)
Definition page (A : Z) : Prop := 0 < A < 2 ^ 64 /\ A mod page_size = 0.

(** The eight bytes at [x] lie outside the page at [A]. *)
Definition outside (x A : Z) : Prop := x + 8 <= A \/ A + page_size <= x.

Lemma page_end A : page A -> 0 < A /\ A + page_size <= 2 ^ 64.
Proof. unfold page, page_size. intros [H1 H2]. Z.div_mod_to_equations. lia. Qed.

Lemma page_apart A B : page A -> page B -> A <> B -> A + page_size <= B \/ B + page_size <= A.
Proof. unfold page, page_size. intros [H1 H2] [H3 H4] Hne. Z.div_mod_to_equations. lia. Qed.

(** What the proofs need to know of a hook type: the fields are distinct
    pointer-sized cells of the data part, which starts with the magic, and
    the object fits a page. *)
Record layout_ok (T : HookType) : Prop := {
  magic_range : 0 <= magic T < 2 ^ 64;
  data_size : 8 <= sizeof_data T /\ sizeof_data T < sizeof_hook T <= page_size;
  image_size : Z.of_nat (length (image T)) = sizeof_hook T;
  asm_bytes : Forall (fun b => 0 <= b < 256) (asmRaw T);
  asm_size : sizeof_data T + Z.of_nat (length (asmRaw T)) <= sizeof_hook T;
  mutex_field : 8 <= off_mutex T /\ off_mutex T + 16 <= sizeof_data T;
  previous_field : 8 <= off_previous T /\ off_previous T + 8 <= sizeof_data T;
  fnNew_field : 8 <= off_fnNew T /\ off_fnNew T + 8 <= sizeof_data T;
  fnHooked_field : 8 <= off_fnHooked T /\ off_fnHooked T + 8 <= sizeof_data T;
  magic_no_body : magic T mod page_size <> sizeof_data T;
  context_field : forall o, off_context T = Some o ->
                  8 <= o /\ o + 16 <= sizeof_data T /\
                  (o + 16 <= off_mutex T \/ off_mutex T + 16 <= o);
  fields_apart :
    (off_mutex T + 16 <= off_previous T \/ off_previous T + 8 <= off_mutex T) /\
    (off_mutex T + 16 <= off_fnNew T \/ off_fnNew T + 8 <= off_mutex T) /\
    (off_mutex T + 16 <= off_fnHooked T \/ off_fnHooked T + 8 <= off_mutex T) /\
    (off_previous T + 8 <= off_fnNew T \/ off_fnNew T + 8 <= off_previous T) /\
    (off_previous T + 8 <= off_fnHooked T \/ off_fnHooked T + 8 <= off_previous T) /\
    (off_fnNew T + 8 <= off_fnHooked T \/ off_fnHooked T + 8 <= off_fnNew T)
}.

Lemma Forall_bytes_dec (l : list Z) :
  forallb (fun b => (0 <=? b) && (b <? 256)) l = true -> Forall (fun b => 0 <= b < 256) l.
Proof.
  induction l as [|b l IH]; intros H; constructor; simpl in H; [lia|].
  apply IH. destruct ((0 <=? b) && (b <? 256)); [exact H | discriminate].
Qed.

Ltac layout_field :=
  first [ solve [cbn; unfold page_size; lia]
        | solve [vm_compute; reflexivity]
        | solve [vm_compute; intros H; discriminate H]
        | solve [apply Forall_bytes_dec; vm_compute; reflexivity]
        | solve [cbn; intros o H; inversion H; subst; lia]
        | solve [cbn; intros o H; discriminate H] ].

Lemma HookLayout_ok : layout_ok HookLayout.
Proof. constructor; layout_field. Qed.

Lemma EntryHook_ok : layout_ok EntryHook.
Proof. constructor; layout_field. Qed.


(** *** One write under [VirtualProtect] *)

Lemma rdataWrite_ok a v w :
  frozen w a = false ->
  rdataWrite a v w =
  (negb (stuck w a),
   {| mem := store64 (mem w) a v; pages := pages w; heap := heap w;
      frozen := frozen w; stuck := stuck w;
      calls := Protect a (negb (stuck w a)) :: Protect a true :: calls w |}).
Proof. intros H. unfold rdataWrite. rewrite H. reflexivity. Qed.


(** The calls that one [rdataWrite] at [a] adds to the log, latest first:
    the one change that failed, or the two changes around the store. *)
Definition attempt (w : World) (a : Z) : list call :=
  if frozen w a then [Protect a false]
  else [Protect a (negb (stuck w a)); Protect a true].


Lemma rdataWrite_eq a v w :
  rdataWrite a v w =
  (negb (frozen w a) && negb (stuck w a),
   {| mem := if frozen w a then mem w else store64 (mem w) a v;
      pages := pages w; heap := heap w; frozen := frozen w; stuck := stuck w;
      calls := attempt w a ++ calls w |}).
Proof. unfold rdataWrite, attempt. destruct (frozen w a); reflexivity. Qed.


(** *** A new hook object, before it is linked *)

(** [VFTHook::hook] from the allocation to the store of [fnNew]; [S] is
    [vftEntry]. *)
Definition setup (T : HookType) (S function : Z) (w : World) : Z * World :=
  let '(A, w) := VirtualAlloc w in
  let w := construct T A w in
  let w := mutex_reset T A w in
  let w := set_mem w (store64 (mem w) (A + off_fnHooked T) (load64 (mem w) S)) in
  let w := set_mem w (store64 (mem w) (A + off_previous T) S) in
  let w := set_mem w (store64 (mem w) (A + off_fnNew T) function) in
  (A, w).

Definition setup_mem (T : HookType) (A S function : Z) (w : World) : memory :=
  let m := write (write (mem w) A (repeat 0 (Z.to_nat page_size))) A (image T) in
  let m := match off_context T with
           | None => m
           | Some o => store64 (store64 m (A + o) (hd 0 (heap w))) (A + o + 8) (hd 0 (heap w))
           end in
  let hp := match off_context T with None => heap w | Some _ => tl (heap w) end in
  let m := store64 (store64 m (A + off_mutex T) (hd 0 hp)) (A + off_mutex T + 8) (hd 0 (tl hp)) in
  let m := store64 m (A + off_fnHooked T) (load64 m S) in
  let m := store64 m (A + off_previous T) S in
  store64 m (A + off_fnNew T) function.

Definition setup_heap (T : HookType) (w : World) : list Z :=
  tl (tl (match off_context T with None => heap w | Some _ => tl (heap w) end)).

Lemma setup_eq T A rest S function w :
  pages w = A :: rest -> A <> 0 ->
  setup T S function w =
  (A, {| mem := setup_mem T A S function w; pages := rest; heap := setup_heap T w;
         frozen := frozen w; stuck := stuck w; calls := Alloc A :: calls w |}).
Proof.
  intros Hp HA. unfold setup, VirtualAlloc. rewrite Hp.
  apply Z.eqb_neq in HA. rewrite HA.
  unfold setup_heap. unfold setup_mem. unfold set_mem. unfold new. unfold mutex_reset.
  unfold construct. cbn [mem pages heap frozen calls].
  destruct (off_context T); reflexivity.
Qed.

Section Setup.
Variable T : HookType.
Hypothesis OK : layout_ok T.

Lemma load64_zero_page_out m A x :
  outside x A -> load64 (write m A (repeat 0 (Z.to_nat page_size))) x = load64 m x.
Proof.
  intros H. apply load64_write_out. rewrite repeat_length.
  unfold outside, page_size in *. lia.
Qed.

Lemma load64_image_out m A x :
  outside x A -> load64 (write m A (image T)) x = load64 m x.
Proof.
  intros H. apply load64_write_out. rewrite (image_size T OK).
  pose proof (data_size T OK). unfold outside in *. lia.
Qed.

Lemma load64_image_magic m A : load64 (write m A (image T)) A = magic T.
Proof.
  unfold load64. replace A with (A + 0) at 2 by lia.
  rewrite read_write_in.
  - unfold image. change (Z.to_nat 0) with 0%nat. rewrite skipn_O.
    rewrite firstn_app, length_encode. replace (8 - 8)%nat with 0%nat by lia.
    rewrite firstn_O, app_nil_r.
    rewrite firstn_all2 by (rewrite length_encode; lia).
    rewrite map_mod_encode, decode_encode.
    change (256 ^ Z.of_nat 8) with (2 ^ 64).
    apply Z.mod_small. apply (magic_range T OK).
  - lia.
  - rewrite (image_size T OK). pose proof (data_size T OK). lia.
Qed.

Variables (A S function : Z) (rest : list Z) (w : World).
Hypothesis Hpages : pages w = A :: rest.
Hypothesis HA : page A.

Ltac fields :=
  pose proof (data_size T OK); pose proof (mutex_field T OK);
  pose proof (previous_field T OK); pose proof (fnNew_field T OK);
  pose proof (fnHooked_field T OK); pose proof (fields_apart T OK);
  pose proof (page_end A HA); unfold outside, page_size in *.

Ltac through_stores :=
  repeat (rewrite load64_store64_other by lia).

Lemma setup_frame x :
  outside x A -> load64 (setup_mem T A S function w) x = load64 (mem w) x.
Proof.
  intros Hx. unfold setup_mem.
  assert (Hm : forall m, load64
             (match off_context T with
              | None => m
              | Some o => store64 (store64 m (A + o) (hd 0 (heap w))) (A + o + 8) (hd 0 (heap w))
              end) x = load64 m x).
  { intros m. destruct (off_context T) as [o|] eqn:Eo; [|reflexivity].
    pose proof (context_field T OK o Eo). fields. through_stores. reflexivity. }
  fields. through_stores. rewrite Hm.
  rewrite load64_image_out, load64_zero_page_out by (unfold outside, page_size; lia).
  reflexivity.
Qed.

Lemma setup_magic : load64 (setup_mem T A S function w) A = magic T.
Proof.
  unfold setup_mem. fields. through_stores.
  destruct (off_context T) as [o|] eqn:Eo.
  - pose proof (context_field T OK o Eo). through_stores. apply load64_image_magic.
  - apply load64_image_magic.
Qed.

Lemma setup_fnNew :
  0 <= function < 2 ^ 64 -> load64 (setup_mem T A S function w) (A + off_fnNew T) = function.
Proof. intros H. unfold setup_mem. now apply load64_store64_same. Qed.

Lemma setup_previous :
  0 <= S < 2 ^ 64 -> load64 (setup_mem T A S function w) (A + off_previous T) = S.
Proof.
  intros H. unfold setup_mem. fields. through_stores. now apply load64_store64_same.
Qed.

Lemma setup_fnHooked :
  outside S A ->
  load64 (setup_mem T A S function w) (A + off_fnHooked T) = load64 (mem w) S.
Proof.
  intros HS. unfold setup_mem. fields. through_stores.
  rewrite load64_store64_same by apply load64_range.
  through_stores.
  destruct (off_context T) as [o|] eqn:Eo.
  - pose proof (context_field T OK o Eo). through_stores.
    rewrite load64_image_out, load64_zero_page_out by (unfold outside, page_size; lia).
    reflexivity.
  - rewrite load64_image_out, load64_zero_page_out by (unfold outside, page_size; lia).
    reflexivity.
Qed.

End Setup.


(** The second half of [VFTHook::hook]: the test for a hook already in the
    slot and the writes that link the new one. *)
Definition link (T : HookType) (hook vftEntry : Z) (w : World) : Z * World :=
  let prevHook := wrap64 (get_fnHooked T w hook - sizeof_data T) in
  if get_magic w hook =? get_magic w prevHook then
    let mutex := get_mutex T w prevHook in
    let w := log (Lock mutex) w in
    let '(prevHook, w) :=
      if negb (get_fnHooked T w hook =? load64 (mem w) vftEntry) then
        let w := set_mem w (store64 (mem w) (hook + off_fnHooked T) (load64 (mem w) vftEntry)) in
        (wrap64 (get_fnHooked T w hook - sizeof_data T), w)
      else (prevHook, w) in
    let w := snd (rdataWrite (prevHook + off_previous T) hook w) in
    let w := snd (rdataWrite vftEntry (hook + sizeof_data T) w) in
    (hook, log (Unlock mutex) w)
  else
    let w :=
      if negb (get_fnHooked T w hook =? load64 (mem w) vftEntry) then
        set_mem w (store64 (mem w) (hook + off_fnHooked T) (load64 (mem w) vftEntry))
      else w in
    (hook, snd (rdataWrite vftEntry (hook + sizeof_data T) w)).

Lemma hook_split T V idx function w :
  hook T V idx function w =
  let '(A, w1) := setup T (wrap64 (V + 8 * idx)) function w in
  if A =? 0 then (0, snd (VirtualAlloc w)) else link T A (wrap64 (V + 8 * idx)) w1.
Proof.
  unfold hook, setup, link. destruct (VirtualAlloc w) as [A0 w0]. cbn [snd].
  destruct (A0 =? 0); reflexivity.
Qed.

Lemma hook_alloc_failed T V idx function w :
  hd 0 (pages w) = 0 ->
  fst (hook T V idx function w) = 0 /\
  mem (snd (hook T V idx function w)) = mem w.
Proof.
  intros H. unfold hook, VirtualAlloc.
  destruct (pages w) as [|A rest]; cbn in H; [split; reflexivity|].
  subst A. split; reflexivity.
Qed.

Lemma read_store64_out m a v b n :
  b + Z.of_nat n <= a \/ a + 8 <= b -> read (store64 m a v) b n = read m b n.
Proof. intros H. unfold store64. apply read_write_out. rewrite length_encode. lia. Qed.

Lemma map_mod_bytes (l : list Z) :
  Forall (fun b => 0 <= b < 256) l -> map (fun b => b mod 256) l = l.
Proof.
  induction 1 as [|b l Hb _ IH]; simpl; [reflexivity|].
  rewrite IH, Z.mod_small by lia. reflexivity.
Qed.

Section Body.
Variable T : HookType.
Hypothesis OK : layout_ok T.

Lemma page_body_not_magic A : page A -> A + sizeof_data T <> magic T.
Proof.
  intros [HA1 HA2] E. pose proof (magic_no_body T OK) as Hm.
  pose proof (data_size T OK) as Hd. rewrite <- E in Hm.
  apply Hm. unfold page_size in *. Z.div_mod_to_equations. lia.
Qed.

Lemma image_asm :
  firstn (length (asmRaw T)) (skipn (Z.to_nat (sizeof_data T)) (image T)) = asmRaw T.
Proof.
  unfold image. pose proof (data_size T OK) as Hd.
  rewrite app_assoc.
  assert (Hl : length (encode 8 (magic T) ++ repeat 0 (Z.to_nat (sizeof_data T - 8)))
               = Z.to_nat (sizeof_data T)).
  { rewrite length_app, length_encode, repeat_length. lia. }
  rewrite skipn_app, Hl, Nat.sub_diag, skipn_O.
  rewrite skipn_all2 by lia. cbn [app].
  rewrite firstn_app, Nat.sub_diag, firstn_O, app_nil_r.
  apply firstn_all.
Qed.

(** The trampoline of a new hook object is the byte table of its type. *)
Lemma setup_asm A S function w :
  page A ->
  read (setup_mem T A S function w) (A + sizeof_data T) (length (asmRaw T)) = asmRaw T.
Proof.
  intros HA. unfold setup_mem.
  pose proof (data_size T OK); pose proof (mutex_field T OK);
  pose proof (previous_field T OK); pose proof (fnNew_field T OK);
  pose proof (fnHooked_field T OK).
  rewrite !read_store64_out by lia.
  assert (Hc : forall m,
             read (match off_context T with
                   | None => m
                   | Some o => store64 (store64 m (A + o) (hd 0 (heap w))) (A + o + 8)
                                 (hd 0 (heap w))
                   end) (A + sizeof_data T) (length (asmRaw T))
             = read m (A + sizeof_data T) (length (asmRaw T))).
  { intros m. destruct (off_context T) as [o|] eqn:Eo; [|reflexivity].
    pose proof (context_field T OK o Eo). rewrite !read_store64_out by lia. reflexivity. }
  rewrite Hc, read_write_in.
  - rewrite image_asm. apply map_mod_bytes, (asm_bytes T OK).
  - lia.
  - rewrite (image_size T OK). pose proof (asm_size T OK). lia.
Qed.

End Body.

Section Install.
Variable T : HookType.
Hypothesis OK : layout_ok T.
Variables (A S function : Z) (rest : list Z) (w : World).
Hypothesis Hpages : pages w = A :: rest.
Hypothesis HA : page A.
Hypothesis HS : outside S A.

Let w1 : World :=
  {| mem := setup_mem T A S function w; pages := rest; heap := setup_heap T w;
     frozen := frozen w; stuck := stuck w; calls := Alloc A :: calls w |}.

Lemma page_not_null : (A =? 0) = false.
Proof. apply Z.eqb_neq. destruct HA. lia. Qed.

(** The slot holds no hook of this type: the new hook goes in alone. *)
Lemma link_unhooked :
  outside (wrap64 (load64 (mem w) S - sizeof_data T)) A ->
  load64 (mem w) (wrap64 (load64 (mem w) S - sizeof_data T)) <> magic T ->
  link T A S w1 = (A, snd (rdataWrite S (A + sizeof_data T) w1)).
Proof.
  intros HP Hm. unfold link, get_fnHooked, get_magic, w1. cbn [mem].
  rewrite (setup_fnHooked T OK A S function w HA HS).
  rewrite (setup_magic T OK A S function w HA).
  rewrite (setup_frame T OK A S function w HA _ HP).
  rewrite (setup_frame T OK A S function w HA _ HS).
  destruct (Z.eqb_spec (magic T) (load64 (mem w) (wrap64 (load64 (mem w) S - sizeof_data T))))
    as [E|_]; [congruence|].
  rewrite Z.eqb_refl. reflexivity.
Qed.

(** The slot holds the trampoline of a hook at [H]: the new hook is put
    on top of it. *)
Lemma link_chained H :
  wrap64 (load64 (mem w) S - sizeof_data T) = H ->
  outside H A -> outside (H + off_mutex T) A ->
  load64 (mem w) H = magic T ->
  link T A S w1 =
  (A, log (Unlock (load64 (mem w) (H + off_mutex T)))
        (snd (rdataWrite S (A + sizeof_data T)
                (snd (rdataWrite (H + off_previous T) A
                        (log (Lock (load64 (mem w) (H + off_mutex T))) w1)))))).
Proof.
  intros EH HH HHm Hm. unfold link, get_fnHooked, get_magic, get_mutex, w1, log. cbn [mem].
  rewrite (setup_fnHooked T OK A S function w HA HS).
  rewrite (setup_magic T OK A S function w HA).
  rewrite EH.
  rewrite !(setup_frame T OK A S function w HA _ HH).
  rewrite (setup_frame T OK A S function w HA _ HHm).
  rewrite (setup_frame T OK A S function w HA _ HS).
  rewrite Hm, !Z.eqb_refl. reflexivity.
Qed.

Lemma hook_setup V idx :
  wrap64 (V + 8 * idx) = S ->
  hook T V idx function w = link T A S w1.
Proof.
  intros ES. rewrite hook_split, ES.
  rewrite (setup_eq T A rest S function w Hpages) by (destruct HA; lia).
  rewrite page_not_null. reflexivity.
Qed.

End Install.


(** *** A hook installed into a slot that holds no hook *)

Section Alone.
Variable T : HookType.
Hypothesis OK : layout_ok T.
Variables (A S function : Z) (rest : list Z) (w : World).
Hypothesis Hpages : pages w = A :: rest.
Hypothesis HA : page A.
Hypothesis HS : outside S A.
Hypothesis HSr : 0 <= S /\ S + 8 <= 2 ^ 64.
Hypothesis HP : outside (wrap64 (load64 (mem w) S - sizeof_data T)) A.
Hypothesis Hm : load64 (mem w) (wrap64 (load64 (mem w) S - sizeof_data T)) <> magic T.

Lemma install_alone V idx :
  wrap64 (V + 8 * idx) = S -> frozen w S = false ->
  hook T V idx function w =
  (A, {| mem := store64 (setup_mem T A S function w) S (A + sizeof_data T);
         pages := rest; heap := setup_heap T w; frozen := frozen w; stuck := stuck w;
         calls := Protect S (negb (stuck w S)) :: Protect S true :: Alloc A :: calls w |}).
Proof.
  intros ES Hf.
  rewrite (hook_setup T A S function rest w Hpages HA V idx ES).
  rewrite (link_unhooked T OK A S function rest w HA HS HP Hm).
  rewrite rdataWrite_ok by exact Hf. reflexivity.
Qed.

Lemma alone_slot :
  load64 (store64 (setup_mem T A S function w) S (A + sizeof_data T)) S = A + sizeof_data T.
Proof.
  apply load64_store64_same.
  pose proof (page_end A HA). pose proof (data_size T OK). unfold page_size in *. lia.
Qed.

Lemma alone_inside o :
  0 <= o -> o + 8 <= sizeof_data T ->
  load64 (store64 (setup_mem T A S function w) S (A + sizeof_data T)) (A + o)
  = load64 (setup_mem T A S function w) (A + o).
Proof.
  intros H1 H2. apply load64_store64_other.
  pose proof (data_size T OK). unfold outside, page_size in *. lia.
Qed.

Lemma alone_magic :
  load64 (store64 (setup_mem T A S function w) S (A + sizeof_data T)) A = magic T.
Proof.
  rewrite load64_store64_other; [now apply setup_magic|].
  pose proof (data_size T OK). unfold outside, page_size in *. lia.
Qed.

Lemma alone_frame x :
  outside x A -> x + 8 <= S \/ S + 8 <= x ->
  load64 (store64 (setup_mem T A S function w) S (A + sizeof_data T)) x = load64 (mem w) x.
Proof.
  intros H1 H2. rewrite load64_store64_other by lia.
  now apply setup_frame.
Qed.

Lemma alone_asm :
  read (store64 (setup_mem T A S function w) S (A + sizeof_data T))
       (A + sizeof_data T) (length (asmRaw T)) = asmRaw T.
Proof.
  rewrite read_store64_out; [now apply setup_asm|].
  pose proof (data_size T OK). pose proof (asm_size T OK).
  unfold outside, page_size in *. lia.
Qed.

End Alone.

(** C9, amended.  A hook constructed with a class name that is not in the
    map of scanned classes reports nothing: the constructor returns as it
    always does, it has no error value to give, and what it leaves is a
    handle whose [allocationBase] is null.  That is also the handle left
    by a page allocation that failed, for any class and any map, so that
    the handle does not tell a missing class from a refused page.  The
    world is the one before the call: no page was allocated, no system
    call made, no byte of memory written.  Destroying that handle does
    nothing either: nothing is freed, nothing written. *)
Theorem install_by_name_absent (T : HookType) (classRTTI : gmap string RTTIScanner.RTTI)
    (className : string) (vftIndex function : Z) (w : World) (fuel : nat) :
  classRTTI !! className = None ->
  new_hook_by_name T classRTTI className vftIndex function w = (0, w) /\
  destroy T fuel (fst (new_hook_by_name T classRTTI className vftIndex function w)) w = Some w /\
  (forall (known : gmap string RTTIScanner.RTTI) (name : string) (index f : Z) (w0 : World),
     hd 0 (pages w0) = 0 ->
     fst (new_hook_by_name T known name index f w0)
     = fst (new_hook_by_name T classRTTI className vftIndex function w)).
Proof.
  intros H. unfold new_hook_by_name, RTTIScanner.getClassRTTI. rewrite H.
  split; [reflexivity|]. split; [reflexivity|].
  intros known name index f w0 Hp. cbn [fst].
  destruct (known !! name) as [pClass|]; [|reflexivity].
  now destruct (hook_alloc_failed T (RTTIScanner.pVirtualFunctionTable pClass) index f w0 Hp).
Qed.

(** C2.  Installing a hook by the name of a class whose vtable is [V], into
    slot 20 that held [F0] and no hook, leaves the slot pointing at the
    trampoline of the new hook object: the bytes of [asmRaw], 56 bytes
    after the start of the object, not null; and in its data part [fnNew]
    is the function given, [fnHooked] is [F0] and [previous] is the address
    of the slot. *)
Theorem install_by_name_postcondition
    (classRTTI : gmap string RTTIScanner.RTTI) (className : string) (pClass : RTTIScanner.RTTI)
    (V F0 function A : Z) (rest : list Z) (w : World) :
  classRTTI !! className = Some pClass ->
  RTTIScanner.pVirtualFunctionTable pClass = V ->
  0 <= V /\ V + 8 * 20 + 8 <= 2 ^ 64 ->
  0 <= function < 2 ^ 64 ->
  pages w = A :: rest -> page A ->
  outside (V + 8 * 20) A ->
  outside (wrap64 (F0 - sizeof_data HookLayout)) A ->
  frozen w (V + 8 * 20) = false ->
  load64 (mem w) (V + 8 * 20) = F0 ->
  load64 (mem w) (wrap64 (F0 - sizeof_data HookLayout)) <> magic HookLayout ->
  exists w',
    new_hook_by_name HookLayout classRTTI className 20 function w = (A, w') /\
    load64 (mem w') (V + 8 * 20) = A + sizeof_data HookLayout /\
    A + sizeof_data HookLayout <> 0 /\
    sizeof_data HookLayout = 56 /\
    read (mem w') (A + sizeof_data HookLayout) 114 = asmRaw HookLayout /\
    get_fnNew HookLayout w' A = function /\
    get_fnHooked HookLayout w' A = F0 /\
    get_previous HookLayout w' A = V + 8 * 20.
Proof.
  intros Hc HV HVr Hfn Hp HA HS HP Hf HF0 Hm.
  set (S := V + 8 * 20) in *.
  assert (ES : wrap64 (V + 8 * 20) = S) by (apply PEFacts.wrap64_small; subst S; lia).
  assert (HSr : 0 <= S /\ S + 8 <= 2 ^ 64) by (subst S; lia).
  rewrite <- HF0 in HP, Hm.
  eexists. split.
  { unfold new_hook_by_name, RTTIScanner.getClassRTTI. rewrite Hc, HV.
    apply (install_alone HookLayout HookLayout_ok A S function rest w Hp HA HS HP Hm V 20 ES Hf). }
  unfold get_fnNew, get_fnHooked, get_previous. cbn [mem].
  pose proof HookLayout_ok as OK.
  split; [apply (alone_slot HookLayout OK A S function w HA)|].
  split; [destruct HA; cbn; lia|].
  split; [reflexivity|].
  split; [apply (alone_asm HookLayout OK A S function w HA HS)|].
  rewrite !(alone_inside HookLayout OK A S function w HS) by (cbn; lia).
  split; [now apply setup_fnNew|].
  split; [rewrite <- HF0; now apply setup_fnHooked|].
  apply setup_previous; [exact OK | exact HA | lia].
Qed.


(** *** Chains of hooks on one slot *)

Section Chain.
Variable T : HookType.
Hypothesis OK : layout_ok T.

(** The hooks [L], topmost first, are linked below [above]: [e] is the
    pointer that enters them (the trampoline of the first, or the
    original function [F0] when there is none), each [previous] points at
    the hook above ([above] for the first), and each [fnHooked] enters
    the hooks below. *)
Fixpoint linked (m : memory) (above : Z) (L : list Z) (F0 e : Z) : Prop :=
  match L with
  | [] => e = F0
  | A :: rest =>
      e = A + sizeof_data T /\
      load64 m A = magic T /\
      load64 m (A + off_previous T) = above /\
      linked m A rest F0 (load64 m (A + off_fnHooked T))
  end.

(** Two memories agree on the three cells of the hook at [B] that the
    chain is made of. *)
Definition same_on (m m' : memory) (B : Z) : Prop :=
  load64 m' B = load64 m B /\
  load64 m' (B + off_previous T) = load64 m (B + off_previous T) /\
  load64 m' (B + off_fnHooked T) = load64 m (B + off_fnHooked T).

Lemma same_on_refl m B : same_on m m B.
Proof. repeat split. Qed.

Lemma same_on_trans m1 m2 m3 B : same_on m1 m2 B -> same_on m2 m3 B -> same_on m1 m3 B.
Proof. intros (a & b & c) (d & e & f). repeat split; congruence. Qed.

(** A store away from the page of [B]. *)
Lemma same_on_store m B x v :
  x + 8 <= B \/ B + page_size <= x -> same_on m (store64 m x v) B.
Proof.
  intros H. pose proof (data_size T OK). pose proof (previous_field T OK).
  pose proof (fnHooked_field T OK). unfold page_size in *.
  repeat split; apply load64_store64_other; lia.
Qed.

(** A store into another page. *)
Lemma same_on_store_page m B C o v :
  page B -> page C -> B <> C -> 0 <= o -> o + 8 <= sizeof_data T ->
  same_on m (store64 m (C + o) v) B.
Proof.
  intros HB HC Hne Ho1 Ho2. apply same_on_store.
  pose proof (page_apart B C HB HC Hne). pose proof (data_size T OK).
  unfold page_size in *. lia.
Qed.

Lemma same_on_setup A S function w B :
  page A -> page B -> A <> B -> same_on (mem w) (setup_mem T A S function w) B.
Proof.
  intros HA HB Hne. pose proof (page_apart A B HA HB Hne) as Hap.
  pose proof (data_size T OK). pose proof (previous_field T OK).
  pose proof (fnHooked_field T OK).
  repeat split; apply (setup_frame T OK A S function w HA);
    unfold outside, page_size in *; lia.
Qed.

Lemma linked_agree m m' : forall L above F0 e,
  (forall B, In B L -> same_on m m' B) ->
  linked m above L F0 e -> linked m' above L F0 e.
Proof.
  induction L as [|A L IH]; intros above F0 e Hs H; cbn [linked] in *; [exact H|].
  destruct H as (He & Hm & Hp & Hl).
  destruct (Hs A (or_introl eq_refl)) as (Sm & Sp & Sf).
  rewrite Sm, Sp, Sf. repeat split; try assumption.
  apply IH; [|exact Hl]. intros B HB. apply Hs. now right.
Qed.

Lemma last_cons_default (l : list Z) : forall x d d',
  List.last (x :: l) d = List.last (x :: l) d'.
Proof.
  induction l as [|y l IH]; intros x d d'; [reflexivity|].
  change (List.last (y :: l) d = List.last (y :: l) d'). apply IH.
Qed.

(** The hook above the first of a list: the last hook of what precedes,
    or [above]. *)
Lemma linked_at m : forall L1 A L2 above F0 e,
  linked m above (L1 ++ A :: L2) F0 e ->
  load64 m A = magic T /\
  load64 m (A + off_previous T) = List.last L1 above /\
  linked m A L2 F0 (load64 m (A + off_fnHooked T)) /\
  (forall B, In B L1 -> load64 m B = magic T).
Proof.
  induction L1 as [|C L1 IH]; intros A L2 above F0 e H; cbn [app linked] in H.
  - destruct H as (_ & Hm & Hp & Hl). cbn [List.last]. repeat split; try assumption.
    intros B [].
  - destruct H as (_ & Hm & _ & Hl).
    destruct (IH A L2 C F0 _ Hl) as (H1 & H2 & H3 & H4).
    split; [exact H1|]. split.
    { rewrite H2. destruct L1 as [|z L1]; [reflexivity|].
      change (List.last (C :: z :: L1) above) with (List.last (z :: L1) above).
      apply last_cons_default. }
    split; [exact H3|].
    intros B [<-|HB]; [exact Hm | now apply H4].
Qed.

(** From a hook of a chain, the loop of the destructor finds the top. *)
Lemma find_top_chain w hook : forall L1 X L2 above F0 e fuel,
  load64 (mem w) hook = magic T ->
  linked (mem w) above (L1 ++ X :: L2) F0 e ->
  load64 (mem w) above <> magic T ->
  (length L1 < fuel)%nat ->
  find_top T fuel w hook X = Some (hd X L1).
Proof.
  induction L1 as [|B L1 IH] using rev_ind; intros X L2 above F0 e fuel Hh Hl Ha Hf.
  - destruct fuel as [|k]; [cbn in Hf; lia|].
    destruct (linked_at _ _ _ _ _ _ _ Hl) as (_ & Hp & _ & _). cbn [List.last] in Hp.
    cbn [find_top hd]. unfold get_magic, get_previous. rewrite Hp, Hh.
    destruct (Z.eqb_spec (load64 (mem w) above) (magic T)); [contradiction | reflexivity].
  - destruct fuel as [|k]; [cbn in Hf; lia|].
    rewrite length_app in Hf. cbn [length] in Hf.
    destruct (linked_at _ _ _ _ _ _ _ Hl) as (_ & Hp & _ & Hall).
    rewrite last_last in Hp.
    cbn [find_top]. unfold get_magic, get_previous. rewrite Hp, Hh.
    rewrite (Hall B) by (apply in_or_app; right; now left).
    rewrite Z.eqb_refl.
    rewrite <- app_assoc in Hl. cbn [app] in Hl.
    rewrite (IH B (X :: L2) above F0 e k Hh Hl Ha) by lia.
    destruct L1; reflexivity.
Qed.


(** Two pointer-sized cells that do not overlap. *)
Definition sep (a b : Z) : Prop := a + 8 <= b \/ b + 8 <= a.

(** The destructor, once the hook above ([X], a hook or the slot) and the
    hook below ([next], if any) are known. *)
Lemma destroy_step fuel A w top X v (next : option Z) (prev_hook : bool) :
  A <> 0 ->
  find_top T fuel w A A = Some top ->
  load64 (mem w) A = magic T ->
  load64 (mem w) (A + off_previous T) = X ->
  load64 (mem w) (A + off_fnHooked T) = v ->
  match next with
  | Some N =>
      wrap64 (v - sizeof_data T) = N /\ load64 (mem w) N = magic T /\
      frozen w (N + off_previous T) = false /\
      sep (N + off_previous T) A /\ sep (N + off_previous T) (A + off_fnHooked T) /\
      sep (N + off_previous T) X
  | None => load64 (mem w) (wrap64 (v - sizeof_data T)) <> magic T
  end ->
  (if prev_hook then load64 (mem w) X = magic T else load64 (mem w) X <> magic T) ->
  let mx := load64 (mem w) (top + off_mutex T) in
  let w1 := match next with
            | Some N => snd (rdataWrite (N + off_previous T) X (log (Lock mx) w))
            | None => log (Lock mx) w
            end in
  destroy T fuel A w =
  Some (VirtualFree A (log (Unlock mx)
          (snd (rdataWrite (if prev_hook then X + off_fnHooked T else X) v w1)))).
Proof.
  intros HA Htop Hm Hp Hf Hnext Hprev mx w1.
  unfold destroy. apply Z.eqb_neq in HA. rewrite HA, Htop.
  unfold get_mutex, get_fnHooked, get_previous, get_magic.
  change (mem (log (Lock (load64 (mem w) (top + off_mutex T))) w)) with (mem w).
  rewrite Hm, Hp, Hf. fold mx.
  assert (E1 :
    (if magic T =? load64 (mem w) (wrap64 (v - sizeof_data T))
     then snd (rdataWrite (wrap64 (v - sizeof_data T) + off_previous T) X (log (Lock mx) w))
     else log (Lock mx) w) = w1).
  { subst w1. destruct next as [N|].
    - destruct Hnext as (EN & HN & _). rewrite EN, HN, Z.eqb_refl. reflexivity.
    - destruct (Z.eqb_spec (magic T) (load64 (mem w) (wrap64 (v - sizeof_data T))));
        [congruence | reflexivity]. }
  rewrite E1.
  assert (E2 : load64 (mem w1) A = magic T /\ load64 (mem w1) X = load64 (mem w) X /\
               load64 (mem w1) (A + off_fnHooked T) = v).
  { subst w1. destruct next as [N|]; [|cbn [log mem]; auto].
    destruct Hnext as (_ & _ & Hfr & S1 & S2 & S3).
    rewrite rdataWrite_ok by exact Hfr. cbn [snd mem log].
    unfold sep in *. rewrite !load64_store64_other by lia. auto. }
  destruct E2 as (Ea & Ex & Ef). rewrite Ea, Ex, Ef.
  destruct prev_hook.
  - rewrite Hprev, Z.eqb_refl. reflexivity.
  - destruct (Z.eqb_spec (magic T) (load64 (mem w) X)); [congruence | reflexivity].
Qed.

(** The store that detaches the hook below from a hook being removed. *)
Definition relink (m : memory) (L2 : list Z) (X : Z) : memory :=
  match L2 with
  | N :: _ => store64 m (N + off_previous T) X
  | [] => m
  end.

Lemma same_on_relink m L2 X B :
  page B -> Forall page L2 -> ~ In B L2 -> same_on m (relink m L2 X) B.
Proof.
  intros HB HL Hn. destruct L2 as [|N L2]; cbn [relink]; [apply same_on_refl|].
  pose proof (previous_field T OK).
  apply same_on_store_page; try lia;
    [exact HB | now apply List.Forall_cons_iff in HL as [HN _] |].
  intros ->. apply Hn. now left.
Qed.

Lemma linked_relink m A L2 F0 e X :
  Forall page L2 -> List.NoDup L2 -> 0 <= X < 2 ^ 64 ->
  linked m A L2 F0 e -> linked (relink m L2 X) X L2 F0 e.
Proof.
  intros HL Hnd HX H. destruct L2 as [|N L2]; cbn [relink linked] in *; [exact H|].
  destruct H as (He & Hm & Hp & Hl).
  pose proof (previous_field T OK). pose proof (fnHooked_field T OK).
  pose proof (fields_apart T OK).
  split; [exact He|].
  split; [rewrite load64_store64_other by lia; exact Hm|].
  split; [now apply load64_store64_same|].
  rewrite (load64_store64_other _ _ _ (N + off_fnHooked T)) by lia.
  apply (linked_agree m); [|exact Hl].
  intros B HB. apply List.Forall_cons_iff in HL as [HN HL2].
  apply List.NoDup_cons_iff in Hnd as [HnN Hnd2].
  apply same_on_store_page; try lia; try assumption.
  - rewrite List.Forall_forall in HL2. now apply HL2.
  - intros ->. apply HnN. exact HB.
Qed.

(** A hook [A] with a hook [B] above it is taken out: [B] now hooks what
    [A] hooked. *)
Lemma unlink_inner m A B L2 F0 : forall L1 above e,
  Forall page (L1 ++ B :: A :: L2) -> List.NoDup (L1 ++ B :: A :: L2) ->
  linked m above (L1 ++ B :: A :: L2) F0 e ->
  linked (store64 (relink m L2 B) (B + off_fnHooked T) (load64 m (A + off_fnHooked T)))
         above (L1 ++ B :: L2) F0 e.
Proof.
  pose proof (previous_field T OK) as Fp. pose proof (fnHooked_field T OK) as Ff.
  pose proof (fields_apart T OK) as Fa.
  induction L1 as [|C L1 IH]; intros above e HP Hnd H; cbn [app linked] in *.
  - destruct H as (He & Hm & Hp & _ & HAm & HAp & Hl).
    apply List.Forall_cons_iff in HP as [HB HP1].
    apply List.Forall_cons_iff in HP1 as [HA HP2].
    apply List.NoDup_cons_iff in Hnd as [HnB Hnd1].
    apply List.NoDup_cons_iff in Hnd1 as [HnA Hnd2].
    assert (HBL2 : ~ In B L2) by (intros Hin; apply HnB; now right).
    destruct (same_on_relink m L2 B B HB HP2 HBL2) as (Sm & Sp & Sf).
    split; [exact He|].
    split; [rewrite load64_store64_other by lia; congruence|].
    split; [rewrite load64_store64_other by lia; congruence|].
    rewrite load64_store64_same by apply load64_range.
    apply (linked_agree (relink m L2 B)).
    + intros N HN. apply same_on_store_page; try lia; try assumption.
      * rewrite List.Forall_forall in HP2. now apply HP2.
      * intros ->. contradiction.
    + apply (linked_relink m A L2 F0 _ B); try assumption. destruct HB. lia.
  - destruct H as (He & Hm & Hp & Hl).
    apply List.Forall_cons_iff in HP as [HC HP1].
    apply List.NoDup_cons_iff in Hnd as [HnC Hnd1].
    assert (HPB : page B /\ Forall page L2).
    { pose proof HP1 as HP1'. apply List.Forall_app in HP1' as [_ HP1'].
      apply List.Forall_cons_iff in HP1' as [HB HP2].
      apply List.Forall_cons_iff in HP2 as [_ HP2]. auto. }
    destruct HPB as [HB HP2].
    assert (HCB : C <> B).
    { intros ->. apply HnC. apply in_or_app. right. now left. }
    assert (HCL2 : ~ In C L2).
    { intros Hin. apply HnC. apply in_or_app. right. right. now right. }
    assert (Sc : same_on m (store64 (relink m L2 B) (B + off_fnHooked T)
                              (load64 m (A + off_fnHooked T))) C).
    { eapply same_on_trans; [apply same_on_relink; eassumption|].
      apply same_on_store_page; try lia; assumption. }
    destruct Sc as (Sm & Sp & Sf).
    split; [exact He|]. split; [congruence|]. split; [congruence|].
    rewrite Sf. apply IH; assumption.
Qed.


(** The state of a slot [S] whose original function is [F0] and which
    carries the hooks [L], topmost first: the hooks sit on distinct pages
    away from the slot and from the eight bytes that are looked at in
    front of [F0] (which do not hold the magic), every address can be
    made writable, and slot and hooks are linked. *)
Record chain (w : World) (S F0 : Z) (L : list Z) : Prop := {
  chain_slot : 0 <= S /\ S + 8 <= 2 ^ 64;
  chain_pages : Forall page L;
  chain_nodup : List.NoDup L;
  chain_slot_out : Forall (outside S) L;
  chain_probe_out : Forall (outside (wrap64 (F0 - sizeof_data T))) L;
  chain_probe_slot : sep (wrap64 (F0 - sizeof_data T)) S;
  chain_probe : load64 (mem w) (wrap64 (F0 - sizeof_data T)) <> magic T;
  chain_protect : forall x, frozen w x = false;
  chain_linked : linked (mem w) S L F0 (load64 (mem w) S)
}.

Lemma outside_cell x B o :
  outside x B -> 0 <= o -> o + 8 <= sizeof_data T -> sep x (B + o).
Proof.
  intros H H1 H2. pose proof (data_size T OK). unfold outside, sep, page_size in *. lia.
Qed.

Lemma page_outside A B o :
  page A -> page B -> A <> B -> 0 <= o -> o + 8 <= sizeof_data T -> outside (B + o) A.
Proof.
  intros HA HB Hne H1 H2. pose proof (page_apart A B HA HB Hne).
  pose proof (data_size T OK). unfold outside, page_size in *. lia.
Qed.

Lemma sep_sym a b : sep a b -> sep b a.
Proof. unfold sep. lia. Qed.

Lemma load64_store64_sep m a v b : sep a b -> load64 (store64 m a v) b = load64 m b.
Proof. intros H. now apply load64_store64_other. Qed.

Lemma outside_base x B : outside x B -> sep x B.
Proof. intros H. unfold outside, sep, page_size in *. lia. Qed.

Lemma base_previous_sep B : sep B (B + off_previous T).
Proof. pose proof (previous_field T OK). unfold sep. lia. Qed.

Lemma base_fnHooked_sep B : sep B (B + off_fnHooked T).
Proof. pose proof (fnHooked_field T OK). unfold sep. lia. Qed.

Lemma previous_fnHooked_sep B : sep (B + off_previous T) (B + off_fnHooked T).
Proof. pose proof (fields_apart T OK). unfold sep. lia. Qed.

Lemma previous_fnNew_sep B : sep (B + off_previous T) (B + off_fnNew T).
Proof. pose proof (fields_apart T OK). unfold sep. lia. Qed.

Lemma fnHooked_fnNew_sep B : sep (B + off_fnHooked T) (B + off_fnNew T).
Proof. pose proof (fields_apart T OK). unfold sep. lia. Qed.

Lemma page_value A : page A -> 0 <= A < 2 ^ 64 /\ 0 <= A + sizeof_data T < 2 ^ 64.
Proof.
  intros HA. pose proof (page_end A HA). pose proof (data_size T OK).
  unfold page_size in *. lia.
Qed.

(** Installing a hook on a slot puts it on top of the chain. *)
Theorem chain_install w S F0 L A rest V idx function :
  chain w S F0 L ->
  pages w = A :: rest -> page A -> ~ In A L ->
  outside S A -> outside (wrap64 (F0 - sizeof_data T)) A ->
  wrap64 (V + 8 * idx) = S -> 0 <= function < 2 ^ 64 ->
  exists w',
    hook T V idx function w = (A, w') /\ chain w' S F0 (A :: L) /\
    pages w' = rest /\ get_fnNew T w' A = function.
Proof.
  intros [Cs Cp Cn Cso Cpo Cps Cpr Cf Cl] Hp HA HnA HS HP ES Hfn.
  pose proof (data_size T OK) as Hd. pose proof (previous_field T OK) as Fp.
  pose proof (fnHooked_field T OK) as Ff. pose proof (fnNew_field T OK) as Fn.
  pose proof (mutex_field T OK) as Fm.
  destruct L as [|H L]; cbn [linked] in Cl.
  - (* no hook yet *)
    assert (HP' : outside (wrap64 (load64 (mem w) S - sizeof_data T)) A) by (now rewrite Cl).
    assert (Hm' : load64 (mem w) (wrap64 (load64 (mem w) S - sizeof_data T)) <> magic T)
      by (now rewrite Cl).
    eexists. split.
    { apply (install_alone T OK A S function rest w Hp HA HS HP' Hm' V idx ES (Cf S)). }
    split; [|split; [reflexivity|]].
    + constructor; cbn [mem frozen]; try assumption.
      * constructor; [assumption | constructor].
      * constructor; [intros [] | constructor].
      * constructor; [assumption | constructor].
      * constructor; [assumption | constructor].
      * rewrite (alone_frame T OK A S function w HA); assumption.
      * cbn [linked].
        rewrite (alone_slot T OK A S function w HA).
        split; [reflexivity|].
        rewrite (alone_magic T OK A S function w HA HS).
        rewrite !(alone_inside T OK A S function w HS) by lia.
        split; [reflexivity|].
        split; [apply setup_previous; [assumption | assumption | lia]|].
        rewrite <- Cl. now apply setup_fnHooked.
    + unfold get_fnNew. cbn [mem].
      rewrite (alone_inside T OK A S function w HS) by lia. now apply setup_fnNew.
  - (* on top of the hook at H *)
    destruct Cl as (Ce & Hm & Hpv & Hl).
    apply List.Forall_cons_iff in Cp as [HH Cp].
    apply List.Forall_cons_iff in Cso as [HSH Cso].
    apply List.Forall_cons_iff in Cpo as [HPH Cpo].
    pose proof Cn as Cn0. apply List.NoDup_cons_iff in Cn as [HnH Cn].
    assert (HAH : A <> H) by (intros ->; apply HnA; now left).
    destruct (page_value H HH) as [HHv _]. destruct (page_value A HA) as [HAv HAb].
    assert (EH : wrap64 (load64 (mem w) S - sizeof_data T) = H).
    { rewrite Ce. replace (H + sizeof_data T - sizeof_data T) with H by lia.
      now apply PEFacts.wrap64_small. }
    assert (O1 : outside H A).
    { replace H with (H + 0) by lia. apply page_outside; try assumption; lia. }
    assert (O2 : outside (H + off_mutex T) A) by (apply page_outside; try assumption; lia).
    assert (O3 : outside (H + off_previous T) A) by (apply page_outside; try assumption; lia).
    assert (O4 : outside (H + off_fnHooked T) A) by (apply page_outside; try assumption; lia).
    eexists. split.
    { rewrite (hook_setup T A S function rest w Hp HA V idx ES).
      rewrite (link_chained T OK A S function rest w HA HS H EH O1 O2 Hm).
      rewrite (rdataWrite_ok (H + off_previous T)) by apply Cf. cbn [snd].
      rewrite (rdataWrite_ok S) by apply Cf. cbn [snd]. reflexivity. }
    cbn [log mem pages frozen calls heap].
    set (m' := store64 (store64 (setup_mem T A S function w) (H + off_previous T) A) S
                 (A + sizeof_data T)).
    assert (Sframe : forall x, outside x A -> sep S x -> sep (H + off_previous T) x ->
                               load64 m' x = load64 (mem w) x).
    { intros x Hx1 Hx2 Hx3. subst m'.
      rewrite !load64_store64_sep by assumption. now apply setup_frame. }
    assert (Aframe : forall o, 0 <= o -> o + 8 <= sizeof_data T ->
                               load64 m' (A + o) = load64 (setup_mem T A S function w) (A + o)).
    { intros o Ho1 Ho2. subst m'.
      rewrite !load64_store64_sep; [reflexivity | |]; apply outside_cell; assumption. }
    assert (SH : forall o, 0 <= o -> o + 8 <= sizeof_data T -> sep S (H + o))
      by (intros; apply outside_cell; assumption).
    split; [|split; [reflexivity|]].
    + constructor; cbn [log mem frozen]; fold m'; try assumption.
      * constructor; [assumption | constructor; assumption].
      * constructor; assumption.
      * constructor; [assumption | constructor; assumption].
      * constructor; [assumption | constructor; assumption].
      * rewrite Sframe; try assumption.
        -- now apply sep_sym.
        -- apply sep_sym, outside_cell; try assumption; lia.
      * cbn [linked].
        assert (ES' : load64 m' S = A + sizeof_data T).
        { subst m'. now apply load64_store64_same. }
        rewrite ES'. split; [reflexivity|].
        assert (EA : load64 m' A = magic T).
        { replace A with (A + 0) at 1 by lia. rewrite Aframe by lia.
          rewrite Z.add_0_r. now apply setup_magic. }
        rewrite EA. rewrite !Aframe by lia.
        rewrite (setup_previous T OK A S function w HA) by lia.
        rewrite (setup_fnHooked T OK A S function w HA HS).
        split; [reflexivity|]. split; [reflexivity|].
        split; [exact Ce|].
        split.
        { rewrite Sframe; try assumption.
          - now apply outside_base.
          - apply sep_sym, base_previous_sep. }
        split.
        { subst m'. rewrite load64_store64_sep by (apply SH; lia).
          now apply load64_store64_same. }
        rewrite Sframe; try assumption.
        2: { apply SH; lia. }
        2: { apply previous_fnHooked_sep. }
        apply (linked_agree (mem w)); [|exact Hl].
        intros B HB.
        assert (HBp : page B) by (rewrite List.Forall_forall in Cp; now apply Cp).
        assert (HBs : outside S B) by (rewrite List.Forall_forall in Cso; now apply Cso).
        assert (HBA : A <> B) by (intros ->; apply HnA; now right).
        assert (HBH : B <> H) by (intros ->; contradiction).
        subst m'.
        eapply same_on_trans; [apply (same_on_setup A S function w B HA HBp HBA)|].
        eapply same_on_trans;
          [apply (same_on_store_page _ B H (off_previous T) A HBp HH HBH); lia|].
        apply same_on_store. exact HBs.
    + unfold get_fnNew. cbn [log mem]. fold m'. rewrite Aframe by lia. now apply setup_fnNew.
Qed.


Definition next_of (L2 : list Z) : option Z :=
  match L2 with
  | N :: _ => Some N
  | [] => None
  end.

Lemma next_ok w A L2 F0 X :
  page A -> Forall page L2 -> ~ In A L2 ->
  (forall x, frozen w x = false) ->
  load64 (mem w) (wrap64 (F0 - sizeof_data T)) <> magic T ->
  linked (mem w) A L2 F0 (load64 (mem w) (A + off_fnHooked T)) ->
  (forall N, In N L2 -> sep (N + off_previous T) X) ->
  match next_of L2 with
  | Some N =>
      wrap64 (load64 (mem w) (A + off_fnHooked T) - sizeof_data T) = N /\
      load64 (mem w) N = magic T /\
      frozen w (N + off_previous T) = false /\
      sep (N + off_previous T) A /\ sep (N + off_previous T) (A + off_fnHooked T) /\
      sep (N + off_previous T) X
  | None =>
      load64 (mem w) (wrap64 (load64 (mem w) (A + off_fnHooked T) - sizeof_data T))
      <> magic T
  end.
Proof.
  intros HA HL Hn Hf Hpr Hl HX.
  pose proof (previous_field T OK) as Fp. pose proof (fnHooked_field T OK) as Ff.
  destruct L2 as [|N L2]; cbn [next_of linked] in *.
  - now rewrite Hl.
  - destruct Hl as (He & Hm & _).
    apply List.Forall_cons_iff in HL as [HN _].
    assert (HAN : A <> N) by (intros ->; apply Hn; now left).
    destruct (page_value N HN) as [HNv _].
    split.
    { rewrite He. replace (N + sizeof_data T - sizeof_data T) with N by lia.
      now apply PEFacts.wrap64_small. }
    split; [exact Hm|]. split; [apply Hf|].
    assert (O : outside (N + off_previous T) A) by (apply page_outside; try assumption; lia).
    split; [now apply outside_base|].
    split; [apply outside_cell; try assumption; lia|].
    apply HX. now left.
Qed.

Lemma Forall_remove_mid (P : Z -> Prop) L1 A L2 :
  Forall P (L1 ++ A :: L2) -> P A /\ Forall P L1 /\ Forall P L2 /\ Forall P (L1 ++ L2).
Proof.
  intros H. apply List.Forall_app in H as [H1 H2].
  apply List.Forall_cons_iff in H2 as [HA H2].
  repeat split; try assumption. apply List.Forall_app. split; assumption.
Qed.

(** Destroying the handle of any hook of a chain takes that hook out and
    keeps the chain. *)
Theorem chain_destroy w S F0 L1 A L2 fuel :
  chain w S F0 (L1 ++ A :: L2) -> (length L1 < fuel)%nat ->
  exists w',
    destroy T fuel A w = Some w' /\ chain w' S F0 (L1 ++ L2) /\
    pages w' = pages w /\ hd (Alloc 0) (calls w') = Free A.
Proof.
  intros [Cs Cp Cn Cso Cpo Cps Cpr Cf Cl] Hfuel.
  pose proof (previous_field T OK) as Fp. pose proof (fnHooked_field T OK) as Ff.
  destruct (Forall_remove_mid _ _ _ _ Cp) as (HA & Cp1 & Cp2 & Cp').
  destruct (Forall_remove_mid _ _ _ _ Cso) as (HSA & Cso1 & Cso2 & Cso').
  destruct (Forall_remove_mid _ _ _ _ Cpo) as (HPA & Cpo1 & Cpo2 & Cpo').
  pose proof (List.NoDup_remove_1 _ _ _ Cn) as Cn'.
  pose proof (List.NoDup_remove_2 _ _ _ Cn) as HnA.
  assert (HnA1 : ~ In A L1) by (intros Hin; apply HnA, in_or_app; now left).
  assert (HnA2 : ~ In A L2) by (intros Hin; apply HnA, in_or_app; now right).
  assert (Cn2 : List.NoDup L2).
  { apply List.NoDup_app_remove_l in Cn. now apply List.NoDup_cons_iff in Cn as [_ Cn]. }
  destruct (linked_at _ _ _ _ _ _ _ Cl) as (HAm & HAp & HAl & Hall).
  destruct (page_value A HA) as [HAv HAb].
  assert (HA0 : A <> 0) by (destruct HA; lia).
  assert (HSm : load64 (mem w) S <> magic T).
  { destruct L1 as [|C L1]; cbn [app linked] in Cl; destruct Cl as (-> & _).
    - now apply page_body_not_magic.
    - apply page_body_not_magic; [exact OK|].
      now apply List.Forall_cons_iff in Cp1 as [HC _]. }
  pose proof (find_top_chain w A L1 A L2 S F0 _ fuel HAm Cl HSm Hfuel) as Htop.
  set (v := load64 (mem w) (A + off_fnHooked T)) in *.
  assert (Hv : 0 <= v < 2 ^ 64) by apply load64_range.
  set (mx := load64 (mem w) (hd A L1 + off_mutex T)).
  (* the world after the hook below has been detached *)
  assert (W1 : forall X, (forall N, In N L2 -> sep (N + off_previous T) X) ->
             exists w1,
               (match next_of L2 with
                | Some N =>
                    snd (rdataWrite (N + off_previous T) X (log (Lock mx) w))
                | None => log (Lock mx) w
                end) = w1 /\
               mem w1 = relink (mem w) L2 X /\ frozen w1 = frozen w /\ pages w1 = pages w).
  { intros X HX. eexists. split; [reflexivity|].
    destruct L2 as [|N L2]; cbn [next_of relink]; [auto|].
    rewrite rdataWrite_ok by apply Cf. cbn [snd mem frozen pages log]. auto. }
  induction L1 as [|B L1 _] using rev_ind.
  - (* the topmost hook: the hook above is the slot *)
    cbn [List.last app hd length] in *.
    assert (HX : forall N, In N L2 -> sep (N + off_previous T) S).
    { intros N HN. apply sep_sym, outside_cell; try lia.
      rewrite List.Forall_forall in Cso2. now apply Cso2. }
    pose proof (next_ok w A L2 F0 S HA Cp2 HnA2 Cf Cpr HAl HX) as Hnext.
    pose proof (destroy_step fuel A w A S v (next_of L2) false HA0 Htop HAm HAp
                  eq_refl Hnext HSm) as E.
    cbv zeta in E. fold mx in E.
    destruct (W1 S HX) as (w1 & Ew1 & Em1 & Ef1 & Ep1). rewrite Ew1 in E.
    rewrite rdataWrite_ok in E by (rewrite Ef1; apply Cf). cbn [snd] in E.
    eexists. split; [exact E|].
    split; [|split; [cbn [VirtualFree log pages]; exact Ep1 | reflexivity]].
    constructor; cbn [VirtualFree log mem frozen]; try assumption.
    + rewrite load64_store64_sep by (now apply sep_sym).
      rewrite Em1. destruct L2 as [|N L2]; cbn [relink]; [exact Cpr|].
      rewrite load64_store64_sep; [exact Cpr|].
      apply sep_sym, outside_cell; try lia.
      now apply List.Forall_cons_iff in Cpo2 as [HN _].
    + intros x. rewrite Ef1. apply Cf.
    + rewrite load64_store64_same by exact Hv.
      apply (linked_agree (relink (mem w) L2 S)).
      * intros N HN. rewrite Em1. apply same_on_store.
        rewrite List.Forall_forall in Cso2. now apply Cso2.
      * apply (linked_relink _ A); try assumption. lia.
  - (* a hook with the hook B above it *)
    rewrite List.last_last in HAp.
    rewrite <- app_assoc in Cl, Cp, Cn. cbn [app] in Cl, Cp, Cn.
    assert (HB : page B).
    { apply List.Forall_app in Cp1 as [_ HB]. now apply List.Forall_cons_iff in HB as [HB _]. }
    assert (HSB : outside S B).
    { apply List.Forall_app in Cso1 as [_ H]. now apply List.Forall_cons_iff in H as [H _]. }
    assert (HPB : outside (wrap64 (F0 - sizeof_data T)) B).
    { apply List.Forall_app in Cpo1 as [_ H]. now apply List.Forall_cons_iff in H as [H _]. }
    assert (HBm : load64 (mem w) B = magic T).
    { apply Hall. apply in_or_app. right. now left. }
    assert (HBA : B <> A).
    { intros ->. apply HnA1. apply in_or_app. right. now left. }
    assert (HBL2 : forall N, In N L2 -> N <> B).
    { intros N HN ->. apply List.NoDup_remove_2 in Cn. apply Cn.
      apply in_or_app. right. now right. }
    assert (HX : forall N, In N L2 -> sep (N + off_previous T) B).
    { intros N HN. apply sep_sym.
      assert (HNp : page N) by (rewrite List.Forall_forall in Cp2; now apply Cp2).
      replace B with (B + 0) by lia.
      apply sep_sym, outside_base.
      replace (B + 0) with B by lia.
      apply (page_outside B N (off_previous T)); try assumption; try lia.
      intros E. apply (HBL2 N HN). now symmetry. }
    pose proof (next_ok w A L2 F0 B HA Cp2 HnA2 Cf Cpr HAl HX) as Hnext.
    pose proof (destroy_step fuel A w _ B v (next_of L2) true HA0 Htop HAm HAp
                  eq_refl Hnext HBm) as E.
    cbv zeta in E. fold mx in E.
    destruct (W1 B HX) as (w1 & Ew1 & Em1 & Ef1 & Ep1). rewrite Ew1 in E.
    rewrite rdataWrite_ok in E by (rewrite Ef1; apply Cf). cbn [snd] in E.
    eexists. split; [exact E|].
    split; [|split; [cbn [VirtualFree log pages]; exact Ep1 | reflexivity]].
    rewrite <- app_assoc. cbn [app].
    assert (Cp'' : Forall page (L1 ++ B :: L2)) by (now rewrite <- app_assoc in Cp').
    assert (SN : forall m, load64 (relink m L2 B) S = load64 m S
                           /\ load64 (relink m L2 B) (wrap64 (F0 - sizeof_data T))
                              = load64 m (wrap64 (F0 - sizeof_data T))).
    { intros m. destruct L2 as [|N L2]; cbn [relink]; [auto|].
      apply List.Forall_cons_iff in Cso2 as [HSN _].
      apply List.Forall_cons_iff in Cpo2 as [HPN _].
      rewrite !load64_store64_sep; [auto | |];
        apply sep_sym, outside_cell; try assumption; lia. }
    constructor; cbn [VirtualFree log mem frozen]; try assumption.
    + now rewrite <- app_assoc in Cn'.
    + now rewrite <- app_assoc in Cso'.
    + now rewrite <- app_assoc in Cpo'.
    + rewrite load64_store64_sep by (apply sep_sym, outside_cell; try assumption; lia).
      rewrite Em1. destruct (SN (mem w)) as [_ ->]. exact Cpr.
    + intros x. rewrite Ef1. apply Cf.
    + rewrite load64_store64_sep by (apply sep_sym, outside_cell; try assumption; lia).
      rewrite Em1. destruct (SN (mem w)) as [-> _].
      apply unlink_inner; assumption.
Qed.


(** The handles of a list are destroyed one after the other. *)
Fixpoint destroy_all (fuel : nat) (handles : list Z) (w : World) : option World :=
  match handles with
  | [] => Some w
  | h :: r =>
      match destroy T fuel h w with
      | Some w' => destroy_all fuel r w'
      | None => None
      end
  end.

(** Destroying every hook of a chain, in any order, leaves the slot
    without hook. *)
Lemma chain_destroy_all S F0 fuel : forall order L w,
  Permutation order L -> chain w S F0 L -> (length L <= fuel)%nat ->
  exists w', destroy_all fuel order w = Some w' /\ chain w' S F0 [].
Proof.
  induction order as [|h r IH]; intros L w HP HC Hf.
  - apply Permutation_nil in HP. subst L. exists w. split; [reflexivity | exact HC].
  - assert (Hin : In h L) by (apply (Permutation_in h HP); now left).
    destruct (in_split h L Hin) as (L1 & L2 & ->).
    rewrite length_app in Hf. cbn [length] in Hf.
    destruct (chain_destroy w S F0 L1 h L2 fuel HC ltac:(lia)) as (w1 & E & HC1 & _).
    apply Permutation_cons_app_inv in HP.
    destruct (IH (L1 ++ L2) w1 HP HC1) as (w' & E' & HC').
    { rewrite length_app. lia. }
    exists w'. split; [|exact HC']. cbn [destroy_all]. rewrite E. exact E'.
Qed.

End Chain.


(** C1.  A slot [S] holds the original function [F0] and no hook.  Three
    hooks are installed on it, on the pages [A1], [A2], [A3] in that order;
    the slot then enters the trampoline of the third.  Destroying the three
    handles in any order brings the slot back to [F0].  Destroying the
    middle one alone leaves a chain of the two others: the slot enters the
    third hook, whose [previous] is the slot and whose [fnHooked] enters
    the first hook, whose [previous] is the third hook and whose
    [fnHooked] is [F0]. *)
Theorem chain_install_uninstall_symmetry
    (w : World) (V idx S F0 f1 f2 f3 A1 A2 A3 : Z) (rest : list Z) (fuel : nat) :
  chain HookLayout w S F0 [] ->
  wrap64 (V + 8 * idx) = S ->
  pages w = A1 :: A2 :: A3 :: rest ->
  Forall page [A1; A2; A3] -> List.NoDup [A1; A2; A3] ->
  Forall (outside S) [A1; A2; A3] ->
  Forall (outside (wrap64 (F0 - sizeof_data HookLayout))) [A1; A2; A3] ->
  0 <= f1 < 2 ^ 64 -> 0 <= f2 < 2 ^ 64 -> 0 <= f3 < 2 ^ 64 ->
  (3 <= fuel)%nat ->
  exists w1 w2 w3,
    new_hook HookLayout V idx f1 w = (A1, w1) /\
    new_hook HookLayout V idx f2 w1 = (A2, w2) /\
    new_hook HookLayout V idx f3 w2 = (A3, w3) /\
    load64 (mem w3) S = A3 + 56 /\
    (forall order, Permutation order [A1; A2; A3] ->
       exists w', destroy_all HookLayout fuel order w3 = Some w' /\
                  load64 (mem w') S = F0) /\
    (exists w', destroy HookLayout fuel A2 w3 = Some w' /\
                chain HookLayout w' S F0 [A3; A1] /\
                load64 (mem w') S = A3 + 56 /\
                get_magic w' A3 = magic HookLayout /\
                get_previous HookLayout w' A3 = S /\
                get_fnHooked HookLayout w' A3 = A1 + 56 /\
                get_magic w' A1 = magic HookLayout /\
                get_previous HookLayout w' A1 = A3 /\
                get_fnHooked HookLayout w' A1 = F0).
Proof.
  intros C0 ES Hp HP Hnd HSo HPo Hf1 Hf2 Hf3 Hfuel.
  pose proof HookLayout_ok as OK.
  apply List.Forall_cons_iff in HP as [P1 HP]. apply List.Forall_cons_iff in HP as [P2 HP].
  apply List.Forall_cons_iff in HP as [P3 _].
  apply List.Forall_cons_iff in HSo as [S1 HSo]. apply List.Forall_cons_iff in HSo as [S2 HSo].
  apply List.Forall_cons_iff in HSo as [S3 _].
  apply List.Forall_cons_iff in HPo as [Q1 HPo]. apply List.Forall_cons_iff in HPo as [Q2 HPo].
  apply List.Forall_cons_iff in HPo as [Q3 _].
  apply List.NoDup_cons_iff in Hnd as [N1 Hnd]. apply List.NoDup_cons_iff in Hnd as [N2 _].
  assert (N12 : A1 <> A2) by (intros E; apply N1; now left).
  assert (N13 : A1 <> A3) by (intros E; apply N1; right; now left).
  assert (N23 : A2 <> A3) by (intros E; apply N2; now left).
  destruct (chain_install HookLayout OK w S F0 [] A1 _ V idx f1 C0 Hp P1)
    as (w1 & E1 & C1 & Hp1 & _); try assumption.
  { intros []. }
  destruct (chain_install HookLayout OK w1 S F0 [A1] A2 _ V idx f2 C1 Hp1 P2)
    as (w2 & E2 & C2 & Hp2 & _); try assumption.
  { intros [E|[]]. congruence. }
  destruct (chain_install HookLayout OK w2 S F0 [A2; A1] A3 _ V idx f3 C2 Hp2 P3)
    as (w3 & E3 & C3 & Hp3 & _); try assumption.
  { intros [E|[E|[]]]; congruence. }
  exists w1, w2, w3. unfold new_hook.
  split; [exact E1|]. split; [exact E2|]. split; [exact E3|].
  split.
  { destruct (chain_linked _ _ _ _ _ C3) as (E & _). exact E. }
  split.
  - intros order HPerm.
    assert (HPerm' : Permutation order [A3; A2; A1]).
    { eapply Permutation_trans; [exact HPerm|].
      change [A3; A2; A1] with (rev [A1; A2; A3]). apply Permutation_rev. }
    destruct (chain_destroy_all HookLayout OK S F0 fuel order _ w3 HPerm' C3)
      as (w' & E & C'); [exact Hfuel|].
    exists w'. split; [exact E|]. exact (chain_linked _ _ _ _ _ C').
  - destruct (chain_destroy HookLayout OK w3 S F0 [A3] A2 [A1] fuel C3)
      as (w' & E & C' & _); [cbn; lia|].
    exists w'. split; [exact E|]. split; [exact C'|].
    destruct (chain_linked _ _ _ _ _ C') as (Ea & Eb & Ec & Ed & Ee & Ef & Eg).
    unfold get_magic, get_previous, get_fnHooked.
    repeat split; assumption.
Qed.


(** *** Protection changes that fail *)


(** The world [w] in which the protection of the eight bytes at [a] can be
    changed but not put back. *)
Definition jam (a : Z) (w : World) : World :=
  {| mem := mem w; pages := pages w; heap := heap w;
     frozen := frozen w; stuck := fun x => (x =? a) || stuck w x;
     calls := calls w |}.

(** The world [w] when [VirtualAlloc] has no page to give. *)
Definition without_pages (w : World) : World :=
  {| mem := mem w; pages := []; heap := heap w;
     frozen := frozen w; stuck := stuck w; calls := calls w |}.

(** A vtable at 0x12000 whose slot 20 holds the function at 0x11000; three
    pages to come from [VirtualAlloc]. *)
Definition sample_world : World :=
  {| mem := store64 (fun _ => 0) 0x120A0 0x11000;
     pages := [0x20000; 0x30000; 0x40000];
     heap := [0x500000; 0x500040; 0x500080; 0x5000C0; 0x500100; 0x500140];
     frozen := fun _ => false; stuck := fun _ => false;
     calls := [] |}.





(** *** Hooks of the two families on one slot *)

(** The sample world in which the 24 bytes in front of the first page to
    be allocated hold what the data of a template hook starts with: the
    bytes of [UniHook] and, at the offset of [mutex], the address of a
    mutex. *)
Definition magic_before_page : World :=
  {| mem := store64 (store64 (mem sample_world) (0x20000 - 24) (magic EntryHook))
              (0x20000 - 24 + off_mutex EntryHook) 0x600000;
     pages := pages sample_world; heap := heap sample_world;
     frozen := frozen sample_world; stuck := stuck sample_world;
     calls := calls sample_world |}.

(** C10, as stated, fails.  A [VFTHook] is installed on the slot, then an
    [EntryHook] of the template family.  The two objects carry different
    magic values, and yet the second install takes the first hook for a
    member of its chain: it locks the mutex it finds, and writes itself
    into the [previous] field of the [VFTHook] object.  The word it
    compared with its magic is not the magic of the first hook but the one
    24 bytes before it.  The destructor of the [VFTHook] then compares the
    two magic fields, finds them different, takes the [EntryHook] for the
    slot and overwrites its magic field with the function it had hooked. *)
Lemma families_linked_counterexample :
  let r1 := new_hook HookLayout 0x12000 20 0x15000 magic_before_page in
  let r2 := new_hook EntryHook 0x12000 20 0x16000 (snd r1) in
  fst r1 = 0x20000 /\ fst r2 = 0x30000 /\
  get_magic (snd r2) (fst r1) = magic HookLayout /\
  get_magic (snd r2) (fst r2) = magic EntryHook /\
  magic HookLayout <> magic EntryHook /\
  get_previous HookLayout (snd r1) (fst r1) = 0x120A0 /\
  get_previous HookLayout (snd r2) (fst r1) = fst r2 /\
  calls (snd r2)
  = [Unlock 0x600000; Protect 0x120A0 true; Protect 0x120A0 true;
     Protect 0x20018 true; Protect 0x20018 true; Lock 0x600000; Alloc 0x30000;
     Protect 0x120A0 true; Protect 0x120A0 true; Alloc 0x20000] /\
  option_map (fun w => get_magic w (fst r2)) (destroy HookLayout 2 (fst r1) (snd r2))
  = Some 0x11000.
Proof.
  cbv zeta. repeat split; try (vm_compute; reflexivity).
  vm_compute. discriminate.
Qed.

(** C10, amended.  Whether a hook joins or leaves a chain is decided by
    comparing its own magic field with the eight bytes at a candidate
    address.  In [hook], a hook of type [T] is installed on a slot that
    enters a hook of type [U] at [X]: the candidate is found with the size
    of the data part of [T]; for [T] and [U] of the same layout it is [X],
    and the hooks link exactly when the magic field of the hook at [X]
    holds the magic of [T]; for the two families, whose data parts are 56
    and 80 bytes, it is [X - 24] or [X + 24], a word that is not the magic
    field of the hook at [X].  When that word is the magic of [T] the new
    hook is written into the [previous] field found from the candidate;
    when it is not, the new hook takes the slot for its [previous] and
    that field is left as it was.  In the destructor of a hook [B] of
    type [T], the candidate above is the address that [previous] holds:
    when the eight bytes there are not the magic of [T], as with a hook of
    the other family, what is there is taken for the slot and overwritten
    with [fnHooked]; the candidate below is found, again, with the size of
    the data part of [T], and its [previous] field is written exactly when
    the candidate holds the magic of [T]. *)
Theorem membership_test_uses_own_layout
    (T U : HookType) (w : World) (V idx S X function A : Z) (rest : list Z) :
  layout_ok T ->
  wrap64 (V + 8 * idx) = S -> 0 <= S /\ S + 8 <= 2 ^ 64 ->
  pages w = A :: rest -> page A -> outside S A ->
  (forall x, frozen w x = false) ->
  load64 (mem w) S = X + sizeof_data U ->
  let candidate := wrap64 (X + sizeof_data U - sizeof_data T) in
  outside candidate A -> outside (candidate + off_mutex T) A ->
  outside (candidate + off_previous T) A -> sep (candidate + off_previous T) S ->
  (exists w',
     hook T V idx function w = (A, w') /\
     get_magic w' A = magic T /\
     load64 (mem w') S = A + sizeof_data T /\
     (load64 (mem w) candidate = magic T ->
        load64 (mem w') (candidate + off_previous T) = A) /\
     (load64 (mem w) candidate <> magic T ->
        get_previous T w' A = S /\
        load64 (mem w') (candidate + off_previous T)
        = load64 (mem w) (candidate + off_previous T)) /\
     (T = U -> 0 <= X < 2 ^ 64 -> candidate = X) /\
     (T = EntryHook -> U = HookLayout -> 24 <= X < 2 ^ 64 -> candidate = X - 24) /\
     (T = HookLayout -> U = EntryHook -> 0 <= X /\ X + 24 < 2 ^ 64 -> candidate = X + 24)) /\
  (forall (fuel : nat) (B : Z) (w0 : World) (above v below : Z),
     B <> 0 -> get_magic w0 B = magic T ->
     get_previous T w0 B = above -> get_fnHooked T w0 B = v ->
     wrap64 (v - sizeof_data T) = below ->
     frozen w0 above = false -> frozen w0 (below + off_previous T) = false ->
     sep (below + off_previous T) B -> sep (below + off_previous T) (B + off_fnHooked T) ->
     sep (below + off_previous T) above ->
     load64 (mem w0) above <> magic T ->
     (1 <= fuel)%nat ->
     exists w2,
       destroy T fuel B w0 = Some w2 /\
       load64 (mem w2) above = v /\
       load64 (mem w2) (below + off_previous T)
       = (if load64 (mem w0) below =? magic T then above
          else load64 (mem w0) (below + off_previous T)) /\
       hd (Alloc 0) (calls w2) = Free B).
Proof.
  intros OK ES HSr Hp HA HS Hf He c Hc1 Hc2 Hc3 Hc4.
  split.
  2: { intros fuel B w0 above v below HB HBm Ha Hv Eb Hfa Hfb S1 S2 S3 Ham Hfuel.
       unfold get_magic in HBm. unfold get_previous in Ha. unfold get_fnHooked in Hv.
       assert (Htop : find_top T fuel w0 B B = Some B).
       { destruct fuel as [|k]; [lia|]. cbn [find_top]. unfold get_magic, get_previous.
         rewrite Ha, HBm.
         destruct (Z.eqb_spec (load64 (mem w0) above) (magic T)); [contradiction | reflexivity]. }
       assert (Hvr : 0 <= v < 2 ^ 64) by (subst v; apply load64_range).
       assert (Har : 0 <= above < 2 ^ 64) by (subst above; apply load64_range).
       destruct (Z.eqb_spec (load64 (mem w0) below) (magic T)) as [Hb|Hb].
       - pose proof (destroy_step T fuel B w0 B above v (Some below) false HB Htop HBm Ha Hv
                       (conj Eb (conj Hb (conj Hfb (conj S1 (conj S2 S3))))) Ham) as E.
         cbv beta zeta iota in E.
         rewrite (rdataWrite_ok (below + off_previous T)) in E by exact Hfb. cbn [snd] in E.
         rewrite (rdataWrite_ok above) in E by exact Hfa. cbn [snd] in E.
         eexists. split; [exact E|]. cbn [VirtualFree log mem calls hd].
         split; [now apply load64_store64_same|]. split; [|reflexivity].
         rewrite load64_store64_sep by (unfold sep in *; lia).
         now apply load64_store64_same.
       - rewrite <- Eb in Hb.
         pose proof (destroy_step T fuel B w0 B above v None false HB Htop HBm Ha Hv Hb Ham) as E.
         cbv beta zeta iota in E.
         rewrite (rdataWrite_ok above) in E by exact Hfa. cbn [snd] in E.
         eexists. split; [exact E|]. cbn [VirtualFree log mem calls hd].
         split; [now apply load64_store64_same|]. split; [|reflexivity].
         apply load64_store64_sep. unfold sep in *. lia. }
  assert (Fam : (T = U -> 0 <= X < 2 ^ 64 -> c = X) /\
                (T = EntryHook -> U = HookLayout -> 24 <= X < 2 ^ 64 -> c = X - 24) /\
                (T = HookLayout -> U = EntryHook -> 0 <= X /\ X + 24 < 2 ^ 64 -> c = X + 24)).
  { subst c. repeat split.
    - intros -> HX. replace (X + sizeof_data U - sizeof_data U) with X by lia.
      now apply PEFacts.wrap64_small.
    - intros -> -> HX. cbn [sizeof_data HookLayout EntryHook].
      replace (X + 56 - 80) with (X - 24) by lia. apply PEFacts.wrap64_small. lia.
    - intros -> -> HX. cbn [sizeof_data HookLayout EntryHook].
      replace (X + 80 - 56) with (X + 24) by lia. apply PEFacts.wrap64_small. lia. }
  pose proof (data_size T OK) as Hd.
  destruct (page_value T OK A HA) as [HAv HAb].
  assert (Ec : wrap64 (load64 (mem w) S - sizeof_data T) = c) by (now rewrite He).
  destruct (Z.eq_dec (load64 (mem w) c) (magic T)) as [Hm|Hm].
  - eexists. split.
    { rewrite (hook_setup T A S function rest w Hp HA V idx ES).
      rewrite (link_chained T OK A S function rest w HA HS c Ec Hc1 Hc2 Hm).
      rewrite (rdataWrite_ok (c + off_previous T)) by apply Hf. cbn [snd].
      rewrite (rdataWrite_ok S) by apply Hf. cbn [snd]. reflexivity. }
    unfold get_magic, get_previous. cbn [log mem].
    split.
    { rewrite !(load64_store64_sep);
        [now apply setup_magic | apply outside_base; assumption | apply outside_base; assumption]. }
    split; [now apply load64_store64_same|].
    split; [|split; [intros Hn; contradiction | exact Fam]].
    intros _. rewrite load64_store64_sep by (now apply sep_sym).
    now apply load64_store64_same.
  - rewrite <- Ec in Hc1, Hm.
    eexists. split.
    { apply (install_alone T OK A S function rest w Hp HA HS Hc1 Hm V idx ES (Hf S)). }
    unfold get_magic, get_previous. cbn [mem].
    split; [now apply alone_magic|].
    split; [now apply alone_slot|].
    split; [intros E; rewrite Ec in Hm; contradiction|].
    split; [|exact Fam].
    intros _. pose proof (previous_field T OK) as Fp. split.
    + rewrite (alone_inside T OK A S function w HS) by lia.
      apply setup_previous; [exact OK | exact HA | lia].
    + apply (alone_frame T OK A S function w HA); assumption.
Qed.


(** *** The theorems at the sample world *)

Ltac ground_wrap :=
  repeat match goal with
         | |- context [wrap64 ?x] =>
             let v := eval vm_compute in (wrap64 x) in
             replace (wrap64 x) with v by (vm_compute; reflexivity)
         end.

Ltac side :=
  first [ reflexivity
        | lia
        | solve [unfold page, page_size; split; [lia | reflexivity]]
        | solve [unfold outside, sep, page_size; ground_wrap; cbn; lia]
        | solve [vm_compute; reflexivity]
        | solve [vm_compute; intros H; discriminate H]
        | solve [intros x; reflexivity] ].

Definition sample_classes : gmap string RTTIScanner.RTTI :=
  {[ "CS::PlayerIns"%string :=
       {| RTTIScanner.pVirtualFunctionTable := 0x12000;
          RTTIScanner.pCompleteObjectLocator := 0x12F00;
          RTTIScanner.pTypeDescriptor := 0x13000;
          RTTIScanner.pClassHierarchyDescriptor := 0x12F20;
          RTTIScanner.pBaseClassDescriptor := 0x12F40 |} ]}.

Lemma sample_unhooked : chain HookLayout sample_world 0x120A0 0x11000 [].
Proof.
  constructor.
  - lia.
  - constructor.
  - constructor.
  - constructor.
  - constructor.
  - side.
  - vm_compute. intros H. discriminate H.
  - intros x. reflexivity.
  - cbn [linked]. vm_compute. reflexivity.
Defined.

(** C9, as stated, fails.  The class [Nope] is in no map, and the
    constructor returns the handle it also returns for a class that is in
    the map when [VirtualAlloc] has no page to give: no value read off the
    handle is [ClassNotFound] for the one and something else for the
    other. *)
Lemma install_by_name_silent_counterexample :
  let missing := new_hook_by_name HookLayout ∅ "Nope" 0 0x15000 sample_world in
  let refused := new_hook_by_name HookLayout sample_classes "CS::PlayerIns" 20 0x15000
                   (without_pages sample_world) in
  (∅ : gmap string RTTIScanner.RTTI) !! "Nope"%string = None /\
  sample_classes !! "CS::PlayerIns"%string <> None /\
  fst missing = 0 /\ fst refused = 0 /\
  calls (snd refused) = [Alloc 0] /\
  (forall (E : Type) (error_of : Z -> E), error_of (fst missing) = error_of (fst refused)).
Proof.
  cbv zeta. split; [reflexivity|]. split; [vm_compute; intros H; discriminate H|].
  split; [reflexivity|]. split; [vm_compute; reflexivity|]. split; [vm_compute; reflexivity|].
  intros E error_of. apply f_equal. vm_compute. reflexivity.
Qed.

Lemma install_by_name_absent_witness :
  (∅ : gmap string RTTIScanner.RTTI) !! "Nope"%string = None /\
  new_hook_by_name HookLayout ∅ "Nope" 0 0x15000 sample_world = (0, sample_world) /\
  destroy HookLayout 1
    (fst (new_hook_by_name HookLayout ∅ "Nope" 0 0x15000 sample_world)) sample_world
  = Some sample_world /\
  fst (new_hook_by_name HookLayout sample_classes "CS::PlayerIns" 20 0x15000
         (without_pages sample_world))
  = fst (new_hook_by_name HookLayout ∅ "Nope" 0 0x15000 sample_world).
Proof.
  assert (H0 : (∅ : gmap string RTTIScanner.RTTI) !! "Nope"%string = None) by reflexivity.
  split; [exact H0|].
  destruct (install_by_name_absent HookLayout ∅ "Nope" 0 0x15000 sample_world 1 H0)
    as (E1 & E2 & E3).
  split; [exact E1|]. split; [exact E2|].
  apply E3. reflexivity.
Defined.

Lemma install_by_name_postcondition_witness :
  exists w',
    new_hook_by_name HookLayout sample_classes "CS::PlayerIns" 20 0x15000 sample_world
      = (0x20000, w') /\
    load64 (mem w') (0x12000 + 8 * 20) = 0x20000 + sizeof_data HookLayout /\
    0x20000 + sizeof_data HookLayout <> 0 /\
    sizeof_data HookLayout = 56 /\
    read (mem w') (0x20000 + sizeof_data HookLayout) 114 = asmRaw HookLayout /\
    get_fnNew HookLayout w' 0x20000 = 0x15000 /\
    get_fnHooked HookLayout w' 0x20000 = 0x11000 /\
    get_previous HookLayout w' 0x20000 = 0x12000 + 8 * 20.
Proof.
  apply (install_by_name_postcondition sample_classes "CS::PlayerIns"
           {| RTTIScanner.pVirtualFunctionTable := 0x12000;
              RTTIScanner.pCompleteObjectLocator := 0x12F00;
              RTTIScanner.pTypeDescriptor := 0x13000;
              RTTIScanner.pClassHierarchyDescriptor := 0x12F20;
              RTTIScanner.pBaseClassDescriptor := 0x12F40 |}
           0x12000 0x11000 0x15000 0x20000 [0x30000; 0x40000] sample_world); side.
Defined.

Lemma chain_install_uninstall_symmetry_witness :
  exists w1 w2 w3,
    new_hook HookLayout 0x12000 20 0x15000 sample_world = (0x20000, w1) /\
    new_hook HookLayout 0x12000 20 0x16000 w1 = (0x30000, w2) /\
    new_hook HookLayout 0x12000 20 0x17000 w2 = (0x40000, w3) /\
    load64 (mem w3) 0x120A0 = 0x40000 + 56 /\
    (forall order, Permutation order [0x20000; 0x30000; 0x40000] ->
       exists w', destroy_all HookLayout 3 order w3 = Some w' /\
                  load64 (mem w') 0x120A0 = 0x11000) /\
    (exists w', destroy HookLayout 3 0x30000 w3 = Some w' /\
                chain HookLayout w' 0x120A0 0x11000 [0x40000; 0x20000] /\
                load64 (mem w') 0x120A0 = 0x40000 + 56 /\
                get_magic w' 0x40000 = magic HookLayout /\
                get_previous HookLayout w' 0x40000 = 0x120A0 /\
                get_fnHooked HookLayout w' 0x40000 = 0x20000 + 56 /\
                get_magic w' 0x20000 = magic HookLayout /\
                get_previous HookLayout w' 0x20000 = 0x40000 /\
                get_fnHooked HookLayout w' 0x20000 = 0x11000).
Proof.
  apply (chain_install_uninstall_symmetry sample_world 0x12000 20 0x120A0 0x11000
           0x15000 0x16000 0x17000 0x20000 0x30000 0x40000 [] 3).
  - exact sample_unhooked.
  - reflexivity.
  - reflexivity.
  - repeat constructor; side.
  - repeat constructor; cbn [In]; intros H; repeat (destruct H as [H|H]; [discriminate H|]);
      exact H.
  - repeat constructor; side.
  - repeat constructor; side.
  - lia.
  - lia.
  - lia.
  - lia.
Defined.


(** An [EntryHook] installed over a [VFTHook] at 0x20000 in the sample
    world: the candidate is 0x20000 - 24, which holds no magic, and the
    two hooks do not link.  The destructor of the [EntryHook] then finds
    the slot above it and gives it the trampoline of the [VFTHook]
    back. *)
Lemma membership_test_uses_own_layout_witness :
  let w := snd (new_hook HookLayout 0x12000 20 0x15000 sample_world) in
  (exists w',
     hook EntryHook 0x12000 20 0x16000 w = (0x30000, w') /\
     get_magic w' 0x30000 = magic EntryHook /\
     load64 (mem w') 0x120A0 = 0x30000 + sizeof_data EntryHook /\
     (load64 (mem w) (wrap64 (0x20000 + sizeof_data HookLayout - sizeof_data EntryHook))
      = magic EntryHook ->
        load64 (mem w') (wrap64 (0x20000 + sizeof_data HookLayout - sizeof_data EntryHook)
                         + off_previous EntryHook) = 0x30000) /\
     (load64 (mem w) (wrap64 (0x20000 + sizeof_data HookLayout - sizeof_data EntryHook))
      <> magic EntryHook ->
        get_previous EntryHook w' 0x30000 = 0x120A0 /\
        load64 (mem w') (wrap64 (0x20000 + sizeof_data HookLayout - sizeof_data EntryHook)
                         + off_previous EntryHook)
        = load64 (mem w) (wrap64 (0x20000 + sizeof_data HookLayout - sizeof_data EntryHook)
                          + off_previous EntryHook)) /\
     wrap64 (0x20000 + sizeof_data HookLayout - sizeof_data EntryHook) = 0x20000 - 24) /\
  (exists w2,
     destroy EntryHook 1 0x30000 (snd (hook EntryHook 0x12000 20 0x16000 w)) = Some w2 /\
     load64 (mem w2) 0x120A0 = 0x20000 + 56 /\
     hd (Alloc 0) (calls w2) = Free 0x30000).
Proof.
  cbv zeta.
  assert (H : let w := snd (new_hook HookLayout 0x12000 20 0x15000 sample_world) in
              let candidate := wrap64 (0x20000 + sizeof_data HookLayout - sizeof_data EntryHook) in
              (exists w',
                 hook EntryHook 0x12000 20 0x16000 w = (0x30000, w') /\
                 get_magic w' 0x30000 = magic EntryHook /\
                 load64 (mem w') 0x120A0 = 0x30000 + sizeof_data EntryHook /\
                 (load64 (mem w) candidate = magic EntryHook ->
                    load64 (mem w') (candidate + off_previous EntryHook) = 0x30000) /\
                 (load64 (mem w) candidate <> magic EntryHook ->
                    get_previous EntryHook w' 0x30000 = 0x120A0 /\
                    load64 (mem w') (candidate + off_previous EntryHook)
                    = load64 (mem w) (candidate + off_previous EntryHook)) /\
                 (EntryHook = HookLayout -> 0 <= 0x20000 < 2 ^ 64 -> candidate = 0x20000) /\
                 (EntryHook = EntryHook -> HookLayout = HookLayout ->
                    24 <= 0x20000 < 2 ^ 64 -> candidate = 0x20000 - 24) /\
                 (EntryHook = HookLayout -> HookLayout = EntryHook ->
                    0 <= 0x20000 /\ 0x20000 + 24 < 2 ^ 64 -> candidate = 0x20000 + 24)) /\
              (forall (fuel : nat) (B : Z) (w0 : World) (above v below : Z),
                 B <> 0 -> get_magic w0 B = magic EntryHook ->
                 get_previous EntryHook w0 B = above -> get_fnHooked EntryHook w0 B = v ->
                 wrap64 (v - sizeof_data EntryHook) = below ->
                 frozen w0 above = false -> frozen w0 (below + off_previous EntryHook) = false ->
                 sep (below + off_previous EntryHook) B ->
                 sep (below + off_previous EntryHook) (B + off_fnHooked EntryHook) ->
                 sep (below + off_previous EntryHook) above ->
                 load64 (mem w0) above <> magic EntryHook ->
                 (1 <= fuel)%nat ->
                 exists w2,
                   destroy EntryHook fuel B w0 = Some w2 /\
                   load64 (mem w2) above = v /\
                   load64 (mem w2) (below + off_previous EntryHook)
                   = (if load64 (mem w0) below =? magic EntryHook then above
                      else load64 (mem w0) (below + off_previous EntryHook)) /\
                   hd (Alloc 0) (calls w2) = Free B)).
  { apply (membership_test_uses_own_layout EntryHook HookLayout
             (snd (new_hook HookLayout 0x12000 20 0x15000 sample_world))
             0x12000 20 0x120A0 0x20000 0x16000 0x30000 [0x40000] EntryHook_ok); side. }
  cbv zeta in H. destruct H as ((w' & E1 & E2 & E3 & E4 & E5 & _ & E6 & _) & HD).
  split.
  - exists w'.
    split; [exact E1|]. split; [exact E2|]. split; [exact E3|]. split; [exact E4|].
    split; [exact E5|].
    apply E6; [reflexivity | reflexivity | lia].
  - set (w0 := snd (hook EntryHook 0x12000 20 0x16000
                       (snd (new_hook HookLayout 0x12000 20 0x15000 sample_world)))).
    assert (H1 : get_magic w0 0x30000 = magic EntryHook) by (vm_compute; reflexivity).
    assert (H2 : get_previous EntryHook w0 0x30000 = 0x120A0) by (vm_compute; reflexivity).
    assert (H3 : get_fnHooked EntryHook w0 0x30000 = 0x20000 + 56) by (vm_compute; reflexivity).
    assert (H4 : wrap64 (0x20000 + 56 - sizeof_data EntryHook) = 0x20000 - 24) by reflexivity.
    assert (H5 : frozen w0 0x120A0 = false) by (vm_compute; reflexivity).
    assert (H6 : frozen w0 (0x20000 - 24 + off_previous EntryHook) = false)
      by (vm_compute; reflexivity).
    assert (H7 : load64 (mem w0) 0x120A0 <> magic EntryHook)
      by (vm_compute; intros H; discriminate H).
    destruct (HD 1%nat 0x30000 w0 0x120A0 (0x20000 + 56) (0x20000 - 24)) as (w2 & D1 & D2 & _ & D3);
      [ lia | exact H1 | exact H2 | exact H3 | exact H4 | exact H5 | exact H6
      | unfold sep; cbn; lia | unfold sep; cbn; lia | unfold sep; cbn; lia | exact H7 | lia | ].
    exists w2. split; [exact D1|]. split; [exact D2 | exact D3].
Defined.

End HookFacts.

(** ** More of PE.h: the forms that use the registered module *)

Module PEMembers.
Import Mem PEParser.

(** [ibo32::getProcessInfo]: the registered process info; when there is
    none, [setProcessInfo()] is called, and when that leaves none the
    function throws, which is the result [None]. *)
Definition getProcessInfo (os : option ProcessInfo) (st : state) : option ProcessInfo * state :=
  match pInfo st with
  | Some info => (Some info, st)
  | None =>
      let st := setProcessInfo os None st in
      (pInfo st, st)
  end.

(** [ibo32::ibo32(T* address)]. *)
Definition ibo32_of (os : option ProcessInfo) (address : Z) (st : state) : option Z * state :=
  match getProcessInfo os st with
  | (Some info, st) => (Some (ibo32 address (lpBaseOfDll info)), st)
  | (None, st) => (None, st)
  end.

(** [ibo32::as<T>()]. *)
Definition as_pointer (os : option ProcessInfo) (val : Z) (st : state) : option Z * state :=
  match getProcessInfo os st with
  | (Some info, st) => (Some (as_ val (lpBaseOfDll info)), st)
  | (None, st) => (None, st)
  end.

(** [PEParser::getSectionsWithName(name)], the member function. *)
Definition getSectionsWithName (nm : string) (st : state) : option (list PESection) :=
  match sectionMap st with
  | None => None
  | Some sm => PEParser.getSectionsWithName nm sm
  end.

(** [PEParser::isIbo32InSection(ibo, name)]: the result of
    [getSectionsWithName] is dereferenced as it is; [None] when it is null. *)
Definition isIbo32InSection (ibo : Z) (nm : string) (st : state) : option bool :=
  match getSectionsWithName nm st with
  | None => None
  | Some sections => Some (PEParser.isIbo32InSection ibo sections)
  end.

End PEMembers.

(** ** A sample module *)

Module Demo.
Import Mem PEParser.

(** A module mapped at 0x140000000 with four sections, [.text], [.rdata],
    [.data] and a second [.text]; its section table is at offset 0x188.
    [.rdata] holds, from its second slot on, the pointer to the locator of
    a class and the vtable of the class, whose slot 20 enters the function
    at offset 0x1100; [.text] holds at offset 0x1008 a [lea rax, [rip + d]]
    that takes the address of that vtable, followed by [mov [rcx], rax]. *)
Definition base : Z := 0x140000000.

Definition module : ProcessInfo := {| lpBaseOfDll := base; SizeOfImage := 0x5000 |}.

Definition header (m : memory) (a : Z) (nm : list Z) (vsize vaddr : Z) : memory :=
  let m := write m a nm in
  let m := write m (a + 0x08) (encode 4 vsize) in
  write m (a + 0x0C) (encode 4 vaddr).

Definition image : memory :=
  let m := write (fun _ => 0) base [0x4D; 0x5A] in
  let m := write m (base + 0x3C) (encode 4 0x80) in
  let m := write m (base + 0x80) [0x50; 0x45; 0; 0] in
  let m := write m (base + 0x86) (encode 2 4) in
  let m := write m (base + 0x94) (encode 2 0xF0) in
  let m := header m (base + 0x188) [46; 116; 101; 120; 116] 0x1000 0x1000 in
  let m := header m (base + 0x1B0) [46; 114; 100; 97; 116; 97] 0x1000 0x2000 in
  let m := header m (base + 0x1D8) [46; 100; 97; 116; 97] 0x1000 0x3000 in
  let m := header m (base + 0x200) [46; 116; 101; 120; 116] 0x800 0x4000 in
  (* the constructor: lea rax, [rip + 0x1001]; mov [rcx], rax *)
  let m := write m (base + 0x1008) [0x48; 0x8D; 0x05; 0x01; 0x10; 0; 0; 0x48; 0x89; 0x01] in
  (* pointer to the locator, then the vtable *)
  let m := store64 m (base + 0x2008) (base + 0x2100) in
  let m := store64 m (base + 0x2010) (base + 0x1000) in
  let m := store64 m (base + 0x2010 + 8 * 20) (base + 0x1100) in
  (* the locator: signature, type descriptor, class hierarchy descriptor *)
  let m := write m (base + 0x2100) (encode 4 1) in
  let m := write m (base + 0x2100 + 12) (encode 4 0x3000) in
  let m := write m (base + 0x2100 + 16) (encode 4 0x2120) in
  let m := write m (base + 0x2120 + 12) (encode 4 0x2140) in
  (* the decorated name of the type descriptor *)
  write m (base + 0x3000 + 16) [46; 63; 65; 86; 80; 108; 97; 121; 101; 114; 73; 110; 115; 64; 67; 83; 64; 64].

(** What [UnDecorateSymbolName] makes of the one decorated name of the module. *)
Definition undecorate (m : memory) (a : Z) : option string :=
  match c_str 64 m a with
  | Some s => if String.eqb s "?AVPlayerIns@CS@@" then Some "CS::PlayerIns"%string else None
  | None => None
  end.

End Demo.

(** ** HookTemplates.h: the hook templates *)

Module HookTemplates.
Import Mem VFTHook.

(** A hook type of HookTemplates.h: [HookData], eighty bytes, then the
    trampoline, given one instruction after the other; [pad] is the number
    of bytes of the array that the initialiser leaves to zero, and the
    size of the object is rounded up to its alignment, 8. *)
Definition template (code : list (list Z)) (pad : nat) : HookType := {|
  magic := 0x6B6F6F48696E55;
  sizeof_data := 80;
  off_mutex := 16;
  off_context := Some 32;
  off_previous := 48;
  off_fnNew := 56;
  off_fnHooked := 64;
  asmRaw := concat code ++ repeat 0 pad;
  sizeof_hook := (80 + Z.of_nat (length (concat code) + pad) + 7) / 8 * 8
|}.

(** The instructions of [HookLayout::asmRaw], 114 bytes. *)
Definition HookLayout_code : list (list Z) := [
  [0x48; 0x8D; 0x44; 0x24; 0xA0];                             (* lea    rax,[rsp-0x60] *)
  [0x24; 0xF0];                                               (* and    al,0xF0 *)
  [0x0F; 0x29; 0x40; 0x50];                                   (* movaps [rax+0x50],xmm0 *)
  [0x0F; 0x29; 0x48; 0x40];                                   (* movaps [rax+0x40],xmm1 *)
  [0x0F; 0x29; 0x50; 0x30];                                   (* movaps [rax+0x30],xmm2 *)
  [0x0F; 0x29; 0x58; 0x20];                                   (* movaps [rax+0x20],xmm3 *)
  [0x0F; 0x29; 0x60; 0x10];                                   (* movaps [rax+0x10],xmm4 *)
  [0x0F; 0x29; 0x28];                                         (* movaps [rax],xmm5 *)
  [0x48; 0x89; 0x60; 0xF0];                                   (* mov    [rax-0x10],rsp *)
  [0x48; 0x89; 0x48; 0xE8];                                   (* mov    [rax-0x18],rcx *)
  [0x48; 0x89; 0x50; 0xE0];                                   (* mov    [rax-0x20],rdx *)
  [0x4C; 0x89; 0x40; 0xD8];                                   (* mov    [rax-0x28],r8 *)
  [0x4C; 0x89; 0x48; 0xD0];                                   (* mov    [rax-0x30],r9 *)
  [0x48; 0x8D; 0x60; 0xB0];                                   (* lea    rsp,[rax-0x50] *)
  [0xFF; 0x15; 0xAC; 0xFF; 0xFF; 0xFF];                       (* call   [fnNew] *)
  [0x48; 0x8D; 0x44; 0x24; 0x50];                             (* lea    rax,[rsp+0x50] *)
  [0x4C; 0x8B; 0x48; 0xD0];                                   (* mov    r9,[rax-0x30] *)
  [0x4C; 0x8B; 0x40; 0xD8];                                   (* mov    r8,[rax-0x28] *)
  [0x48; 0x8B; 0x50; 0xE0];                                   (* mov    rdx,[rax-0x20] *)
  [0x48; 0x8B; 0x48; 0xE8];                                   (* mov    rcx,[rax-0x18] *)
  [0x0F; 0x28; 0x28];                                         (* movaps xmm5,[rax] *)
  [0x0F; 0x28; 0x60; 0x10];                                   (* movaps xmm4,[rax+0x10] *)
  [0x0F; 0x28; 0x58; 0x20];                                   (* movaps xmm3,[rax+0x20] *)
  [0x0F; 0x28; 0x50; 0x30];                                   (* movaps xmm2,[rax+0x30] *)
  [0x0F; 0x28; 0x48; 0x40];                                   (* movaps xmm1,[rax+0x40] *)
  [0x0F; 0x28; 0x40; 0x50];                                   (* movaps xmm0,[rax+0x50] *)
  [0x48; 0x8B; 0x60; 0xF0];                                   (* mov    rsp,[rax-0x10] *)
  [0xFF; 0x25; 0x7E; 0xFF; 0xFF; 0xFF]                        (* jmp    [fnHooked] *)
].

(** The instructions of [EntryHook::asmRaw], 79 bytes. *)
Definition EntryHook_code : list (list Z) := [
  [0x4C; 0x8D; 0x15; 0xD1; 0xFF; 0xFF; 0xFF];                 (* lea    r10,[context] *)
  [0x49; 0x8B; 0x02];                                         (* mov    rax,[context] *)
  [0x48; 0x89; 0x48; 0x10];                                   (* mov    [reg64_rcx],rcx *)
  [0x48; 0x89; 0x50; 0x18];                                   (* mov    [reg64_rdx],rdx *)
  [0x4C; 0x89; 0x40; 0x40];                                   (* mov    [reg64_r8],r8 *)
  [0x4C; 0x89; 0x48; 0x48];                                   (* mov    [reg64_r9],r9 *)
  [0x49; 0x8D; 0x42; 0x54];                                   (* lea    rax,[new_return] *)
  [0x48; 0x87; 0x04; 0x24];                                   (* xchg   [old_return],rax *)
  [0x49; 0x89; 0x42; 0x20];                                   (* mov    [extra],rax *)
  [0xFF; 0x25; 0xBC; 0xFF; 0xFF; 0xFF];                       (* jmp    [fnNew] *)
  [0x4C; 0x8B; 0x15; 0xA5; 0xFF; 0xFF; 0xFF];                 (* mov    r10,[context] <- new_return *)
  [0x49; 0x8B; 0x4A; 0x10];                                   (* mov    rcx,[reg64_rcx] *)
  [0x49; 0x8B; 0x52; 0x18];                                   (* mov    rdx,[reg64_rdx] *)
  [0x4D; 0x8B; 0x42; 0x40];                                   (* mov    r8,[reg64_r8] *)
  [0x4D; 0x8B; 0x4A; 0x48];                                   (* mov    r9,[reg64_r9] *)
  [0xFF; 0x35; 0xAF; 0xFF; 0xFF; 0xFF];                       (* push   [extra] *)
  [0xFF; 0x25; 0xA1; 0xFF; 0xFF; 0xFF]                        (* jmp    [fnHooked] *)
].

(** The instructions of [ExitHook::asmRaw], 92 bytes. *)
Definition ExitHook_code : list (list Z) := [
  [0x4C; 0x8D; 0x15; 0xD1; 0xFF; 0xFF; 0xFF];                 (* lea    r10,[context] *)
  [0x49; 0x8B; 0x02];                                         (* mov    rax,[context] *)
  [0x48; 0x89; 0x48; 0x10];                                   (* mov    [reg64_rcx],rcx *)
  [0x48; 0x89; 0x50; 0x18];                                   (* mov    [reg64_rdx],rdx *)
  [0x4C; 0x89; 0x40; 0x40];                                   (* mov    [reg64_r8],r8 *)
  [0x4C; 0x89; 0x48; 0x48];                                   (* mov    [reg64_r9],r9 *)
  [0x49; 0x8D; 0x42; 0x54];                                   (* lea    rax,[new_return] *)
  [0x48; 0x87; 0x04; 0x24];                                   (* xchg   [old_return],rax *)
  [0x49; 0x89; 0x42; 0x20];                                   (* mov    [extra],rax *)
  [0xFF; 0x25; 0xC4; 0xFF; 0xFF; 0xFF];                       (* jmp    [fnHooked] *)
  [0x4C; 0x8B; 0x15; 0xA5; 0xFF; 0xFF; 0xFF];                 (* mov    r10,[context] <- new_return *)
  [0x49; 0x89; 0x02];                                         (* mov    [reg64_rax],rax *)
  [0x49; 0x8B; 0x4A; 0x10];                                   (* mov    rcx,[reg64_rcx] *)
  [0x49; 0x8B; 0x52; 0x18];                                   (* mov    rdx,[reg64_rdx] *)
  [0x4D; 0x8B; 0x42; 0x40];                                   (* mov    r8,[reg64_r8] *)
  [0x4D; 0x8B; 0x4A; 0x48];                                   (* mov    r9,[reg64_r9] *)
  [0xFF; 0x15; 0x9C; 0xFF; 0xFF; 0xFF];                       (* call   [fnNew] *)
  [0x48; 0x8B; 0x05; 0x85; 0xFF; 0xFF; 0xFF];                 (* mov    rax,[context] *)
  [0x48; 0x8B; 0x00];                                         (* mov    rax,[reg64_rax] *)
  [0xFF; 0x25; 0x9C; 0xFF; 0xFF; 0xFF]                        (* jmp    [extra] *)
].

Definition ExitHook : HookType := template ExitHook_code 0.

(** The instructions of [ReturnHook::asmRaw], 79 bytes. *)
Definition ReturnHook_code : list (list Z) := [
  [0x4C; 0x8D; 0x15; 0xD1; 0xFF; 0xFF; 0xFF];                 (* lea    r10,[context] *)
  [0x49; 0x8B; 0x02];                                         (* mov    rax,[context] *)
  [0x48; 0x89; 0x48; 0x10];                                   (* mov    [reg64_rcx],rcx *)
  [0x48; 0x89; 0x50; 0x18];                                   (* mov    [reg64_rdx],rdx *)
  [0x4C; 0x89; 0x40; 0x40];                                   (* mov    [reg64_r8],r8 *)
  [0x4C; 0x89; 0x48; 0x48];                                   (* mov    [reg64_r9],r9 *)
  [0x49; 0x8D; 0x42; 0x54];                                   (* lea    rax,[new_return] *)
  [0x48; 0x87; 0x04; 0x24];                                   (* xchg   [old_return],rax *)
  [0x49; 0x89; 0x42; 0x20];                                   (* mov    [extra],rax *)
  [0xFF; 0x25; 0xC4; 0xFF; 0xFF; 0xFF];                       (* jmp    [fnHooked] *)
  [0x4C; 0x8B; 0x15; 0xA5; 0xFF; 0xFF; 0xFF];                 (* mov    r10,[context] <- new_return *)
  [0x49; 0x8B; 0x4A; 0x10];                                   (* mov    rcx,[reg64_rcx] *)
  [0x49; 0x8B; 0x52; 0x18];                                   (* mov    rdx,[reg64_rdx] *)
  [0x4D; 0x8B; 0x42; 0x40];                                   (* mov    r8,[reg64_r8] *)
  [0x4D; 0x8B; 0x4A; 0x48];                                   (* mov    r9,[reg64_r9] *)
  [0xFF; 0x35; 0xAF; 0xFF; 0xFF; 0xFF];                       (* push   [extra] *)
  [0xFF; 0x25; 0x99; 0xFF; 0xFF; 0xFF]                        (* jmp    [fnNew] *)
].

Definition ReturnHook : HookType := template ReturnHook_code 0.

(** The instructions of [ContextHook::asmRaw], 168 bytes. *)
Definition ContextHook_code : list (list Z) := [
  [0x50];                                                     (* push   rax *)
  [0x48; 0x8B; 0x05; 0xD0; 0xFF; 0xFF; 0xFF];                 (* mov    rax,[context] *)
  [0x8F; 0x00];                                               (* pop    [reg64_rax] *)
  [0x48; 0x89; 0x58; 0x08];                                   (* mov    [reg64_rbx],rbx *)
  [0x48; 0x89; 0x48; 0x10];                                   (* mov    [reg64_rcx],rcx *)
  [0x48; 0x89; 0x50; 0x18];                                   (* mov    [reg64_rdx],rdx *)
  [0x48; 0x89; 0x60; 0x20];                                   (* mov    [reg64_rsp],rsp *)
  [0x48; 0x89; 0x68; 0x28];                                   (* mov    [reg64_rbp],rbp *)
  [0x48; 0x89; 0x70; 0x30];                                   (* mov    [reg64_rsi],rsi *)
  [0x48; 0x89; 0x78; 0x38];                                   (* mov    [reg64_rdi],rdi *)
  [0x4C; 0x89; 0x40; 0x40];                                   (* mov    [reg64_r8],r8 *)
  [0x4C; 0x89; 0x48; 0x48];                                   (* mov    [reg64_r9],r9 *)
  [0x4C; 0x89; 0x50; 0x50];                                   (* mov    [reg64_r10],r10 *)
  [0x4C; 0x89; 0x58; 0x58];                                   (* mov    [reg64_r11],r11 *)
  [0x4C; 0x89; 0x60; 0x60];                                   (* mov    [reg64_r12],r12 *)
  [0x4C; 0x89; 0x68; 0x68];                                   (* mov    [reg64_r13],r13 *)
  [0x4C; 0x89; 0x70; 0x70];                                   (* mov    [reg64_r14],r14 *)
  [0x4C; 0x89; 0x78; 0x78];                                   (* mov    [reg64_r15],r15 *)
  [0x48; 0x89; 0xC1];                                         (* mov    rcx,rax *)
  [0x48; 0x8D; 0x05; 0x11; 0x00; 0x00; 0x00];                 (* lea    rax,[new_return] *)
  [0x48; 0x87; 0x04; 0x24];                                   (* xchg   [old_return],rax *)
  [0x48; 0x87; 0x05; 0x9D; 0xFF; 0xFF; 0xFF];                 (* xchg   [extra],rax *)
  [0xFF; 0x25; 0x87; 0xFF; 0xFF; 0xFF];                       (* jmp    [fnNew] *)
  [0x48; 0x8B; 0x05; 0x70; 0xFF; 0xFF; 0xFF];                 (* mov    rax,[context] *)
  [0x48; 0x8B; 0x58; 0x08];                                   (* mov    rbx,[reg64_rbx] *)
  [0x48; 0x8B; 0x48; 0x10];                                   (* mov    rcx,[reg64_rcx] *)
  [0x48; 0x8B; 0x50; 0x18];                                   (* mov    rdx,[reg64_rdx] *)
  [0x48; 0x8B; 0x68; 0x28];                                   (* mov    rbp,[reg64_rbp] *)
  [0x48; 0x8B; 0x70; 0x30];                                   (* mov    rsi,[reg64_rsi] *)
  [0x48; 0x8B; 0x78; 0x38];                                   (* mov    rdi,[reg64_rdi] *)
  [0x4C; 0x8B; 0x40; 0x40];                                   (* mov    r8,[reg64_r8] *)
  [0x4C; 0x8B; 0x48; 0x48];                                   (* mov    r9,[reg64_r9] *)
  [0x4C; 0x8B; 0x60; 0x60];                                   (* mov    r12,[reg64_r12] *)
  [0x4C; 0x8B; 0x68; 0x68];                                   (* mov    r13,[reg64_r13] *)
  [0x4C; 0x8B; 0x70; 0x70];                                   (* mov    r14,[reg64_r14] *)
  [0x4C; 0x8B; 0x78; 0x78];                                   (* mov    r15,[reg64_r15] *)
  [0xFF; 0x35; 0x5A; 0xFF; 0xFF; 0xFF];                       (* push   [extra] *)
  [0xFF; 0x25; 0x4C; 0xFF; 0xFF; 0xFF]                        (* jmp    [fnHooked] *)
].

Definition ContextHook : HookType := template ContextHook_code 4.

(** The instructions of [EntryHookV::asmRaw], 163 bytes. *)
Definition EntryHookV_code : list (list Z) := [
  [0x4C; 0x8D; 0x15; 0xD1; 0xFF; 0xFF; 0xFF];                 (* lea    r10,[context] *)
  [0x49; 0x8B; 0x02];                                         (* mov    rax,[context] *)
  [0x48; 0x89; 0x48; 0x10];                                   (* mov    [reg64_rcx],rcx *)
  [0x48; 0x89; 0x50; 0x18];                                   (* mov    [reg64_rdx],rdx *)
  [0x4C; 0x89; 0x40; 0x40];                                   (* mov    [reg64_r8],r8 *)
  [0x4C; 0x89; 0x48; 0x48];                                   (* mov    [reg64_r9],r9 *)
  [0x0F; 0x29; 0x80; 0x80; 0x00; 0x00; 0x00];                 (* movaps [imm256_xmm0],xmm0 *)
  [0x0F; 0x29; 0x88; 0xA0; 0x00; 0x00; 0x00];                 (* movaps [imm256_xmm1],xmm1 *)
  [0x0F; 0x29; 0x90; 0xC0; 0x00; 0x00; 0x00];                 (* movaps [imm256_xmm2],xmm2 *)
  [0x0F; 0x29; 0x98; 0xE0; 0x00; 0x00; 0x00];                 (* movaps [imm256_xmm3],xmm3 *)
  [0x0F; 0x29; 0xA0; 0x00; 0x01; 0x00; 0x00];                 (* movaps [imm256_xmm4],xmm4 *)
  [0x0F; 0x29; 0xA8; 0x20; 0x01; 0x00; 0x00];                 (* movaps [imm256_xmm5],xmm5 *)
  [0x49; 0x8D; 0x42; 0x7E];                                   (* lea    rax,[new_return] *)
  [0x48; 0x87; 0x04; 0x24];                                   (* xchg   [old_return],rax *)
  [0x49; 0x89; 0x42; 0x20];                                   (* mov    [extra],rax *)
  [0xFF; 0x25; 0x92; 0xFF; 0xFF; 0xFF];                       (* jmp    [fnNew] *)
  [0x48; 0x8B; 0x05; 0x7B; 0xFF; 0xFF; 0xFF];                 (* mov    rax,[context] <- new_return *)
  [0x48; 0x8B; 0x48; 0x10];                                   (* mov    rcx,[reg64_rcx] *)
  [0x48; 0x8B; 0x50; 0x18];                                   (* mov    rdx,[reg64_rdx] *)
  [0x4C; 0x8B; 0x40; 0x40];                                   (* mov    r8,[reg64_r8] *)
  [0x4C; 0x8B; 0x48; 0x48];                                   (* mov    r9,[reg64_r9] *)
  [0x0F; 0x28; 0x80; 0x80; 0x00; 0x00; 0x00];                 (* movaps xmm0,[imm256_xmm0] *)
  [0x0F; 0x28; 0x88; 0xA0; 0x00; 0x00; 0x00];                 (* movaps xmm1,[imm256_xmm1] *)
  [0x0F; 0x28; 0x90; 0xC0; 0x00; 0x00; 0x00];                 (* movaps xmm2,[imm256_xmm2] *)
  [0x0F; 0x28; 0x98; 0xE0; 0x00; 0x00; 0x00];                 (* movaps xmm3,[imm256_xmm3] *)
  [0x0F; 0x28; 0xA0; 0x00; 0x01; 0x00; 0x00];                 (* movaps xmm4,[imm256_xmm4] *)
  [0x0F; 0x28; 0xA8; 0x20; 0x01; 0x00; 0x00];                 (* movaps xmm5,[imm256_xmm5] *)
  [0xFF; 0x35; 0x5B; 0xFF; 0xFF; 0xFF];                       (* push   [extra] *)
  [0xFF; 0x25; 0x4D; 0xFF; 0xFF; 0xFF]                        (* jmp    [fnHooked] *)
].

Definition EntryHookV : HookType := template EntryHookV_code 0.

(** The instructions of [ExitHookV::asmRaw], 235 bytes. *)
Definition ExitHookV_code : list (list Z) := [
  [0x4C; 0x8D; 0x15; 0xD1; 0xFF; 0xFF; 0xFF];                 (* lea    r10,[context] *)
  [0x49; 0x8B; 0x02];                                         (* mov    rax,[context] *)
  [0x48; 0x89; 0x48; 0x10];                                   (* mov    [reg64_rcx],rcx *)
  [0x48; 0x89; 0x50; 0x18];                                   (* mov    [reg64_rdx],rdx *)
  [0x4C; 0x89; 0x40; 0x40];                                   (* mov    [reg64_r8],r8 *)
  [0x4C; 0x89; 0x48; 0x48];                                   (* mov    [reg64_r9],r9 *)
  [0x0F; 0x29; 0x80; 0x80; 0x00; 0x00; 0x00];                 (* movaps [imm256_xmm0],xmm0 *)
  [0x0F; 0x29; 0x88; 0xA0; 0x00; 0x00; 0x00];                 (* movaps [imm256_xmm1],xmm1 *)
  [0x0F; 0x29; 0x90; 0xC0; 0x00; 0x00; 0x00];                 (* movaps [imm256_xmm2],xmm2 *)
  [0x0F; 0x29; 0x98; 0xE0; 0x00; 0x00; 0x00];                 (* movaps [imm256_xmm3],xmm3 *)
  [0x0F; 0x29; 0xA0; 0x00; 0x01; 0x00; 0x00];                 (* movaps [imm256_xmm4],xmm4 *)
  [0x0F; 0x29; 0xA8; 0x20; 0x01; 0x00; 0x00];                 (* movaps [imm256_xmm5],xmm5 *)
  [0x49; 0x8D; 0x42; 0x7E];                                   (* lea    rax,[new_return] *)
  [0x48; 0x87; 0x04; 0x24];                                   (* xchg   [old_return],rax *)
  [0x49; 0x89; 0x42; 0x20];                                   (* mov    [extra],rax *)
  [0xFF; 0x25; 0x9A; 0xFF; 0xFF; 0xFF];                       (* jmp    [fnHooked] *)
  [0x4C; 0x8B; 0x15; 0x7B; 0xFF; 0xFF; 0xFF];                 (* mov    r10,[context] <- new_return *)
  [0x49; 0x89; 0x02];                                         (* mov    [reg64_rax],rax *)
  [0x48; 0x8B; 0x48; 0x10];                                   (* mov    rcx,[reg64_rcx] *)
  [0x48; 0x8B; 0x50; 0x18];                                   (* mov    rdx,[reg64_rdx] *)
  [0x4C; 0x8B; 0x40; 0x40];                                   (* mov    r8,[reg64_r8] *)
  [0x4C; 0x8B; 0x48; 0x48];                                   (* mov    r9,[reg64_r9] *)
  [0x4C; 0x89; 0xD0];                                         (* mov    rax,r10 *)
  [0x0F; 0x29; 0x80; 0x40; 0x01; 0x00; 0x00];                 (* movaps [imm256_xmm6],xmm0 *)
  [0x0F; 0x29; 0x88; 0x60; 0x01; 0x00; 0x00];                 (* movaps [imm256_xmm7],xmm1 *)
  [0x0F; 0x29; 0x90; 0x80; 0x01; 0x00; 0x00];                 (* movaps [imm256_xmm8],xmm2 *)
  [0x0F; 0x29; 0x98; 0xA0; 0x01; 0x00; 0x00];                 (* movaps [imm256_xmm9],xmm3 *)
  [0x0F; 0x28; 0x80; 0x80; 0x00; 0x00; 0x00];                 (* movaps xmm0,[imm256_xmm0] *)
  [0x0F; 0x28; 0x88; 0xA0; 0x00; 0x00; 0x00];                 (* movaps xmm1,[imm256_xmm1] *)
  [0x0F; 0x28; 0x90; 0xC0; 0x00; 0x00; 0x00];                 (* movaps xmm2,[imm256_xmm2] *)
  [0x0F; 0x28; 0x98; 0xE0; 0x00; 0x00; 0x00];                 (* movaps xmm3,[imm256_xmm3] *)
  [0x0F; 0x28; 0xA0; 0x00; 0x01; 0x00; 0x00];                 (* movaps xmm4,[imm256_xmm4] *)
  [0x0F; 0x28; 0xA8; 0x20; 0x01; 0x00; 0x00];                 (* movaps xmm5,[imm256_xmm5] *)
  [0xFF; 0x15; 0x45; 0xFF; 0xFF; 0xFF];                       (* call   [fnNew] *)
  [0x48; 0x8B; 0x05; 0x12; 0xFF; 0xFF; 0xFF];                 (* mov    rax,[context] *)
  [0x0F; 0x28; 0x80; 0x40; 0x01; 0x00; 0x00];                 (* movaps xmm0,[imm256_xmm6] *)
  [0x0F; 0x28; 0x88; 0x60; 0x01; 0x00; 0x00];                 (* movaps xmm1,[imm256_xmm7] *)
  [0x0F; 0x28; 0x90; 0x80; 0x01; 0x00; 0x00];                 (* movaps xmm2,[imm256_xmm8] *)
  [0x0F; 0x28; 0x98; 0xA0; 0x01; 0x00; 0x00];                 (* movaps xmm3,[imm256_xmm9] *)
  [0x48; 0x8B; 0x00];                                         (* mov    rax,[reg64_rax] *)
  [0xFF; 0x25; 0x0D; 0xFF; 0xFF; 0xFF]                        (* jmp    [extra] *)
].

Definition ExitHookV : HookType := template ExitHookV_code 0.

(** The instructions of [ReturnHookV::asmRaw], 169 bytes. *)
Definition ReturnHookV_code : list (list Z) := [
  [0x4C; 0x8D; 0x15; 0xD1; 0xFF; 0xFF; 0xFF];                 (* lea    r10,[context] *)
  [0x49; 0x8B; 0x02];                                         (* mov    rax,[context] *)
  [0x48; 0x89; 0x48; 0x10];                                   (* mov    [reg64_rcx],rcx *)
  [0x48; 0x89; 0x50; 0x18];                                   (* mov    [reg64_rdx],rdx *)
  [0x4C; 0x89; 0x40; 0x40];                                   (* mov    [reg64_r8],r8 *)
  [0x4C; 0x89; 0x48; 0x48];                                   (* mov    [reg64_r9],r9 *)
  [0x0F; 0x29; 0x80; 0x80; 0x00; 0x00; 0x00];                 (* movaps [imm256_xmm0],xmm0 *)
  [0x0F; 0x29; 0x88; 0xA0; 0x00; 0x00; 0x00];                 (* movaps [imm256_xmm1],xmm1 *)
  [0x0F; 0x29; 0x90; 0xC0; 0x00; 0x00; 0x00];                 (* movaps [imm256_xmm2],xmm2 *)
  [0x0F; 0x29; 0x98; 0xE0; 0x00; 0x00; 0x00];                 (* movaps [imm256_xmm3],xmm3 *)
  [0x0F; 0x29; 0xA0; 0x00; 0x01; 0x00; 0x00];                 (* movaps [imm256_xmm4],xmm4 *)
  [0x0F; 0x29; 0xA8; 0x20; 0x01; 0x00; 0x00];                 (* movaps [imm256_xmm5],xmm5 *)
  [0x49; 0x8D; 0x42; 0x7E];                                   (* lea    rax,[new_return] *)
  [0x48; 0x87; 0x04; 0x24];                                   (* xchg   [old_return],rax *)
  [0x49; 0x89; 0x42; 0x20];                                   (* mov    [extra],rax *)
  [0xFF; 0x25; 0x9A; 0xFF; 0xFF; 0xFF];                       (* jmp    [fnHooked] *)
  [0x4C; 0x8B; 0x15; 0x7B; 0xFF; 0xFF; 0xFF];                 (* mov    r10,[context] <- new_return *)
  [0x49; 0x89; 0x02];                                         (* mov    [reg64_rax],rax *)
  [0x49; 0x8B; 0x4A; 0x10];                                   (* mov    rcx,[reg64_rcx] *)
  [0x49; 0x8B; 0x52; 0x18];                                   (* mov    rdx,[reg64_rdx] *)
  [0x4D; 0x8B; 0x42; 0x40];                                   (* mov    r8,[reg64_r8] *)
  [0x4D; 0x8B; 0x4A; 0x48];                                   (* mov    r9,[reg64_r9] *)
  [0x4C; 0x89; 0xD0];                                         (* mov    rax,r10 *)
  [0x0F; 0x28; 0x80; 0x80; 0x00; 0x00; 0x00];                 (* movaps xmm0,[imm256_xmm0] *)
  [0x0F; 0x28; 0x88; 0xA0; 0x00; 0x00; 0x00];                 (* movaps xmm1,[imm256_xmm1] *)
  [0x0F; 0x28; 0x90; 0xC0; 0x00; 0x00; 0x00];                 (* movaps xmm2,[imm256_xmm2] *)
  [0x0F; 0x28; 0x98; 0xE0; 0x00; 0x00; 0x00];                 (* movaps xmm3,[imm256_xmm3] *)
  [0x0F; 0x28; 0xA0; 0x00; 0x01; 0x00; 0x00];                 (* movaps xmm4,[imm256_xmm4] *)
  [0x0F; 0x28; 0xA8; 0x20; 0x01; 0x00; 0x00];                 (* movaps xmm5,[imm256_xmm5] *)
  [0xFF; 0x35; 0x55; 0xFF; 0xFF; 0xFF];                       (* push   [extra] *)
  [0xFF; 0x25; 0x3F; 0xFF; 0xFF; 0xFF]                        (* jmp    [fnNew] *)
].

Definition ReturnHookV : HookType := template ReturnHookV_code 0.

(** The instructions of [ContextHookV::asmRaw], 408 bytes. *)
Definition ContextHookV_code : list (list Z) := [
  [0x50];                                                     (* push   rax *)
  [0x48; 0x8B; 0x05; 0xD0; 0xFF; 0xFF; 0xFF];                 (* mov    rax,[context] *)
  [0x8F; 0x00];                                               (* pop    [reg64_rax] *)
  [0x48; 0x89; 0x58; 0x08];                                   (* mov    [reg64_rbx],rbx *)
  [0x48; 0x89; 0x48; 0x10];                                   (* mov    [reg64_rcx],rcx *)
  [0x48; 0x89; 0x50; 0x18];                                   (* mov    [reg64_rdx],rdx *)
  [0x48; 0x89; 0x60; 0x20];                                   (* mov    [reg64_rsp],rsp *)
  [0x48; 0x89; 0x68; 0x28];                                   (* mov    [reg64_rbp],rbp *)
  [0x48; 0x89; 0x70; 0x30];                                   (* mov    [reg64_rsi],rsi *)
  [0x48; 0x89; 0x78; 0x38];                                   (* mov    [reg64_rdi],rdi *)
  [0x4C; 0x89; 0x40; 0x40];                                   (* mov    [reg64_r8],r8 *)
  [0x4C; 0x89; 0x48; 0x48];                                   (* mov    [reg64_r9],r9 *)
  [0x4C; 0x89; 0x50; 0x50];                                   (* mov    [reg64_r10],r10 *)
  [0x4C; 0x89; 0x58; 0x58];                                   (* mov    [reg64_r11],r11 *)
  [0x4C; 0x89; 0x60; 0x60];                                   (* mov    [reg64_r12],r12 *)
  [0x4C; 0x89; 0x68; 0x68];                                   (* mov    [reg64_r13],r13 *)
  [0x4C; 0x89; 0x70; 0x70];                                   (* mov    [reg64_r14],r14 *)
  [0x4C; 0x89; 0x78; 0x78];                                   (* mov    [reg64_r15],r15 *)
  [0x0F; 0x29; 0x80; 0x80; 0x00; 0x00; 0x00];                 (* movaps [imm256_xmm0],xmm0 *)
  [0x0F; 0x29; 0x88; 0xA0; 0x00; 0x00; 0x00];                 (* movaps [imm256_xmm1],xmm1 *)
  [0x0F; 0x29; 0x90; 0xC0; 0x00; 0x00; 0x00];                 (* movaps [imm256_xmm2],xmm2 *)
  [0x0F; 0x29; 0x98; 0xE0; 0x00; 0x00; 0x00];                 (* movaps [imm256_xmm3],xmm3 *)
  [0x0F; 0x29; 0xA0; 0x00; 0x01; 0x00; 0x00];                 (* movaps [imm256_xmm4],xmm4 *)
  [0x0F; 0x29; 0xA8; 0x20; 0x01; 0x00; 0x00];                 (* movaps [imm256_xmm5],xmm5 *)
  [0x0F; 0x29; 0xB0; 0x40; 0x01; 0x00; 0x00];                 (* movaps [imm256_xmm6],xmm6 *)
  [0x0F; 0x29; 0xB8; 0x60; 0x01; 0x00; 0x00];                 (* movaps [imm256_xmm7],xmm7 *)
  [0x44; 0x0F; 0x29; 0x80; 0x80; 0x01; 0x00; 0x00];           (* movaps [imm256_xmm8],xmm8 *)
  [0x44; 0x0F; 0x29; 0x88; 0xA0; 0x01; 0x00; 0x00];           (* movaps [imm256_xmm9],xmm9 *)
  [0x44; 0x0F; 0x29; 0x90; 0xC0; 0x01; 0x00; 0x00];           (* movaps [imm256_xmm10],xmm10 *)
  [0x44; 0x0F; 0x29; 0x98; 0xE0; 0x01; 0x00; 0x00];           (* movaps [imm256_xmm11],xmm11 *)
  [0x44; 0x0F; 0x29; 0xA0; 0x00; 0x02; 0x00; 0x00];           (* movaps [imm256_xmm12],xmm12 *)
  [0x44; 0x0F; 0x29; 0xA8; 0x20; 0x02; 0x00; 0x00];           (* movaps [imm256_xmm13],xmm13 *)
  [0x44; 0x0F; 0x29; 0xB0; 0x40; 0x02; 0x00; 0x00];           (* movaps [imm256_xmm14],xmm14 *)
  [0x44; 0x0F; 0x29; 0xB8; 0x60; 0x02; 0x00; 0x00];           (* movaps [imm256_xmm15],xmm15 *)
  [0x48; 0x89; 0xC1];                                         (* mov    rcx,rax *)
  [0x48; 0x8D; 0x05; 0x11; 0x00; 0x00; 0x00];                 (* lea    rax,[new_return] *)
  [0x48; 0x87; 0x04; 0x24];                                   (* xchg   [old_return],rax *)
  [0x48; 0x87; 0x05; 0x25; 0xFF; 0xFF; 0xFF];                 (* xchg   [extra],rax *)
  [0xFF; 0x25; 0x0F; 0xFF; 0xFF; 0xFF];                       (* jmp    [fnNew] *)
  [0x48; 0x8B; 0x05; 0xF8; 0xFE; 0xFF; 0xFF];                 (* mov    rax,[context] *)
  [0x48; 0x8B; 0x58; 0x08];                                   (* mov    rbx,[reg64_rbx] *)
  [0x48; 0x8B; 0x48; 0x10];                                   (* mov    rcx,[reg64_rcx] *)
  [0x48; 0x8B; 0x50; 0x18];                                   (* mov    rdx,[reg64_rdx] *)
  [0x48; 0x8B; 0x68; 0x28];                                   (* mov    rbp,[reg64_rbp] *)
  [0x48; 0x8B; 0x70; 0x30];                                   (* mov    rsi,[reg64_rsi] *)
  [0x48; 0x8B; 0x78; 0x38];                                   (* mov    rdi,[reg64_rdi] *)
  [0x4C; 0x8B; 0x40; 0x40];                                   (* mov    r8,[reg64_r8] *)
  [0x4C; 0x8B; 0x48; 0x48];                                   (* mov    r9,[reg64_r9] *)
  [0x4C; 0x8B; 0x60; 0x60];                                   (* mov    r12,[reg64_r12] *)
  [0x4C; 0x8B; 0x68; 0x68];                                   (* mov    r13,[reg64_r13] *)
  [0x4C; 0x8B; 0x70; 0x70];                                   (* mov    r14,[reg64_r14] *)
  [0x4C; 0x8B; 0x78; 0x78];                                   (* mov    r15,[reg64_r15] *)
  [0x0F; 0x28; 0x80; 0x80; 0x00; 0x00; 0x00];                 (* movaps xmm0,[imm256_xmm0] *)
  [0x0F; 0x28; 0x88; 0xA0; 0x00; 0x00; 0x00];                 (* movaps xmm1,[imm256_xmm1] *)
  [0x0F; 0x28; 0x90; 0xC0; 0x00; 0x00; 0x00];                 (* movaps xmm2,[imm256_xmm2] *)
  [0x0F; 0x28; 0x98; 0xE0; 0x00; 0x00; 0x00];                 (* movaps xmm3,[imm256_xmm3] *)
  [0x0F; 0x28; 0xA0; 0x00; 0x01; 0x00; 0x00];                 (* movaps xmm4,[imm256_xmm4] *)
  [0x0F; 0x28; 0xA8; 0x20; 0x01; 0x00; 0x00];                 (* movaps xmm5,[imm256_xmm5] *)
  [0x0F; 0x28; 0xB0; 0x40; 0x01; 0x00; 0x00];                 (* movaps xmm6,[imm256_xmm6] *)
  [0x0F; 0x28; 0xB8; 0x60; 0x01; 0x00; 0x00];                 (* movaps xmm7,[imm256_xmm7] *)
  [0x44; 0x0F; 0x28; 0x80; 0x80; 0x01; 0x00; 0x00];           (* movaps xmm8,[imm256_xmm8] *)
  [0x44; 0x0F; 0x28; 0x88; 0xA0; 0x01; 0x00; 0x00];           (* movaps xmm9,[imm256_xmm9] *)
  [0x44; 0x0F; 0x28; 0x90; 0xC0; 0x01; 0x00; 0x00];           (* movaps xmm10,[imm256_xmm10] *)
  [0x44; 0x0F; 0x28; 0x98; 0xE0; 0x01; 0x00; 0x00];           (* movaps xmm11,[imm256_xmm11] *)
  [0x44; 0x0F; 0x28; 0xA0; 0x00; 0x02; 0x00; 0x00];           (* movaps xmm12,[imm256_xmm12] *)
  [0x44; 0x0F; 0x28; 0xA8; 0x20; 0x02; 0x00; 0x00];           (* movaps xmm13,[imm256_xmm13] *)
  [0x44; 0x0F; 0x28; 0xB0; 0x40; 0x02; 0x00; 0x00];           (* movaps xmm14,[imm256_xmm14] *)
  [0x44; 0x0F; 0x28; 0xB8; 0x60; 0x02; 0x00; 0x00];           (* movaps xmm15,[imm256_xmm15] *)
  [0xFF; 0x35; 0x6A; 0xFE; 0xFF; 0xFF];                       (* push   [extra] *)
  [0xFF; 0x25; 0x5C; 0xFE; 0xFF; 0xFF]                        (* jmp    [fnHooked] *)
].

Definition ContextHookV : HookType := template ContextHookV_code 4.

(** The displacement of an instruction whose memory operand is addressed
    relative to [rip]: after a REX prefix, if any, one byte of opcode, a
    ModRM byte with mod 00 and r/m 101, and the four bytes of the
    displacement, which end the instruction. *)
Definition rip_disp (ins : list Z) : option Z :=
  let body := match ins with
              | p :: r => if (0x40 <=? p) && (p <=? 0x4F) then r else ins
              | [] => []
              end in
  match body with
  | [_; modrm; d0; d1; d2; d3] =>
      if Z.land modrm 0xC7 =? 0x05 then Some (signed 32 (decode [d0; d1; d2; d3])) else None
  | _ => None
  end.

(** A [call] or a [jmp] through a pointer addressed relative to [rip]:
    FF /2 and FF /4. *)
Definition is_branch (ins : list Z) : bool :=
  match ins with
  | [0xFF; modrm; _; _; _; _] => (modrm =? 0x15) || (modrm =? 0x25)
  | _ => false
  end.

(** The offsets, from the start of the hook object, of the operands that
    the instructions selected by [sel] address relative to [rip]; [at] is
    the offset of the first instruction.  The displacement counts from
    the end of its instruction. *)
Fixpoint rip_operands (sel : list Z -> bool) (at_ : Z) (code : list (list Z)) : list Z :=
  match code with
  | [] => []
  | ins :: r =>
      let next := at_ + Z.of_nat (length ins) in
      match rip_disp ins with
      | Some d => if sel ins then next + d :: rip_operands sel next r
                  else rip_operands sel next r
      | None => rip_operands sel next r
      end
  end.

(** The hook types that [VFTHookTemplate] is given. *)
Definition templates : list HookType :=
  [EntryHook; ExitHook; ReturnHook; ContextHook; EntryHookV; ExitHookV; ReturnHookV;
   ContextHookV].

End HookTemplates.

(** ** example/dllmain.cpp: the example DLL *)

Module Example.
Import Mem PEParser RTTIScanner VFTHook.

(** [p]: the pointer stored [offset] bytes after [base]. *)
Definition p (m : memory) (base offset : Z) : Z := load64 m (wrap64 (base + offset)).

(** The statics of the DLL: those of the scanner, the process, and the
    pointer [hook], which is null ([None]) or points at a [VFTHook] object
    with the value of its [allocationBase].  Heap objects other than the
    data of hooks are not part of the world. *)
Record Dll := { scanner : RTTIScanner.state; world : World; hook : option Z }.

(** [placeExampleHook]; [exampleHook] is the address of the hooking
    function.  [None] when [scan] does not return. *)
Definition placeExampleHook (und : memory -> Z -> option string) (fuel : nat)
    (os : option ProcessInfo) (exampleHook : Z) (d : Dll) : option Dll :=
  (* RTTIScanner(): parser.reset(new PEParser()) *)
  let st := {| parser := setProcessInfo os None (parser (scanner d));
               classRTTI := classRTTI (scanner d);
               sectionData := sectionData (scanner d) |} in
  match scan und fuel (mem (world d)) os None st with
  | None => None
  | Some (true, st, _) =>
      let '(allocationBase, w) :=
        new_hook_by_name EntryHook (classRTTI st) "CS::PlayerIns" 20 exampleHook (world d) in
      Some {| scanner := st; world := w; hook := Some allocationBase |}
  | Some (false, st, _) => Some {| scanner := st; world := world d; hook := hook d |}
  end.

(** [removeExampleHook]: [delete hook] runs the destructor and leaves the
    pointer as it is.  [None] when the destructor does not return within
    [fuel] steps. *)
Definition removeExampleHook (fuel : nat) (d : Dll) : option Dll :=
  match hook d with
  | None => Some d
  | Some allocationBase =>
      match destroy EntryHook fuel allocationBase (world d) with
      | None => None
      | Some w => Some {| scanner := scanner d; world := w; hook := hook d |}
      end
  end.

Definition DLL_PROCESS_DETACH : Z := 0.
Definition DLL_PROCESS_ATTACH : Z := 1.
Definition DLL_THREAD_ATTACH : Z := 2.
Definition DLL_THREAD_DETACH : Z := 3.

(** [DllMain]; the result is always [TRUE]. *)
Definition DllMain (und : memory -> Z -> option string) (fuel : nat)
    (os : option ProcessInfo) (exampleHook : Z) (ul_reason_for_call : Z) (d : Dll)
  : option (bool * Dll) :=
  let r :=
    if ul_reason_for_call =? DLL_PROCESS_ATTACH then placeExampleHook und fuel os exampleHook d
    else if ul_reason_for_call =? DLL_PROCESS_DETACH then removeExampleHook fuel d
    else Some d in
  match r with
  | Some d => Some (true, d)
  | None => None
  end.

End Example.

(** ** PE.h: what the parser stores and how the parsed sections are used *)

Module ParserProps.
Import Mem MemFacts PEParser PEFacts.

(** The place of the section table and the number of its entries, as
    [parse] computes them from the headers of the module at [base]. *)
Definition section_count (m : memory) (base : Z) : Z :=
  load16s m (base + load32s m (base + 0x3C) + 0x06).

Definition section_table (m : memory) (base : Z) : Z :=
  base + load32s m (base + 0x3C)
  + (load16s m (base + load32s m (base + 0x3C) + 0x14) + 0x18).

Lemma parse_true fuel m os arg st st' :
  parse fuel m os arg st = Some (true, st') ->
  exists info sm,
    match arg with Some i => Some i | None => os end = Some info /\
    lpBaseOfDll info <> 0 /\
    parse_headers fuel m (Z.to_nat (section_count m (lpBaseOfDll info)))
      (section_table m (lpBaseOfDll info)) ∅ = Some sm /\
    st' = {| pInfo := Some info; sectionMap := Some sm |}.
Proof.
  unfold parse, setProcessInfo, section_count, section_table. cbn [pInfo sectionMap].
  destruct (match arg with Some i => Some i | None => os end) as [info|]; [|discriminate].
  destruct (Z.eqb_spec (lpBaseOfDll info) 0) as [E0|N0]; cbn [orb]; [discriminate|].
  destruct (negb (load16s m (lpBaseOfDll info) =? 0x5A4D)); [discriminate|].
  destruct (negb (load32s m (lpBaseOfDll info + load32s m (lpBaseOfDll info + 0x3C)) =? 0x4550));
    [discriminate|].
  destruct (parse_headers _ _ _ _ _) as [sm|] eqn:E; [|discriminate].
  intros [= <-]. exists info, sm. repeat split; assumption.
Qed.

Lemma add_all_lookup nm : forall l (sm : SectionMap),
  add_all l sm !! nm =
  match List.filter (fun s => String.eqb (name s) nm) l with
  | [] => sm !! nm
  | fl => Some (default [] (sm !! nm) ++ fl)
  end.
Proof.
  induction l as [|s l IH]; intros sm; cbn [add_all fold_left List.filter]; [reflexivity|].
  fold (add_all l (snd (addSection (Some s) sm))). rewrite IH.
  assert (Hl : snd (addSection (Some s) sm) !! nm =
               if String.eqb (name s) nm then Some (default [] (sm !! nm) ++ [s])
               else sm !! nm).
  { unfold addSection. destruct (String.eqb_spec (name s) nm) as [<-|Hne].
    - destruct (sm !! name s); cbn [snd from_option id]; rewrite lookup_insert_eq; reflexivity.
    - destruct (sm !! name s); cbn [snd]; rewrite lookup_insert_ne by exact Hne; reflexivity. }
  rewrite Hl. destruct (String.eqb (name s) nm).
  - cbn [from_option id]. destruct (List.filter _ l); [reflexivity|].
    now rewrite <- app_assoc.
  - reflexivity.
Qed.

Lemma headers_nth fuel m : forall n base secs,
  headers fuel m n base = Some secs ->
  length secs = n /\
  forall i s, nth_error secs i = Some s ->
    exists nm, c_str fuel m (base + 0x28 * Z.of_nat i) = Some nm /\
               s = header_section m (base + 0x28 * Z.of_nat i) nm.
Proof.
  induction n as [|k IH]; intros base secs; cbn [headers].
  - intros [= <-]. split; [reflexivity|]. intros [|i] s H; discriminate H.
  - destruct (c_str fuel m base) as [nm|] eqn:En; [|discriminate].
    destruct (headers fuel m k (base + 0x28)) as [l|] eqn:El; [|discriminate].
    intros [= <-]. destruct (IH _ _ El) as [Hlen Hnth].
    split; [cbn [length]; now rewrite Hlen|].
    intros [|i] s H; cbn [nth_error] in H.
    + injection H as <-. exists nm. replace (base + 0x28 * Z.of_nat 0) with base by lia.
      split; [exact En | reflexivity].
    + destruct (Hnth i s H) as (nm' & E1 & E2). exists nm'.
      replace (base + 0x28 * Z.of_nat (S i)) with (base + 0x28 + 0x28 * Z.of_nat i) by lia.
      split; assumption.
Qed.

(** X1.  After a successful [parse] the section map holds, under every name, the
    headers of the section table that carry the name, in the order of the
    table, and no entry for a name that no header carries.  The [i]-th
    section comes from the forty bytes at [table + 0x28 * i]. *)
Theorem parse_sections_by_name fuel m os arg st st' :
  parse fuel m os arg st = Some (true, st') ->
  exists info sm secs,
    st' = {| pInfo := Some info; sectionMap := Some sm |} /\
    length secs = Z.to_nat (section_count m (lpBaseOfDll info)) /\
    (forall i s, nth_error secs i = Some s ->
       exists nm,
         c_str fuel m (section_table m (lpBaseOfDll info) + 0x28 * Z.of_nat i) = Some nm /\
         s = header_section m (section_table m (lpBaseOfDll info) + 0x28 * Z.of_nat i) nm) /\
    (forall nm, getSectionsWithName nm sm =
       match List.filter (fun s => String.eqb (name s) nm) secs with
       | [] => None
       | l => Some l
       end).
Proof.
  intros H. destruct (parse_true _ _ _ _ _ _ H) as (info & sm & _ & _ & Hh & ->).
  rewrite parse_headers_headers in Hh.
  destruct (headers fuel m _ _) as [secs|] eqn:Es; [|discriminate].
  injection Hh as <-. destruct (headers_nth _ _ _ _ _ Es) as [Hlen Hnth].
  exists info, (add_all secs ∅), secs.
  split; [reflexivity|]. split; [exact Hlen|]. split; [exact Hnth|].
  intros nm. unfold getSectionsWithName. rewrite add_all_lookup, lookup_empty.
  reflexivity.
Qed.


Lemma parse_returns fuel m os arg st ok st' :
  parse fuel m os arg st = Some (ok, st') ->
  pInfo st' = match arg with Some i => Some i | None => os end /\
  pInfo st' <> None /\
  (ok = false -> sectionMap st' = None) /\
  (ok = true -> sectionMap st' <> None).
Proof.
  unfold parse, setProcessInfo. cbn [pInfo sectionMap].
  destruct (match arg with Some i => Some i | None => os end) as [info|]; [|discriminate].
  destruct ((lpBaseOfDll info =? 0) || negb (load16s m (lpBaseOfDll info) =? 0x5A4D)).
  { intros [= <- <-]. cbn. repeat split; try discriminate; reflexivity. }
  destruct (negb (load32s m (lpBaseOfDll info + load32s m (lpBaseOfDll info + 0x3C)) =? 0x4550)).
  { intros [= <- <-]. cbn. repeat split; try discriminate; reflexivity. }
  destruct (parse_headers _ _ _ _ _) as [sm|]; [|discriminate].
  intros [= <- <-]. cbn. repeat split; try discriminate.
Qed.

(** X2.  After a [parse] that returns, the process info of the parser is
    the one passed (one that the parser did not own yet), or the one of
    the system when none is passed; with neither, the null
    [PEParser::pInfo] is dereferenced and the call has no result.  A
    [parse] that returns false leaves no section map, also when an earlier
    call had made one; a [parse] that returns true leaves one. *)
Theorem parse_replaces_state fuel m os arg st :
  (arg = None -> os = None -> parse fuel m os arg st = None) /\
  (forall ok st', parse fuel m os arg st = Some (ok, st') ->
     pInfo st' = match arg with Some i => Some i | None => os end /\
     pInfo st' <> None /\
     (ok = false -> sectionMap st' = None) /\
     (ok = true -> sectionMap st' <> None)).
Proof.
  split.
  { intros -> ->. reflexivity. }
  intros ok st'. apply parse_returns.
Qed.

(** *** Addresses and offsets *)

Lemma as_small v base :
  0 <= base + v < 2 ^ 64 -> as_ v base = base + v.
Proof. intros H. unfold as_. now apply wrap64_small. Qed.

Definition int_range (x : Z) : Prop := - 2 ^ 31 <= x < 2 ^ 31.

(** A section whose two bounds are [int] values, as [parse] makes them. *)
Definition int_bounds (s : PESection) : Prop := int_range (start s) /\ int_range (end_ s).

Lemma header_section_int_bounds m base nm : int_bounds (header_section m base nm).
Proof.
  split; cbn [start end_ header_section]; unfold int_range.
  - pose proof (to_int_range_signed m (base + 0x0C)).
    unfold load32s, load32, signed in *. change (32 - 1) with 31 in *.
    pose proof (decode_range (read m (base + 0x0C) 4)) as H0.
    rewrite length_read in H0. change (256 ^ Z.of_nat 4) with (2 ^ 32) in H0.
    destruct (Z.ltb_spec (decode (read m (base + 0x0C) 4)) (2 ^ 31)); lia.
  - apply to_int_range.
Qed.

(** X3.  For a module that lies at least 2^31 bytes away from both ends of the
    address space, the test on addresses and the test on offsets are the
    same test: an offset is in the sections exactly when the address it
    stands for is, and an address within reach of the base is in them
    exactly when its offset is. *)
Theorem address_test_is_offset_test (base : Z) (sections : list PESection) :
  2 ^ 31 <= base <= 2 ^ 64 - 2 ^ 31 ->
  Forall int_bounds sections ->
  (forall ibo, int_range ibo ->
     isAddressInSection base (as_ ibo base) sections = isIbo32InSection ibo sections) /\
  (forall address, int_range (address - base) ->
     isIbo32InSection (ibo32 address base) sections
     = isAddressInSection base address sections).
Proof.
  intros Hb Hs.
  assert (H1 : forall ibo, int_range ibo ->
     isAddressInSection base (as_ ibo base) sections = isIbo32InSection ibo sections).
  { intros ibo Hi. unfold int_range in *.
    induction Hs as [|s l [Hs1 Hs2] _ IH]; [reflexivity|].
    cbn [isAddressInSection isIbo32InSection]. unfold int_range in *.
    rewrite IH. rewrite !as_small by lia.
    replace (base + start s <=? base + ibo) with (start s <=? ibo) by lia.
    replace (base + ibo <? base + end_ s) with (ibo <? end_ s) by lia.
    reflexivity. }
  split; [exact H1|].
  intros address Ha. unfold int_range in Ha.
  assert (E : ibo32 address base = address - base).
  { unfold ibo32. apply to_int_small. lia. }
  rewrite E, <- H1 by (unfold int_range; lia).
  rewrite as_small by lia. f_equal. lia.
Qed.

(** *** Names shorter than the name field *)

Lemma trim_nonzero b r : b <> 0 -> trim_trailing_nuls (b :: r) = b :: trim_trailing_nuls r.
Proof.
  intros Hb. cbn [trim_trailing_nuls]. destruct (trim_trailing_nuls r); [|reflexivity].
  destruct (Z.eqb_spec b 0); [contradiction | reflexivity].
Qed.

Lemma trim_zeros n : trim_trailing_nuls (repeat 0 n) = [].
Proof. induction n as [|n IH]; [reflexivity|]. cbn [repeat trim_trailing_nuls]. now rewrite IH. Qed.

Lemma trim_padded (l : list Z) n :
  Forall (fun b => 0 < b < 256) l -> trim_trailing_nuls (l ++ repeat 0 n) = l.
Proof.
  induction 1 as [|b l Hb _ IH]; cbn [app]; [apply trim_zeros|].
  rewrite trim_nonzero by lia. now rewrite IH.
Qed.

Lemma c_str_padded m : forall (l : list Z) n a fuel,
  Forall (fun b => 0 < b < 256) l ->
  read m a (length l + S n) = l ++ repeat 0 (S n) ->
  (length l < fuel)%nat ->
  c_str fuel m a = Some (string_of_bytes l).
Proof.
  induction l as [|b l IH]; intros n a fuel Hl Hr Hf.
  - destruct fuel as [|k]; [cbn in Hf; lia|].
    cbn in Hr. injection Hr as Hz _. cbn [c_str]. rewrite Hz. reflexivity.
  - destruct fuel as [|k]; [cbn in Hf; lia|].
    apply List.Forall_cons_iff in Hl as [Hb Hl].
    cbn [length Nat.add read app] in Hr. injection Hr as Hb' Hr.
    cbn [c_str]. rewrite Hb'.
    destruct (Z.eqb_spec b 0); [lia|].
    rewrite (IH n (a + 1) k Hl Hr) by (cbn [length] in Hf; lia).
    reflexivity.
Qed.

(** X4.  A header whose name has fewer than eight characters, the rest of the
    field being NUL bytes, gives a section filed under exactly that name,
    which starts at the virtual address of the header and ends at the
    virtual address plus the virtual size. *)
Theorem short_name_section fuel m hdr (l : list Z) (sm : SectionMap) :
  Forall (fun b => 0 < b < 256) l ->
  (length l < 8)%nat -> (length l < fuel)%nat ->
  read m hdr 8 = l ++ repeat 0 (8 - length l) ->
  0 <= load32s m (hdr + 0x08) ->
  load32s m (hdr + 0x0C) + load32s m (hdr + 0x08) < 2 ^ 31 ->
  sm !! string_of_bytes l = None ->
  header_name m hdr = string_of_bytes l /\
  parse_headers fuel m 1 hdr sm
  = Some (<[string_of_bytes l :=
              [ {| name := string_of_bytes l;
                   size := load32s m (hdr + 0x08);
                   start := load32s m (hdr + 0x0C);
                   end_ := load32s m (hdr + 0x0C) + load32s m (hdr + 0x08) |} ]]> sm).
Proof.
  intros Hl H8 Hf Hr Hs He Hsm. split.
  { unfold header_name. rewrite Hr. now rewrite trim_padded. }
  cbn [parse_headers].
  assert (Hc : c_str fuel m hdr = Some (string_of_bytes l)).
  { apply (c_str_padded m l (7 - length l)%nat); [exact Hl | | exact Hf].
    replace (length l + S (7 - length l))%nat with 8%nat by lia.
    replace (S (7 - length l)) with (8 - length l)%nat by lia. exact Hr. }
  rewrite Hc. unfold addSection. cbn [name]. rewrite Hsm. cbn [snd].
  pose proof (to_int_range_signed m (hdr + 0x08)) as Hs'.
  pose proof (header_section_int_bounds m hdr EmptyString) as [[Hlo _] _].
  cbn [start header_section] in Hlo.
  rewrite (wrap64_small (load32s m (hdr + 0x08))) by lia.
  rewrite to_int_small by lia.
  reflexivity.
Qed.


(** *** The forms that use the registered module *)

(** X5.  Once [parse] has returned, true or false, an offset built from an
    address alone is the offset from the base of the parsed module, and
    [as()] adds that base; neither throws, asks the system, or changes the
    parser state. *)
Theorem implicit_base_after_parse fuel m os arg st ok st' os' address val :
  parse fuel m os arg st = Some (ok, st') ->
  exists info,
    pInfo st' = Some info /\
    PEMembers.ibo32_of os' address st' = (Some (ibo32 address (lpBaseOfDll info)), st') /\
    PEMembers.as_pointer os' val st' = (Some (as_ val (lpBaseOfDll info)), st').
Proof.
  intros H. destruct (parse_returns _ _ _ _ _ _ _ H) as (_ & Hn & _).
  destruct (pInfo st') as [info|] eqn:E; [|contradiction].
  exists info. unfold PEMembers.ibo32_of, PEMembers.as_pointer, PEMembers.getProcessInfo.
  rewrite E. repeat split.
Qed.

(** X6.  With no process info registered, the first offset built from an
    address alone asks the system for it and registers what it gets, so
    that a second one does not ask again; when the system gives none the
    constructor throws.  Either way the section map is dropped. *)
Theorem implicit_base_is_fetched_once os address st :
  pInfo st = None ->
  match os with
  | Some info =>
      PEMembers.ibo32_of os address st
      = (Some (ibo32 address (lpBaseOfDll info)), {| pInfo := Some info; sectionMap := None |}) /\
      forall os' address',
        PEMembers.ibo32_of os' address' (snd (PEMembers.ibo32_of os address st))
        = (Some (ibo32 address' (lpBaseOfDll info)), snd (PEMembers.ibo32_of os address st))
  | None =>
      PEMembers.ibo32_of os address st = (None, {| pInfo := None; sectionMap := None |})
  end.
Proof.
  intros H. unfold PEMembers.ibo32_of, PEMembers.getProcessInfo, setProcessInfo. rewrite H.
  destruct os as [info|]; cbn; [split|]; reflexivity.
Qed.

Lemma isIbo32InSection_spec ibo : forall sections,
  isIbo32InSection ibo sections = true <->
  exists s, In s sections /\ start s <= ibo < end_ s.
Proof.
  induction sections as [|s l IH]; cbn [isIbo32InSection].
  - split; [discriminate | intros (s & [] & _)].
  - destruct ((start s <=? ibo) && (ibo <? end_ s)) eqn:E.
    + split; [|reflexivity]. intros _. exists s. split; [now left | lia].
    + rewrite IH. split.
      * intros (x & Hx & Hr). exists x. split; [now right | exact Hr].
      * intros (x & [<-|Hx] & Hr); [lia|]. exists x. split; assumption.
Qed.

(** X7.  The membership test by section name, after a successful [parse]: for
    a name that some header of the table carries, it is true exactly when
    the offset lies between the start and the end of one of the sections
    of that name; for a name that no header carries, as for any name while
    there is no section map, the test dereferences the null pointer and
    has no result. *)
Theorem offset_test_by_name fuel m os arg st st' ibo nm :
  parse fuel m os arg st = Some (true, st') ->
  match PEMembers.getSectionsWithName nm st' with
  | Some sections =>
      sections <> [] /\ Forall (fun s => name s = nm) sections /\
      exists b, PEMembers.isIbo32InSection ibo nm st' = Some b /\
                (b = true <-> exists s, In s sections /\ start s <= ibo < end_ s)
  | None => PEMembers.isIbo32InSection ibo nm st' = None
  end /\
  (forall st0, sectionMap st0 = None -> PEMembers.isIbo32InSection ibo nm st0 = None).
Proof.
  intros H. split.
  2: { intros st0 H0. unfold PEMembers.isIbo32InSection, PEMembers.getSectionsWithName.
       now rewrite H0. }
  destruct (parse_true _ _ _ _ _ _ H) as (info & sm & _ & _ & Hh & ->).
  rewrite parse_headers_headers in Hh.
  destruct (headers fuel m _ _) as [secs|]; [|discriminate]. injection Hh as <-.
  unfold PEMembers.isIbo32InSection, PEMembers.getSectionsWithName. cbn [sectionMap].
  unfold PEParser.getSectionsWithName. rewrite add_all_lookup, lookup_empty.
  cbn [from_option id app].
  pose proof (List.filter_In (fun s => String.eqb (name s) nm) ) as Hf.
  destruct (List.filter (fun s => String.eqb (name s) nm) secs) as [|s fl] eqn:E;
    [reflexivity|].
  split; [discriminate|]. split.
  - apply List.Forall_forall. intros x Hx. rewrite <- E in Hx.
    apply Hf in Hx as [_ Hx]. now apply String.eqb_eq in Hx.
  - eexists. split; [reflexivity|]. apply isIbo32InSection_spec.
Qed.


(** *** The sample module *)

Definition demo_text : list PESection :=
  [ {| name := ".text"; size := 0x1000; start := 0x1000; end_ := 0x2000 |};
    {| name := ".text"; size := 0x800; start := 0x4000; end_ := 0x4800 |} ].

Definition demo_sections : SectionMap :=
  {[ ".text"%string := demo_text;
     ".rdata"%string := [ {| name := ".rdata"; size := 0x1000; start := 0x2000; end_ := 0x3000 |} ];
     ".data"%string := [ {| name := ".data"; size := 0x1000; start := 0x3000; end_ := 0x4000 |} ] ]}.

Definition demo_parsed : PEParser.state :=
  {| pInfo := Some Demo.module; sectionMap := Some demo_sections |}.

Lemma demo_parse : parse 16 Demo.image None (Some Demo.module) no_state = Some (true, demo_parsed).
Proof. vm_compute. reflexivity. Qed.

Lemma parse_sections_by_name_witness :
  parse 16 Demo.image None (Some Demo.module) no_state = Some (true, demo_parsed) /\
  exists info sm secs,
    demo_parsed = {| pInfo := Some info; sectionMap := Some sm |} /\
    length secs = Z.to_nat (section_count Demo.image (lpBaseOfDll info)) /\
    (forall i s, nth_error secs i = Some s ->
       exists nm,
         c_str 16 Demo.image (section_table Demo.image (lpBaseOfDll info) + 0x28 * Z.of_nat i)
         = Some nm /\
         s = header_section Demo.image
               (section_table Demo.image (lpBaseOfDll info) + 0x28 * Z.of_nat i) nm) /\
    (forall nm, getSectionsWithName nm sm =
       match List.filter (fun s => String.eqb (name s) nm) secs with
       | [] => None
       | l => Some l
       end).
Proof.
  split; [exact demo_parse|].
  apply (parse_sections_by_name 16 Demo.image None (Some Demo.module) no_state demo_parsed).
  exact demo_parse.
Defined.

Lemma address_test_is_offset_test_witness :
  (forall ibo, int_range ibo ->
     isAddressInSection Demo.base (as_ ibo Demo.base) demo_text
     = isIbo32InSection ibo demo_text) /\
  (forall address, int_range (address - Demo.base) ->
     isIbo32InSection (ibo32 address Demo.base) demo_text
     = isAddressInSection Demo.base address demo_text).
Proof.
  apply (address_test_is_offset_test Demo.base demo_text).
  - unfold Demo.base. lia.
  - repeat constructor; cbn; lia.
Defined.

Lemma short_name_section_witness :
  header_name Demo.image (Demo.base + 0x188) = string_of_bytes [46; 116; 101; 120; 116] /\
  parse_headers 16 Demo.image 1 (Demo.base + 0x188) ∅
  = Some (<[string_of_bytes [46; 116; 101; 120; 116] :=
              [ {| name := string_of_bytes [46; 116; 101; 120; 116];
                   size := load32s Demo.image (Demo.base + 0x188 + 0x08);
                   start := load32s Demo.image (Demo.base + 0x188 + 0x0C);
                   end_ := load32s Demo.image (Demo.base + 0x188 + 0x0C)
                           + load32s Demo.image (Demo.base + 0x188 + 0x08) |} ]]> ∅).
Proof.
  apply (short_name_section 16 Demo.image (Demo.base + 0x188) [46; 116; 101; 120; 116] ∅).
  - repeat constructor; lia.
  - cbn. lia.
  - cbn. lia.
  - vm_compute. reflexivity.
  - vm_compute. discriminate.
  - vm_compute. reflexivity.
  - reflexivity.
Defined.

Lemma implicit_base_after_parse_witness :
  exists info,
    pInfo demo_parsed = Some info /\
    PEMembers.ibo32_of None (Demo.base + 0x2010) demo_parsed
    = (Some (ibo32 (Demo.base + 0x2010) (lpBaseOfDll info)), demo_parsed) /\
    PEMembers.as_pointer None 0x2010 demo_parsed
    = (Some (as_ 0x2010 (lpBaseOfDll info)), demo_parsed).
Proof.
  apply (implicit_base_after_parse 16 Demo.image None (Some Demo.module) no_state true
           demo_parsed None (Demo.base + 0x2010) 0x2010).
  exact demo_parse.
Defined.

Lemma implicit_base_is_fetched_once_witness :
  PEMembers.ibo32_of (Some Demo.module) (Demo.base + 0x2010) no_state
  = (Some (ibo32 (Demo.base + 0x2010) (lpBaseOfDll Demo.module)),
     {| pInfo := Some Demo.module; sectionMap := None |}) /\
  forall os' address',
    PEMembers.ibo32_of os' address'
      (snd (PEMembers.ibo32_of (Some Demo.module) (Demo.base + 0x2010) no_state))
    = (Some (ibo32 address' (lpBaseOfDll Demo.module)),
       snd (PEMembers.ibo32_of (Some Demo.module) (Demo.base + 0x2010) no_state)).
Proof.
  apply (implicit_base_is_fetched_once (Some Demo.module) (Demo.base + 0x2010) no_state).
  reflexivity.
Defined.

Lemma offset_test_by_name_witness :
  match PEMembers.getSectionsWithName ".text" demo_parsed with
  | Some sections =>
      sections <> [] /\ Forall (fun s => name s = ".text"%string) sections /\
      exists b, PEMembers.isIbo32InSection 0x4010 ".text" demo_parsed = Some b /\
                (b = true <-> exists s, In s sections /\ start s <= 0x4010 < end_ s)
  | None => PEMembers.isIbo32InSection 0x4010 ".text" demo_parsed = None
  end /\
  (forall st0, sectionMap st0 = None ->
     PEMembers.isIbo32InSection 0x4010 ".text" st0 = None).
Proof.
  apply (offset_test_by_name 16 Demo.image None (Some Demo.module) no_state demo_parsed
           0x4010 ".text").
  exact demo_parse.
Defined.

End ParserProps.

(** ** RTTIScanner.h: what a scan returns and what it records *)

Module ScannerProps.
Import Mem MemFacts PEParser PEFacts RTTIScanner ScannerFacts ParserProps.

(** [RTTI::getName]. *)
Definition getName (und : memory -> Z -> option string) (m : memory) (r : RTTI) : string :=
  demangleName und m (pTypeDescriptor r + 16).

(** *** The result of a scan *)

(** The three sections a scan works on are in the section map. *)
Definition has_sections (p : PEParser.state) : Prop :=
  PEMembers.getSectionsWithName ".text" p <> None /\
  PEMembers.getSectionsWithName ".data" p <> None /\
  PEMembers.getSectionsWithName ".rdata" p <> None.

Lemma setSectionData_true p :
  fst (setSectionData p) = true <-> has_sections p.
Proof.
  unfold setSectionData, has_sections, PEMembers.getSectionsWithName.
  destruct (sectionMap p) as [sm|].
  - destruct (getSectionsWithName ".text" sm), (getSectionsWithName ".data" sm),
      (getSectionsWithName ".rdata" sm); cbn; split; intros H;
      try discriminate; try reflexivity; try (repeat split; discriminate);
      destruct H as (H1 & H2 & H3); try (now contradiction H1);
      try (now contradiction H2); now contradiction H3.
  - cbn. split; [discriminate | intros (H & _); now contradiction H].
Qed.

Lemma setSectionData_shape p :
  match setSectionData p with
  | (true, Some _) | (false, None) => True
  | _ => False
  end.
Proof.
  unfold setSectionData. destruct (sectionMap p) as [sm|]; [|exact I].
  destruct (getSectionsWithName ".text" sm), (getSectionsWithName ".data" sm),
    (getSectionsWithName ".rdata" sm); exact I.
Qed.

Lemma emplace_subseteq k v (c : gmap string RTTI) : c ⊆ emplace k v c.
Proof.
  unfold emplace. destruct (c !! k) eqn:E; [reflexivity|]. now apply insert_subseteq.
Qed.

Section Monotone.
Variable und : memory -> Z -> option string.
Variable m : memory.
Variable base : Z.
Variable sd : SectionData.

Lemma emplace_found_subseteq o (c : gmap string RTTI) : c ⊆ emplace_found o c.
Proof. destruct o as [[nm r]|]; [apply emplace_subseteq | reflexivity]. Qed.

Lemma sweep_subseteq : forall fuel pCOL e st,
  found st ⊆ found (sweep und m base sd fuel pCOL e st).
Proof.
  induction fuel as [|k IH]; intros pCOL e st; cbn [sweep]; [reflexivity|].
  destruct (pCOL <? e); [|reflexivity].
  destruct (negb (isAddressInSection base (load64 m (pCOL + 8)) (rdata sd)));
    [apply (IH _ _ {| found := found st; examined := _ |})|].
  destruct (negb (isAddressInSection base (load64 m (pCOL + 8 + 8)) (text sd)));
    [apply (IH _ _ {| found := found st; examined := _ |})|].
  etrans; [|apply IH]. cbn [found]. apply emplace_found_subseteq.
Qed.

Lemma sweep_rdata_subseteq st : found st ⊆ found (sweep_rdata und m base sd st).
Proof.
  unfold sweep_rdata. revert st.
  induction (rdata sd) as [|s l IH]; intros st; cbn [fold_left]; [reflexivity|].
  etrans; [|apply IH]. apply sweep_subseteq.
Qed.

Lemma text_scan_subseteq : forall fuel curr e (c : gmap string RTTI),
  c ⊆ text_scan und m base sd fuel curr e c.
Proof.
  induction fuel as [|k IH]; intros curr e c; cbn [text_scan]; [reflexivity|].
  destruct (curr <? e); [|reflexivity].
  destruct (_ =? 16); [apply IH|].
  destruct (mm_testz _ _); [|apply IH].
  etrans; [|apply IH]. apply emplace_found_subseteq.
Qed.

Lemma text_scan_sections_subseteq (c : gmap string RTTI) :
  c ⊆ text_scan_sections und m base sd c.
Proof.
  unfold text_scan_sections. revert c.
  induction (text sd) as [|s l IH]; intros c; cbn [fold_left]; [reflexivity|].
  etrans; [|apply IH]. apply text_scan_subseteq.
Qed.

End Monotone.

Lemma scan_false und fuel m os arg (st : RTTIScanner.state) st' ex :
  scan und fuel m os arg st = Some (false, st', ex) ->
  classRTTI st' = classRTTI st /\ ex = [].
Proof.
  unfold scan.
  destruct (parse fuel m os arg (parser st)) as [[[|] p]|]; [| |discriminate].
  - pose proof (setSectionData_shape p) as Hsh.
    destruct (setSectionData p) as [[|] [sd|]]; try contradiction.
    + destruct (pInfo p); [discriminate|]. intros [= <- <-]. split; reflexivity.
    + intros [= <- <-]. split; reflexivity.
  - intros [= <- <-]. split; reflexivity.
Qed.

(** X8.  Both versions of [scan], the sweep of [.rdata] and the pattern scan of
    [.text], return true exactly when [parse] has returned true and the
    section map holds the three names [.text], [.data] and [.rdata].  A
    scan that returns false leaves the class map as it was, and a scan
    that returns true only adds to it: every name that was in the map
    keeps its record. *)
Theorem scan_result und fuel m os arg (st : RTTIScanner.state) :
  (forall ok st' ex, scan und fuel m os arg st = Some (ok, st', ex) ->
     exists pok, parse fuel m os arg (parser st) = Some (pok, parser st') /\
       (ok = true <-> pok = true /\ has_sections (parser st')) /\
       (ok = false -> classRTTI st' = classRTTI st /\ ex = []) /\
       classRTTI st ⊆ classRTTI st') /\
  (forall ok st', scan_text und fuel m os arg st = Some (ok, st') ->
     exists pok, parse fuel m os arg (parser st) = Some (pok, parser st') /\
       (ok = true <-> pok = true /\ has_sections (parser st')) /\
       (ok = false -> classRTTI st' = classRTTI st) /\
       classRTTI st ⊆ classRTTI st').
Proof.
  pose proof (fun ok st' => parse_returns fuel m os arg (parser st) ok st') as Hp.
  split.
  - intros ok st' ex. unfold scan.
    destruct (parse fuel m os arg (parser st)) as [[[|] p]|] eqn:E; [| |discriminate].
    + destruct (Hp true p eq_refl) as (_ & Hn & _).
      pose proof (setSectionData_true p) as Hs. pose proof (setSectionData_shape p) as Hsh.
      destruct (setSectionData p) as [[|] [sd|]]; try contradiction.
      * destruct (pInfo p) as [info|]; [|contradiction].
        intros [= <- <- <-]. exists true. cbn [parser classRTTI].
        split; [reflexivity|]. split; [split; [intros _; split; [reflexivity|now apply Hs]|reflexivity]|].
        split; [discriminate|].
        apply (sweep_rdata_subseteq und m (lpBaseOfDll info) sd
                 {| found := classRTTI st; examined := [] |}).
      * intros [= <- <- <-]. exists true. cbn [parser classRTTI].
        split; [reflexivity|].
        split; [split; [discriminate | intros [_ H]; apply Hs in H; discriminate H]|].
        split; [intros _; split; reflexivity | reflexivity].
    + intros [= <- <- <-]. exists false. cbn [parser classRTTI].
      split; [reflexivity|]. split; [split; [discriminate | intros [H _]; discriminate H]|].
      split; [intros _; split; reflexivity | reflexivity].
  - intros ok st'. unfold scan_text.
    destruct (parse fuel m os arg (parser st)) as [[[|] p]|] eqn:E; [| |discriminate].
    + destruct (Hp true p eq_refl) as (_ & Hn & _).
      pose proof (setSectionData_true p) as Hs. pose proof (setSectionData_shape p) as Hsh.
      destruct (setSectionData p) as [[|] [sd|]]; try contradiction.
      * destruct (pInfo p) as [info|]; [|contradiction].
        intros [= <- <-]. exists true. cbn [parser classRTTI].
        split; [reflexivity|]. split; [split; [intros _; split; [reflexivity|now apply Hs]|reflexivity]|].
        split; [discriminate|]. apply text_scan_sections_subseteq.
      * intros [= <- <-]. exists true. cbn [parser classRTTI].
        split; [reflexivity|].
        split; [split; [discriminate | intros [_ H]; apply Hs in H; discriminate H]|].
        split; [intros _; reflexivity | reflexivity].
    + intros [= <- <-]. exists false. cbn [parser classRTTI].
      split; [reflexivity|]. split; [split; [discriminate | intros [H _]; discriminate H]|].
      split; [intros _; reflexivity | reflexivity].
Qed.


(** *** What a record of the class map stands for *)

(** The checks that both scans make on a locator before they record it
    under [nm]: signature 1, the type descriptor in [.data], the class
    hierarchy descriptor and the base class array in [.rdata], and [nm]
    the undecorated name of the type descriptor, not empty. *)
Definition locator_ok (und : memory -> Z -> option string) (m : memory) (base : Z)
    (sd : SectionData) (nm : string) (r : RTTI) : Prop :=
  load32 m (pCompleteObjectLocator r) = 1 /\
  isIbo32InSection (load32s m (pCompleteObjectLocator r + 12)) (data sd) = true /\
  isIbo32InSection (load32s m (pCompleteObjectLocator r + 16)) (rdata sd) = true /\
  pTypeDescriptor r = as_ (load32s m (pCompleteObjectLocator r + 12)) base /\
  pClassHierarchyDescriptor r = as_ (load32s m (pCompleteObjectLocator r + 16)) base /\
  isIbo32InSection (load32s m (pClassHierarchyDescriptor r + 12)) (rdata sd) = true /\
  pBaseClassDescriptor r = as_ (load32s m (pClassHierarchyDescriptor r + 12)) base /\
  nm = getName und m r /\ nm <> EmptyString.

Lemma check_locator_ok und m base sd pVFT COL nm r :
  check_locator und m base sd pVFT COL = Some (nm, r) ->
  pVirtualFunctionTable r = pVFT /\ pCompleteObjectLocator r = COL /\
  locator_ok und m base sd nm r.
Proof.
  unfold check_locator, locator_ok, getName.
  destruct (Z.eqb_spec (load32 m COL) 1) as [E1|]; cbn [negb]; [|discriminate].
  destruct (isIbo32InSection (load32s m (COL + 12)) (data sd)) eqn:E2; cbn [negb];
    [|discriminate].
  destruct (isIbo32InSection (load32s m (COL + 16)) (rdata sd)) eqn:E3; cbn [negb];
    [|discriminate].
  destruct (isIbo32InSection _ (rdata sd)) eqn:E4 in |- *; cbn [negb]; [|discriminate].
  destruct (String.eqb_spec (demangleName und m (as_ (load32s m (COL + 12)) base + 16))
              EmptyString) as [|E5]; [discriminate|].
  intros [= <- <-]. cbn. repeat split; assumption.
Qed.

Lemma emplace_found_lookup o (c : gmap string RTTI) nm r :
  emplace_found o c !! nm = Some r -> c !! nm = Some r \/ o = Some (nm, r).
Proof.
  destruct o as [[k v]|]; cbn [emplace_found]; [|now left].
  unfold emplace. destruct (c !! k) eqn:E; [now left|].
  destruct (decide (k = nm)) as [<-|Hne].
  - rewrite lookup_insert_eq. intros [= <-]. now right.
  - rewrite lookup_insert_ne by exact Hne. now left.
Qed.

(** A record of the sweep of [.rdata]: its locator is the value of a slot
    and lies in [.rdata], its vtable is the slot that follows, which holds
    a pointer into [.text], and the locator passes the checks. *)
Definition swept_ok (und : memory -> Z -> option string) (m : memory) (base : Z)
    (sd : SectionData) (nm : string) (r : RTTI) : Prop :=
  load64 m (pVirtualFunctionTable r - 8) = pCompleteObjectLocator r /\
  isAddressInSection base (pCompleteObjectLocator r) (rdata sd) = true /\
  isAddressInSection base (load64 m (pVirtualFunctionTable r)) (text sd) = true /\
  locator_ok und m base sd nm r.

Section Sound.
Variable und : memory -> Z -> option string.
Variable m : memory.
Variable base : Z.
Variable sd : SectionData.
Variable c0 : gmap string RTTI.

Definition old_or (Q : string -> RTTI -> Prop) (c : gmap string RTTI) : Prop :=
  forall nm r, c !! nm = Some r -> c0 !! nm = Some r \/ Q nm r.

Lemma sweep_sound : forall fuel pCOL e st,
  old_or (swept_ok und m base sd) (found st) ->
  old_or (swept_ok und m base sd) (found (sweep und m base sd fuel pCOL e st)).
Proof.
  induction fuel as [|k IH]; intros pCOL e st H; cbn [sweep]; [exact H|].
  destruct (pCOL <? e); [|exact H].
  destruct (isAddressInSection base (load64 m (pCOL + 8)) (rdata sd)) eqn:E1; cbn [negb];
    [|apply IH; exact H].
  destruct (isAddressInSection base (load64 m (pCOL + 8 + 8)) (text sd)) eqn:E2; cbn [negb];
    [|apply IH; exact H].
  apply IH. cbn [found]. intros nm r Hl.
  apply emplace_found_lookup in Hl as [Hl|Hl]; [now apply H|].
  right. apply check_locator_ok in Hl as (Ev & Ec & Hok).
  unfold swept_ok. rewrite Ev, Ec.
  replace (pCOL + 8 + 8 - 8) with (pCOL + 8) by lia.
  split; [reflexivity|]. split; [exact E1|]. split; [exact E2 | exact Hok].
Qed.

Lemma sweep_rdata_sound st :
  old_or (swept_ok und m base sd) (found st) ->
  old_or (swept_ok und m base sd) (found (sweep_rdata und m base sd st)).
Proof.
  unfold sweep_rdata. generalize (rdata sd). intros l. revert st.
  induction l as [|s l IH]; intros st H; cbn [fold_left]; [exact H|].
  apply IH. now apply sweep_sound.
Qed.

End Sound.

(** X9.  Every record that the sweep of [.rdata] adds to the class map has
    passed all the checks of the loop, and is filed under the name that
    [getName] gives for it. *)
Theorem scan_records_are_checked und fuel m os arg st st' ex nm r :
  scan und fuel m os arg st = Some (true, st', ex) ->
  classRTTI st' !! nm = Some r ->
  classRTTI st !! nm = None ->
  exists info sd,
    pInfo (parser st') = Some info /\ sectionData st' = Some sd /\
    swept_ok und m (lpBaseOfDll info) sd nm r.
Proof.
  unfold scan. intros H Hl Hn.
  destruct (parse fuel m os arg (parser st)) as [[[|] p]|]; try discriminate.
  destruct (setSectionData p) as [[|] [sd|]]; try discriminate.
  destruct (pInfo p) as [info|] eqn:Ei; [|discriminate].
  injection H as <- _. cbn [classRTTI parser sectionData] in *.
  exists info, sd. split; [exact Ei|]. split; [reflexivity|].
  destruct (sweep_rdata_sound und m (lpBaseOfDll info) sd (classRTTI st)
              {| found := classRTTI st; examined := [] |}) with (nm := nm) (r := r)
    as [Ho|Hs]; [intros k v Hk; now left | exact Hl | congruence | exact Hs].
Qed.

(** *** The pattern loop in scalar terms *)

Definition byte (m : memory) (a : Z) : Z := m a mod 256.

(** A REX.W prefix, with or without REX.R: 0x48 or 0x4C. *)
Definition is_prefix (b : Z) : bool := Z.land b 0xFB =? 0x48.

(** The bytes that follow the prefix of [lea reg, [rip + d]] and the three
    first bytes of a REX.W [mov [reg], reg]: 8D, a ModRM byte with mod 00
    and r/m 101, the four bytes of [d], 48, 49, 4C or 4D, 89, and a ModRM byte
    with mod 00. *)
Definition is_lea_mov (m : memory) (curr : Z) : bool :=
  (byte m curr =? 0x8D) && (Z.land (byte m (curr + 1)) 0xC7 =? 0x05) &&
  (Z.land (byte m (curr + 6)) 0xFA =? 0x48) && (byte m (curr + 7) =? 0x89) &&
  (Z.land (byte m (curr + 8)) 0xC0 =? 0).

(** The index of the first prefix byte of a list, its length when there is
    none. *)
Fixpoint first_prefix (l : list Z) : Z :=
  match l with
  | [] => 0
  | b :: r => if is_prefix b then 0 else 1 + first_prefix r
  end.

Lemma zip_with_repeat_r {A B C} (f : A -> B -> C) (c : B) : forall (l : list A) n,
  (length l <= n)%nat -> zip_with f l (repeat c n) = map (fun x => f x c) l.
Proof.
  induction l as [|x l IH]; intros n Hn; [reflexivity|].
  destruct n as [|n]; [cbn in Hn; lia|].
  cbn [repeat zip_with map]. rewrite IH by (cbn in Hn; lia). reflexivity.
Qed.

Lemma tzcnt_zero : forall n, tzcnt n 0 = Z.of_nat n.
Proof.
  induction n as [|n IH]; [reflexivity|].
  cbn [tzcnt]. change (Z.odd 0) with false. change (0 / 2) with 0. rewrite IH. lia.
Qed.

Lemma tzcnt_first : forall l n,
  length l = n ->
  tzcnt n (mm_movemask_epi8 (map (fun x => if Z.land x 251 =? 72 then 0xFF else 0) l))
  = first_prefix l.
Proof.
  induction l as [|b l IH]; intros n Hn; subst n; [reflexivity|].
  cbn [length map tzcnt first_prefix]. unfold mm_movemask_epi8. cbn [fold_right].
  fold (mm_movemask_epi8 (map (fun x => if Z.land x 251 =? 72 then 0xFF else 0) l)).
  unfold is_prefix. destruct (Z.land b 251 =? 72).
  - change (Z.b2z (Z.testbit 255 7)) with 1. rewrite Z.odd_add_mul_2. reflexivity.
  - change (Z.b2z (Z.testbit 0 7)) with 0. rewrite Z.odd_add_mul_2. change (Z.odd 0) with false.
    rewrite Z.add_0_l, Z.mul_comm, Z.div_mul by lia. now rewrite IH.
Qed.

Lemma coarse_match (l : list Z) :
  length l = 16%nat ->
  tzcnt 16 (mm_movemask_epi8 (mm_cmpeq_epi8 (mm_and l maskFillNot) sigFill)) = first_prefix l.
Proof.
  intros Hl. change maskFillNot with (repeat 251 16). change sigFill with (repeat 72 16).
  unfold mm_and, mm_cmpeq_epi8.
  rewrite (zip_with_repeat_r Z.land 251 l 16) by lia.
  rewrite zip_with_repeat_r by (rewrite length_map; lia).
  rewrite map_map. now apply tzcnt_first.
Qed.

Lemma first_prefix_range : forall l, 0 <= first_prefix l <= Z.of_nat (length l).
Proof.
  induction l as [|b l IH]; cbn [first_prefix length]; [lia|].
  destruct (is_prefix b); lia.
Qed.

Lemma first_prefix_hit : forall l,
  first_prefix l < Z.of_nat (length l) ->
  is_prefix (nth (Z.to_nat (first_prefix l)) l 0) = true.
Proof.
  induction l as [|b l IH]; cbn [first_prefix length]; [lia|].
  destruct (is_prefix b) eqn:E; [intros _; exact E|].
  intros H. pose proof (first_prefix_range l).
  replace (Z.to_nat (1 + first_prefix l)) with (S (Z.to_nat (first_prefix l))) by lia.
  cbn [nth]. apply IH. lia.
Qed.

Lemma nth_read m : forall n a i,
  (i < n)%nat -> nth i (read m a n) 0 = byte m (a + Z.of_nat i).
Proof.
  induction n as [|n IH]; intros a i Hi; [lia|].
  cbn [read]. destruct i as [|i]; cbn [nth].
  - unfold byte. f_equal. f_equal. lia.
  - rewrite IH by lia. f_equal. lia.
Qed.

Lemma land_byte_255 b : 0 <= b < 256 -> Z.land b 255 = b.
Proof.
  intros H. change 255 with (Z.ones 8). rewrite Z.land_ones by lia.
  apply Z.mod_small. exact H.
Qed.

Lemma lxor_eqb x c : (Z.lxor x c =? 0) = (x =? c).
Proof.
  destruct (Z.eqb_spec x c) as [->|Hne].
  - rewrite Z.lxor_nilpotent. reflexivity.
  - apply Z.eqb_neq. intros H. apply Z.lxor_eq in H. contradiction.
Qed.

Lemma fine_match m curr :
  mm_testz (mm_xor (mm_and (read m curr 16) maskShiftNot) sigShift)
           (mm_xor (mm_and (read m curr 16) maskShiftNot) sigShift)
  = is_lea_mov m curr.
Proof.
  change maskShiftNot with [255; 199; 0; 0; 0; 0; 250; 255; 192; 0; 0; 0; 0; 0; 0; 0].
  change sigShift with [141; 5; 0; 0; 0; 0; 72; 137; 0; 0; 0; 0; 0; 0; 0; 0].
  unfold mm_testz, mm_xor, mm_and, is_lea_mov, byte.
  cbn [read zip_with forallb].
  rewrite !Z.land_diag, !Z.land_0_r, !lxor_eqb.
  change (0 =? 0) with true. rewrite !andb_true_r.
  rewrite !land_byte_255 by (apply Z.mod_pos_bound; lia).
  replace (curr + 1 + 1 + 1 + 1 + 1 + 1) with (curr + 6) by lia.
  replace (curr + 6 + 1) with (curr + 7) by lia.
  replace (curr + 7 + 1) with (curr + 8) by lia.
  rewrite !andb_assoc, !andb_true_r. reflexivity.
Qed.

(** X10.  The test that decides whether the instructions at [curr] are looked
    at is a test on nine bytes: the sixteen bytes at [curr], masked and
    compared as vectors, match exactly when the bytes at [curr] are those
    of a [lea] relative to [rip] followed by a REX.W [mov] to memory. *)
Theorem pattern_test_is_scalar m curr :
  mm_testz (mm_xor (mm_and (read m curr 16) maskShiftNot) sigShift)
           (mm_xor (mm_and (read m curr 16) maskShiftNot) sigShift)
  = is_lea_mov m curr.
Proof. exact (fine_match m curr). Qed.


Lemma text_scan_unfold und m base sd k curr e (c : gmap string RTTI) :
  curr < e ->
  text_scan und m base sd (S k) curr e c =
  if first_prefix (read m curr 16) =? 16 then text_scan und m base sd k (curr + 17) e c
  else if is_lea_mov m (curr + (first_prefix (read m curr 16) + 1))
       then text_scan und m base sd k (curr + (first_prefix (read m curr 16) + 1)) e
              (emplace_found
                 (check_instruction und m base sd (curr + (first_prefix (read m curr 16) + 1)))
                 c)
       else text_scan und m base sd k (curr + (first_prefix (read m curr 16) + 1)) e c.
Proof.
  intros H. cbn [text_scan]. destruct (Z.ltb_spec curr e); [|lia].
  rewrite coarse_match by apply length_read. rewrite fine_match.
  destruct (Z.eqb_spec (first_prefix (read m curr 16)) 16) as [->|_]; reflexivity.
Qed.

(** X11.  One turn of the pattern loop, in scalar terms.  The loop looks among
    the sixteen bytes at [curr] for the first one that is a REX.W prefix
    (0x48 or 0x4C).  When there is one, at index [i], it moves to the byte
    after it and, if the nine bytes there are those of the pattern, runs
    the checks on the instructions found and records what passes.  When
    there is none it resumes at [curr + 17]: the byte at [curr + 16],
    which was not among the sixteen, is passed over and is never tried as
    the first byte of the pattern. *)
Theorem text_scan_step und m base sd k curr e (c : gmap string RTTI) :
  curr < e ->
  let i := first_prefix (read m curr 16) in
  0 <= i <= 16 /\
  (i < 16 -> is_prefix (byte m (curr + i)) = true) /\
  (forall j, 0 <= j < i -> is_prefix (byte m (curr + j)) = false) /\
  text_scan und m base sd (S k) curr e c =
  if i =? 16 then text_scan und m base sd k (curr + 17) e c
  else if is_lea_mov m (curr + (i + 1))
       then text_scan und m base sd k (curr + (i + 1)) e
              (emplace_found (check_instruction und m base sd (curr + (i + 1))) c)
       else text_scan und m base sd k (curr + (i + 1)) e c.
Proof.
  intros H i. subst i.
  pose proof (first_prefix_range (read m curr 16)) as Hr. rewrite length_read in Hr.
  split; [exact Hr|]. split.
  { intros Hi. pose proof (first_prefix_hit (read m curr 16)) as Hh.
    rewrite length_read in Hh. specialize (Hh Hi).
    rewrite nth_read in Hh by lia. rewrite Z2Nat.id in Hh by lia. exact Hh. }
  split; [|now apply text_scan_unfold].
  intros j Hj.
  assert (G : forall l j, 0 <= j < first_prefix l ->
                          is_prefix (nth (Z.to_nat j) l 0) = false).
  { induction l as [|b l IH]; intros j0 Hj0; cbn [first_prefix] in Hj0; [lia|].
    destruct (is_prefix b) eqn:E; [lia|].
    destruct (Z.eq_dec j0 0) as [->|Hn]; [exact E|].
    replace (Z.to_nat j0) with (S (Z.to_nat (j0 - 1))) by lia. cbn [nth]. apply IH. lia. }
  specialize (G _ j Hj). rewrite nth_read in G by lia. rewrite Z2Nat.id in G by lia. exact G.
Qed.

(** *** What the pattern scan records *)

(** A record of the pattern scan: at some [curr] there are, after a REX.W
    prefix, the bytes of the pattern; the two instructions use the same
    register (the REX.R bits and the reg fields agree) and the [mov] does
    not address memory by displacement alone; the vtable is the address
    that the [lea] takes, the eight bytes before it lie in [.rdata] and
    hold the locator, which lies in [.rdata] and passes the checks. *)
Definition matched_ok (und : memory -> Z -> option string) (m : memory) (base : Z)
    (sd : SectionData) (nm : string) (r : RTTI) : Prop :=
  exists curr,
    is_prefix (byte m (curr - 1)) = true /\ is_lea_mov m curr = true /\
    Z.land (byte m (curr + 8)) 7 <> 5 /\
    Z.land (byte m (curr - 1)) 4 = Z.land (byte m (curr + 6)) 4 /\
    Z.land (Z.lxor (byte m (curr + 1)) (byte m (curr + 8))) 0x38 = 0 /\
    pVirtualFunctionTable r = curr + load32s m (curr + 2) + 6 /\
    isAddressInSection base (pVirtualFunctionTable r - 8) (rdata sd) = true /\
    pCompleteObjectLocator r = load64 m (pVirtualFunctionTable r - 8) /\
    isAddressInSection base (pCompleteObjectLocator r) (rdata sd) = true /\
    locator_ok und m base sd nm r.

Lemma land_64_of_192 x : Z.land x 192 = 0 -> Z.land x 64 = 0.
Proof.
  intros H. change 64 with (Z.land 192 64). now rewrite Z.land_assoc, H.
Qed.

Lemma check_instruction_ok und m base sd curr nm r :
  is_prefix (byte m (curr - 1)) = true -> is_lea_mov m curr = true ->
  check_instruction und m base sd curr = Some (nm, r) ->
  matched_ok und m base sd nm r.
Proof.
  intros Hp Hm. unfold check_instruction.
  replace (curr - 1 + 2) with (curr + 1) by lia.
  replace (curr - 1 + 3) with (curr + 2) by lia.
  replace (curr - 1 + 7) with (curr + 6) by lia.
  replace (curr - 1 + 9) with (curr + 8) by lia.
  replace (curr - 1 + 10) with (curr + 9) by lia.
  fold (byte m (curr - 1)) (byte m (curr + 1)) (byte m (curr + 6)) (byte m (curr + 8))
       (byte m (curr + 9)).
  assert (H40 : Z.land (byte m (curr + 8)) 64 = 0).
  { unfold is_lea_mov in Hm. apply andb_prop in Hm as [_ Hm].
    apply Z.eqb_eq in Hm. now apply land_64_of_192. }
  rewrite H40. change (0 =? 0) with true. cbn [orb]. rewrite andb_true_r.
  destruct (Z.eqb_spec (Z.land (byte m (curr + 8)) 7) 5) as [|H5]; [discriminate|].
  destruct (Z.eqb_spec (Z.land (byte m (curr - 1)) 4) (Z.land (byte m (curr + 6)) 4))
    as [H4|]; cbn [negb]; [|discriminate].
  destruct (Z.eqb_spec (Z.land (Z.lxor (byte m (curr + 1)) (byte m (curr + 8))) 56) 0)
    as [H38|]; cbn [negb]; [|discriminate].
  destruct (isAddressInSection base (curr + load32s m (curr + 2) - 2) (rdata sd)) eqn:E1;
    cbn [negb]; [|discriminate].
  destruct (isAddressInSection base (load64 m (curr + load32s m (curr + 2) - 2)) (rdata sd))
    eqn:E2; cbn [negb]; [|discriminate].
  intros Hc. apply check_locator_ok in Hc as (Ev & Ec & Hok).
  exists curr. rewrite Ev, Ec.
  replace (curr + load32s m (curr + 2) + 6 - 8) with (curr + load32s m (curr + 2) - 2) by lia.
  split; [exact Hp|]. split; [exact Hm|]. split; [exact H5|]. split; [exact H4|].
  split; [exact H38|]. split; [reflexivity|]. split; [exact E1|]. split; [reflexivity|].
  split; [exact E2 | exact Hok].
Qed.

Section Matched.
Variable und : memory -> Z -> option string.
Variable m : memory.
Variable base : Z.
Variable sd : SectionData.
Variable c0 : gmap string RTTI.

Lemma text_scan_sound : forall fuel curr e (c : gmap string RTTI),
  old_or c0 (matched_ok und m base sd) c ->
  old_or c0 (matched_ok und m base sd) (text_scan und m base sd fuel curr e c).
Proof.
  induction fuel as [|k IH]; intros curr e c H; [exact H|].
  destruct (Z.ltb_spec curr e) as [Hlt|Hge].
  2: { cbn [text_scan]. destruct (Z.ltb_spec curr e); [lia | exact H]. }
  rewrite text_scan_unfold by exact Hlt.
  pose proof (first_prefix_range (read m curr 16)) as Hr. rewrite length_read in Hr.
  destruct (Z.eqb_spec (first_prefix (read m curr 16)) 16) as [|Hne]; [now apply IH|].
  destruct (is_lea_mov m (curr + (first_prefix (read m curr 16) + 1))) eqn:Em;
    [|now apply IH].
  apply IH. intros nm r Hl.
  apply emplace_found_lookup in Hl as [Hl|Hl]; [now apply H|].
  right. apply (check_instruction_ok und m base sd _ nm r) in Hl; [exact Hl | | exact Em].
  pose proof (first_prefix_hit (read m curr 16)) as Hh.
  rewrite length_read in Hh. specialize (Hh ltac:(lia)).
  rewrite nth_read in Hh by lia. rewrite Z2Nat.id in Hh by lia.
  replace (curr + (first_prefix (read m curr 16) + 1) - 1)
    with (curr + first_prefix (read m curr 16)) by lia.
  exact Hh.
Qed.

Lemma text_scan_sections_sound (c : gmap string RTTI) :
  old_or c0 (matched_ok und m base sd) c ->
  old_or c0 (matched_ok und m base sd) (text_scan_sections und m base sd c).
Proof.
  unfold text_scan_sections. generalize (text sd). intros l. revert c.
  induction l as [|s l IH]; intros c H; cbn [fold_left]; [exact H|].
  apply IH. now apply text_scan_sound.
Qed.

End Matched.

(** X12.  Every record that the pattern scan of [.text] adds to the class map
    comes from an occurrence of the instruction pattern whose operands
    have passed the checks of the loop, and is filed under the name that
    [getName] gives for it. *)
Theorem scan_text_records_are_matched und fuel m os arg st st' nm r :
  scan_text und fuel m os arg st = Some (true, st') ->
  classRTTI st' !! nm = Some r ->
  classRTTI st !! nm = None ->
  exists info sd,
    pInfo (parser st') = Some info /\ sectionData st' = Some sd /\
    matched_ok und m (lpBaseOfDll info) sd nm r.
Proof.
  unfold scan_text. intros H Hl Hn.
  destruct (parse fuel m os arg (parser st)) as [[[|] p]|]; try discriminate.
  destruct (setSectionData p) as [[|] [sd|]]; try discriminate.
  destruct (pInfo p) as [info|] eqn:Ei; [|discriminate].
  injection H as <-. cbn [classRTTI parser sectionData] in *.
  exists info, sd. split; [exact Ei|]. split; [reflexivity|].
  destruct (text_scan_sections_sound und m (lpBaseOfDll info) sd (classRTTI st)
              (classRTTI st)) with (nm := nm) (r := r)
    as [Ho|Hs]; [intros k v Hk; now left | exact Hl | congruence | exact Hs].
Qed.


(** *** The sample module *)

Definition demo_sd : SectionData :=
  {| text := demo_text;
     data := [ {| name := ".data"; size := 0x1000; start := 0x3000; end_ := 0x4000 |} ];
     rdata := [ {| name := ".rdata"; size := 0x1000; start := 0x2000; end_ := 0x3000 |} ] |}.

Definition demo_record : RTTI :=
  {| pVirtualFunctionTable := Demo.base + 0x2010;
     pCompleteObjectLocator := Demo.base + 0x2100;
     pTypeDescriptor := Demo.base + 0x3000;
     pClassHierarchyDescriptor := Demo.base + 0x2120;
     pBaseClassDescriptor := Demo.base + 0x2140 |}.

Definition fresh : RTTIScanner.state :=
  {| parser := no_state; classRTTI := ∅; sectionData := None |}.

Definition demo_scanned : RTTIScanner.state :=
  {| parser := demo_parsed;
     classRTTI := {[ "CS::PlayerIns"%string := demo_record ]};
     sectionData := Some demo_sd |}.

(** The slots that the sweep reads in the sample module. *)
Definition demo_examined : list Z :=
  match scan Demo.undecorate 16 Demo.image None (Some Demo.module) fresh with
  | Some (_, _, ex) => ex
  | None => []
  end.

Lemma demo_scan :
  scan Demo.undecorate 16 Demo.image None (Some Demo.module) fresh
  = Some (true, demo_scanned, demo_examined).
Proof. vm_compute. reflexivity. Qed.

Lemma demo_scan_text :
  scan_text Demo.undecorate 16 Demo.image None (Some Demo.module) fresh
  = Some (true, demo_scanned).
Proof. vm_compute. reflexivity. Qed.

Lemma scan_records_are_checked_witness :
  exists info sd,
    pInfo (parser demo_scanned) = Some info /\ sectionData demo_scanned = Some sd /\
    swept_ok Demo.undecorate Demo.image (lpBaseOfDll info) sd "CS::PlayerIns" demo_record.
Proof.
  apply (scan_records_are_checked Demo.undecorate 16 Demo.image None (Some Demo.module)
           fresh demo_scanned demo_examined "CS::PlayerIns" demo_record).
  - exact demo_scan.
  - reflexivity.
  - reflexivity.
Defined.

Lemma text_scan_step_witness :
  let i := first_prefix (read Demo.image (Demo.base + 0x1000) 16) in
  0 <= i <= 16 /\
  (i < 16 -> is_prefix (byte Demo.image (Demo.base + 0x1000 + i)) = true) /\
  (forall j, 0 <= j < i -> is_prefix (byte Demo.image (Demo.base + 0x1000 + j)) = false) /\
  text_scan Demo.undecorate Demo.image Demo.base demo_sd 4 (Demo.base + 0x1000)
    (Demo.base + 0x2000) ∅ =
  if i =? 16
  then text_scan Demo.undecorate Demo.image Demo.base demo_sd 3 (Demo.base + 0x1000 + 17)
         (Demo.base + 0x2000) ∅
  else if is_lea_mov Demo.image (Demo.base + 0x1000 + (i + 1))
       then text_scan Demo.undecorate Demo.image Demo.base demo_sd 3
              (Demo.base + 0x1000 + (i + 1)) (Demo.base + 0x2000)
              (emplace_found
                 (check_instruction Demo.undecorate Demo.image Demo.base demo_sd
                    (Demo.base + 0x1000 + (i + 1))) ∅)
       else text_scan Demo.undecorate Demo.image Demo.base demo_sd 3
              (Demo.base + 0x1000 + (i + 1)) (Demo.base + 0x2000) ∅.
Proof.
  apply (text_scan_step Demo.undecorate Demo.image Demo.base demo_sd 3 (Demo.base + 0x1000)
           (Demo.base + 0x2000) ∅).
  unfold Demo.base. lia.
Defined.

Lemma scan_text_records_are_matched_witness :
  exists info sd,
    pInfo (parser demo_scanned) = Some info /\ sectionData demo_scanned = Some sd /\
    matched_ok Demo.undecorate Demo.image (lpBaseOfDll info) sd "CS::PlayerIns" demo_record.
Proof.
  apply (scan_text_records_are_matched Demo.undecorate 16 Demo.image None (Some Demo.module)
           fresh demo_scanned "CS::PlayerIns" demo_record).
  - exact demo_scan_text.
  - reflexivity.
  - reflexivity.
Defined.

End ScannerProps.

(** ** HookTemplates.h and VFTHookTemplate: chains of template hooks *)

Module TemplateProps.
Import Mem MemFacts VFTHook HookFacts HookTemplates.

(** The two hook types of the [VFTHook] module, instruction by
    instruction. *)
Lemma HookLayout_code_bytes : asmRaw HookLayout = concat HookLayout_code.
Proof. reflexivity. Qed.

Lemma EntryHook_is_template : EntryHook = template EntryHook_code 0.
Proof. reflexivity. Qed.

Lemma template_ok (code : list (list Z)) (pad : nat) :
  forallb (fun b => (0 <=? b) && (b <? 256)) (concat code) = true ->
  0 < Z.of_nat (length (concat code) + pad) <= 4000 ->
  layout_ok (template code pad).
Proof.
  intros Hb Hn.
  assert (Hs : 80 + Z.of_nat (length (concat code) + pad)
               <= (80 + Z.of_nat (length (concat code) + pad) + 7) / 8 * 8
               < 80 + Z.of_nat (length (concat code) + pad) + 8).
  { Z.div_mod_to_equations. lia. }
  constructor; cbn [magic sizeof_data sizeof_hook off_mutex off_context off_previous
                    off_fnNew off_fnHooked asmRaw template]; unfold page_size;
    try lia.
  - unfold image. cbn [magic sizeof_data sizeof_hook asmRaw template].
    rewrite !length_app, length_encode, !repeat_length.
    change (Z.to_nat (80 - 8)) with 72%nat. lia.
  - apply List.Forall_app. split; [now apply Forall_bytes_dec|].
    apply List.Forall_forall. intros x Hx. apply repeat_spec in Hx. lia.
  - rewrite length_app, repeat_length. lia.
  - vm_compute. intros H. discriminate H.
  - intros o [= <-]. lia.
Qed.

Lemma templates_ok : Forall layout_ok templates.
Proof.
  unfold templates. rewrite EntryHook_is_template.
  repeat (constructor; [apply template_ok; [vm_compute; reflexivity | cbn; lia]|]).
  constructor.
Qed.


(** Every template starts with the same [HookData]. *)
Lemma template_data T :
  In T templates ->
  magic T = magic EntryHook /\ sizeof_data T = 80 /\ off_mutex T = 16 /\
  off_context T = Some 32 /\ off_previous T = 48 /\ off_fnNew T = 56 /\
  off_fnHooked T = 64.
Proof.
  unfold templates. cbn [In]. intros H.
  repeat (destruct H as [<-|H]; [repeat split|]). contradiction.
Qed.

Lemma template_layout T : In T templates -> layout_ok T.
Proof. intros H. pose proof templates_ok as Hok. rewrite List.Forall_forall in Hok. auto. Qed.

(** The destructor of [VFTHookTemplate] is the same function for every
    template: it works on [HookData] alone. *)
Lemma template_destroy T fuel A w :
  In T templates -> destroy T fuel A w = destroy EntryHook fuel A w.
Proof.
  unfold templates. cbn [In]. intros H.
  repeat (destruct H as [<-|H]; [reflexivity|]). contradiction.
Qed.

(** The state of a slot that carries hooks of the templates; what makes
    a chain is written in terms of [HookData] alone. *)
Definition template_chain : World -> Z -> Z -> list Z -> Prop := chain EntryHook.

Lemma linked_template T : In T templates -> forall m L above F0 e,
  linked T m above L F0 e <-> linked EntryHook m above L F0 e.
Proof.
  intros HT m. destruct (template_data T HT) as (Em & Es & _ & _ & Ep & _ & Ef).
  induction L as [|A L IH]; intros above F0 e; cbn [linked]; [reflexivity|].
  rewrite Em, Es, Ep, Ef, IH. reflexivity.
Qed.

Lemma chain_template T : In T templates -> forall w S F0 L,
  chain T w S F0 L <-> template_chain w S F0 L.
Proof.
  intros HT w S F0 L. destruct (template_data T HT) as (Em & Es & _).
  unfold template_chain.
  split; intros [C1 C2 C3 C4 C5 C6 C7 C8 C9]; constructor; try assumption;
    try (rewrite Es in *; assumption); try (rewrite <- Es in *; assumption).
  - rewrite Es, Em in C7. exact C7.
  - now apply (linked_template T HT).
  - rewrite Es, Em. exact C7.
  - now apply (linked_template T HT).
Qed.



(** *** Where the trampolines branch *)

(** X13.  In every trampoline, the calls and jumps through a pointer that is
    addressed relative to [rip] go through fields of the [HookData] in
    front of the trampoline: [fnNew], [fnHooked], and [extra] for the
    return.  The one exception is [ExitHookV]: its call to the hooking
    function does not go through [fnNew] but through the eight bytes at
    offset 84 of the object, which are bytes 4 to 11 of the trampoline
    itself. *)
Theorem trampoline_branches :
  asmRaw HookLayout = concat HookLayout_code /\
  asmRaw EntryHook = concat EntryHook_code /\
  rip_operands is_branch (sizeof_data HookLayout) HookLayout_code
  = [off_fnNew HookLayout; off_fnHooked HookLayout] /\
  (let fnNew := off_fnNew EntryHook in
   let fnHooked := off_fnHooked EntryHook in
   let extra := 72 in
   rip_operands is_branch 80 EntryHook_code = [fnNew; fnHooked] /\
   rip_operands is_branch 80 ExitHook_code = [fnHooked; fnNew; extra] /\
   rip_operands is_branch 80 ReturnHook_code = [fnHooked; fnNew] /\
   rip_operands is_branch 80 ContextHook_code = [fnNew; fnHooked] /\
   rip_operands is_branch 80 EntryHookV_code = [fnNew; fnHooked] /\
   rip_operands is_branch 80 ExitHookV_code = [fnHooked; 84; extra] /\
   rip_operands is_branch 80 ReturnHookV_code = [fnHooked; fnNew] /\
   rip_operands is_branch 80 ContextHookV_code = [fnNew; fnHooked]) /\
  decode (firstn 8 (skipn (Z.to_nat (84 - sizeof_data ExitHookV)) (asmRaw ExitHookV)))
  = 0x8948028B49FFFFFF.
Proof. cbv zeta. repeat split; vm_compute; reflexivity. Qed.

End TemplateProps.

(** ** VFTHook.h: what an install and an uninstall touch *)

Module HookProps.
Import Mem MemFacts VFTHook HookFacts.

Lemma write_out_byte m a l x :
  x < a \/ a + Z.of_nat (length l) <= x -> write m a l x = m x.
Proof.
  intros H. unfold write.
  destruct (Z.leb_spec a x); destruct (Z.ltb_spec x (a + Z.of_nat (length l)));
    cbn [andb]; try reflexivity; lia.
Qed.

Lemma store64_out_byte m a v x : x < a \/ a + 8 <= x -> store64 m a v x = m x.
Proof.
  intros H. unfold store64. apply write_out_byte. rewrite length_encode. lia.
Qed.

Section Explicit.
Variable T : HookType.
Hypothesis OK : layout_ok T.

(** A byte outside a new hook object's page is not written while the
    object is set up. *)
Lemma setup_mem_out_byte A S function w x :
  page A -> x < A \/ A + page_size <= x -> setup_mem T A S function w x = mem w x.
Proof.
  intros HA Hx. unfold setup_mem.
  pose proof (data_size T OK); pose proof (mutex_field T OK);
  pose proof (previous_field T OK); pose proof (fnNew_field T OK);
  pose proof (fnHooked_field T OK). unfold page_size in *.
  rewrite !store64_out_byte by lia.
  assert (Hc : forall m,
             (match off_context T with
              | None => m
              | Some o => store64 (store64 m (A + o) (hd 0 (heap w))) (A + o + 8)
                            (hd 0 (heap w))
              end) x = m x).
  { intros m. destruct (off_context T) as [o|] eqn:Eo; [|reflexivity].
    pose proof (context_field T OK o Eo). rewrite !store64_out_byte by lia. reflexivity. }
  rewrite Hc. rewrite !write_out_byte; [reflexivity | |].
  - rewrite repeat_length. lia.
  - rewrite (image_size T OK). lia.
Qed.

(** The write that puts a new hook [A] above the hook on top of a chain. *)
Definition link_top (m : memory) (L : list Z) (A : Z) : memory :=
  match L with
  | H :: _ => store64 m (H + off_previous T) A
  | [] => m
  end.

(** The system calls of an install on a slot that carries the hooks [L]. *)
Definition install_calls (w : World) (S : Z) (L : list Z) (A : Z) : list call :=
  match L with
  | [] => [Protect S (negb (stuck w S)); Protect S true; Alloc A]
  | H :: _ =>
      [Unlock (get_mutex T w H); Protect S (negb (stuck w S)); Protect S true;
       Protect (H + off_previous T) (negb (stuck w (H + off_previous T)));
       Protect (H + off_previous T) true;
       Lock (get_mutex T w H); Alloc A]
  end.

Lemma install_explicit w S F0 L A rest V idx function :
  chain T w S F0 L -> pages w = A :: rest -> page A -> ~ In A L ->
  outside S A -> outside (wrap64 (F0 - sizeof_data T)) A -> wrap64 (V + 8 * idx) = S ->
  hook T V idx function w =
  (A, {| mem := store64 (link_top (setup_mem T A S function w) L A) S (A + sizeof_data T);
         pages := rest; heap := setup_heap T w; frozen := frozen w; stuck := stuck w;
         calls := install_calls w S L A ++ calls w |}).
Proof.
  intros [Cs Cp Cn Cso Cpo Cps Cpr Cf Cl] Hp HA HnA HS HP ES.
  destruct L as [|H L]; cbn [linked] in Cl.
  - rewrite <- Cl in HP, Cpr.
    rewrite (install_alone T OK A S function rest w Hp HA HS HP Cpr V idx ES (Cf S)).
    reflexivity.
  - destruct Cl as (Es & Hm & _).
    apply List.Forall_cons_iff in Cp as [HH _].
    assert (HAH : A <> H) by (intros ->; apply HnA; now left).
    destruct (page_value T OK H HH) as [HHv _].
    pose proof (mutex_field T OK) as Fm.
    rewrite (hook_setup T A S function rest w Hp HA V idx ES).
    rewrite (link_chained T OK A S function rest w HA HS H).
    + rewrite (rdataWrite_ok (H + off_previous T)) by apply Cf. cbn [snd].
      rewrite (rdataWrite_ok S) by apply Cf. reflexivity.
    + rewrite Es. replace (H + sizeof_data T - sizeof_data T) with H by lia.
      now apply PEFacts.wrap64_small.
    + replace H with (H + 0) by lia.
      apply (page_outside T OK A H 0 HA HH HAH); [lia|]. pose proof (data_size T OK). lia.
    + apply (page_outside T OK A H (off_mutex T) HA HH HAH); lia.
    + exact Hm.
Qed.


(** The cell that takes over what a removed hook hooked: the [fnHooked]
    field of the hook above it, or the slot when it was on top. *)
Definition unlink_cell (S : Z) (L1 : list Z) : Z :=
  match L1 with
  | [] => S
  | _ => List.last L1 S + off_fnHooked T
  end.

(** The system calls of the destructor of the hook [A], with the hooks
    [L1] above it and the hooks [L2] below it. *)
Definition destroy_calls (w : World) (S : Z) (L1 : list Z) (A : Z) (L2 : list Z) : list call :=
  Free A :: Unlock (get_mutex T w (hd A L1))
  :: Protect (unlink_cell S L1) (negb (stuck w (unlink_cell S L1)))
  :: Protect (unlink_cell S L1) true
  :: match L2 with
     | N :: _ => [Protect (N + off_previous T) (negb (stuck w (N + off_previous T)));
                  Protect (N + off_previous T) true]
     | [] => []
     end
  ++ [Lock (get_mutex T w (hd A L1))].

Lemma destroy_explicit w S F0 L1 A L2 fuel :
  chain T w S F0 (L1 ++ A :: L2) -> (length L1 < fuel)%nat ->
  destroy T fuel A w =
  Some {| mem := store64 (relink T (mem w) L2 (List.last L1 S)) (unlink_cell S L1)
                   (load64 (mem w) (A + off_fnHooked T));
          pages := pages w; heap := heap w; frozen := frozen w; stuck := stuck w;
          calls := destroy_calls w S L1 A L2 ++ calls w |}.
Proof.
  intros [Cs Cp Cn Cso Cpo Cps Cpr Cf Cl] Hfuel.
  pose proof (previous_field T OK) as Fp. pose proof (fnHooked_field T OK) as Ff.
  destruct (Forall_remove_mid _ _ _ _ Cp) as (HA & Cp1 & Cp2 & _).
  destruct (Forall_remove_mid _ _ _ _ Cso) as (HSA & Cso1 & Cso2 & _).
  pose proof (List.NoDup_remove_2 _ _ _ Cn) as HnA.
  assert (HnA1 : ~ In A L1) by (intros Hin; apply HnA, in_or_app; now left).
  assert (HnA2 : ~ In A L2) by (intros Hin; apply HnA, in_or_app; now right).
  destruct (linked_at T _ _ _ _ _ _ _ Cl) as (HAm & HAp & HAl & Hall).
  assert (HA0 : A <> 0) by (destruct HA; lia).
  assert (HSm : load64 (mem w) S <> magic T).
  { destruct L1 as [|C L1]; cbn [app linked] in Cl; destruct Cl as (-> & _).
    - now apply page_body_not_magic.
    - apply page_body_not_magic; [exact OK|].
      now apply List.Forall_cons_iff in Cp1 as [HC _]. }
  pose proof (find_top_chain T w A L1 A L2 S F0 _ fuel HAm Cl HSm Hfuel) as Htop.
  unfold destroy_calls, get_mutex.
  induction L1 as [|B L1 _] using rev_ind.
  - cbn [List.last app hd length unlink_cell] in *.
    assert (HX : forall N, In N L2 -> sep (N + off_previous T) S).
    { intros N HN. apply sep_sym, (outside_cell T OK); try lia.
      rewrite List.Forall_forall in Cso2. now apply Cso2. }
    pose proof (next_ok T OK w A L2 F0 S HA Cp2 HnA2 Cf Cpr HAl HX) as Hnext.
    rewrite (destroy_step T fuel A w A S _ (next_of L2) false HA0 Htop HAm HAp
               eq_refl Hnext HSm).
    destruct L2 as [|N L2]; cbn [next_of relink].
    + rewrite rdataWrite_ok by apply Cf. reflexivity.
    + rewrite (rdataWrite_ok (N + off_previous T)) by apply Cf. cbn [snd].
      rewrite (rdataWrite_ok S) by apply Cf. reflexivity.
  - rewrite List.last_last in HAp. rewrite List.last_last.
    assert (HB : page B).
    { apply List.Forall_app in Cp1 as [_ HB]. now apply List.Forall_cons_iff in HB as [HB _]. }
    assert (HBm : load64 (mem w) B = magic T).
    { apply Hall. apply in_or_app. right. now left. }
    assert (HBL2 : forall N, In N L2 -> N <> B).
    { intros N HN ->.
      rewrite <- app_assoc in Cn. cbn [app] in Cn.
      apply List.NoDup_remove_2 in Cn. apply Cn.
      apply in_or_app. right. now right. }
    assert (HX : forall N, In N L2 -> sep (N + off_previous T) B).
    { intros N HN.
      assert (HNp : page N) by (rewrite List.Forall_forall in Cp2; now apply Cp2).
      apply outside_base.
      apply (page_outside T OK B N (off_previous T)); try assumption; try lia.
      intros E. apply (HBL2 N HN). now symmetry. }
    pose proof (next_ok T OK w A L2 F0 B HA Cp2 HnA2 Cf Cpr HAl HX) as Hnext.
    rewrite (destroy_step T fuel A w _ B _ (next_of L2) true HA0 Htop HAm HAp
               eq_refl Hnext HBm).
    assert (Eu : unlink_cell S (L1 ++ [B]) = B + off_fnHooked T).
    { unfold unlink_cell. rewrite List.last_last. destruct L1; reflexivity. }
    rewrite Eu.
    destruct L2 as [|N L2]; cbn [next_of relink].
    + rewrite rdataWrite_ok by apply Cf. reflexivity.
    + rewrite (rdataWrite_ok (N + off_previous T)) by apply Cf. cbn [snd].
      rewrite (rdataWrite_ok (B + off_fnHooked T)) by apply Cf. reflexivity.
Qed.

End Explicit.


(** X14.  An install leaves the hooks that are already on the slot as they
    were, but for the [previous] field of the one on top: every other byte
    of their pages keeps its value.  On a hooked slot the two writes are
    made between a lock and an unlock of the mutex of the hook that was on
    top; on an unhooked slot no lock is taken.  Each write is framed by
    two protection changes, and the page of the new hook is the only one
    allocated. *)
Theorem install_touches (T : HookType) w S F0 L A rest V idx function :
  layout_ok T -> chain T w S F0 L ->
  pages w = A :: rest -> page A -> ~ In A L ->
  outside S A -> outside (wrap64 (F0 - sizeof_data T)) A -> wrap64 (V + 8 * idx) = S ->
  exists w',
    hook T V idx function w = (A, w') /\
    calls w' = install_calls T w S L A ++ calls w /\
    frozen w' = frozen w /\ pages w' = rest /\
    (forall B x, In B L -> B <= x < B + page_size ->
       x < hd B L + off_previous T \/ hd B L + off_previous T + 8 <= x ->
       mem w' x = mem w x).
Proof.
  intros OK HC Hp HA HnA HS HP ES.
  eexists. split; [apply (install_explicit T OK w S F0 L A rest V idx function); assumption|].
  cbn [calls frozen pages mem]. repeat split.
  intros B x HB Hx HxH.
  destruct HC as [_ Cp _ Cso _ _ _ _ _].
  assert (HBp : page B) by (rewrite List.Forall_forall in Cp; now apply Cp).
  assert (HBs : outside S B) by (rewrite List.Forall_forall in Cso; now apply Cso).
  assert (HAB : A <> B) by (intros ->; contradiction).
  pose proof (page_apart A B HA HBp HAB) as Hap.
  rewrite store64_out_byte by (unfold outside in HBs; lia).
  destruct L as [|H L]; [destruct HB|]. cbn [link_top hd] in *.
  rewrite store64_out_byte by exact HxH.
  apply setup_mem_out_byte; [exact OK | exact HA | lia].
Qed.

(** X15.  The destructor of a hook of a chain leaves the other hooks of the
    chain as they were, but for the cell that entered the hook, which is
    the [fnHooked] field of the hook above it or the slot, and the
    [previous] field of the hook below it when there is one: every other
    byte of their pages keeps its value.  The writes are made between a
    lock and an unlock of the mutex of the hook on top of the chain, each
    framed by two protection changes, and the page of the hook is freed
    last, after the unlock. *)
Theorem destroy_touches (T : HookType) w S F0 L1 A L2 fuel :
  layout_ok T -> chain T w S F0 (L1 ++ A :: L2) -> (length L1 < fuel)%nat ->
  exists w',
    destroy T fuel A w = Some w' /\
    calls w' = destroy_calls T w S L1 A L2 ++ calls w /\
    frozen w' = frozen w /\ pages w' = pages w /\
    (forall B x, In B (L1 ++ L2) -> B <= x < B + page_size ->
       x < unlink_cell T S L1 \/ unlink_cell T S L1 + 8 <= x ->
       match L2 with
       | N :: _ => x < N + off_previous T \/ N + off_previous T + 8 <= x
       | [] => True
       end ->
       mem w' x = mem w x).
Proof.
  intros OK HC Hf.
  eexists. split; [apply (destroy_explicit T OK w S F0 L1 A L2 fuel); assumption|].
  cbn [calls frozen pages heap mem]. repeat split.
  intros B x _ _ Hx HxN. rewrite store64_out_byte by exact Hx.
  destruct L2 as [|N L2]; cbn [relink]; [reflexivity|].
  now rewrite store64_out_byte by exact HxN.
Qed.


(** X16.  [rdataWrite] returns true exactly when both protection changes
    succeed.  When the first fails it has made that one call and the
    eight bytes at the address are as they were; when the first succeeds
    they hold the pointer, also when the second change then fails and the
    result is false.  No byte outside these eight is changed. *)
Theorem rdataWrite_writes_pointer pAddress pointer w :
  0 <= pointer < 2 ^ 64 ->
  fst (rdataWrite pAddress pointer w) = negb (frozen w pAddress) && negb (stuck w pAddress) /\
  load64 (mem (snd (rdataWrite pAddress pointer w))) pAddress
  = (if frozen w pAddress then load64 (mem w) pAddress else pointer) /\
  (forall x, x < pAddress \/ pAddress + 8 <= x ->
     mem (snd (rdataWrite pAddress pointer w)) x = mem w x) /\
  calls (snd (rdataWrite pAddress pointer w))
  = (if frozen w pAddress then [Protect pAddress false]
     else [Protect pAddress (negb (stuck w pAddress)); Protect pAddress true]) ++ calls w.
Proof.
  intros Hv. rewrite rdataWrite_eq. cbn [fst snd mem calls].
  split; [reflexivity|]. unfold attempt.
  destruct (frozen w pAddress).
  - repeat split.
  - split; [now apply load64_store64_same|].
    split; [intros x Hx; now apply store64_out_byte | reflexivity].
Qed.

(** X17.  When [VirtualAlloc] gives no page, the constructor returns with
    [allocationBase] null: nothing has been written, no mutex has been
    allocated, and the one system call made is the failed allocation.  The
    destructor of such a handle returns at once. *)
Theorem install_without_page (T : HookType) V idx function w fuel :
  hd 0 (pages w) = 0 ->
  fst (new_hook T V idx function w) = 0 /\
  mem (snd (new_hook T V idx function w)) = mem w /\
  heap (snd (new_hook T V idx function w)) = heap w /\
  calls (snd (new_hook T V idx function w)) = Alloc 0 :: calls w /\
  destroy T fuel (fst (new_hook T V idx function w)) (snd (new_hook T V idx function w))
  = Some (snd (new_hook T V idx function w)).
Proof.
  intros H. unfold new_hook, hook, VirtualAlloc.
  destruct (pages w) as [|A rest]; cbn in H; [repeat split|].
  subst A. repeat split.
Qed.


(** *** The sample world *)

(** The sample world after one and after two installs on slot 20. *)
Definition hooked_once : World := snd (new_hook HookLayout 0x12000 20 0x15000 sample_world).
Definition hooked_twice : World := snd (new_hook HookLayout 0x12000 20 0x16000 hooked_once).

Ltac install_sample T OK w L A rest f C0 :=
  let Hp := fresh "Hp" in let HA := fresh "HA" in let HnA := fresh "HnA" in
  let HS := fresh "HS" in let HP := fresh "HP" in let ES := fresh "ES" in
  let Hf := fresh "Hf" in
  assert (Hp : pages w = A :: rest) by (vm_compute; reflexivity);
  assert (HA : page A) by side;
  assert (HnA : ~ In A L)
    by (cbn [In]; intros H; repeat (destruct H as [H|H]; [discriminate H|]); exact H);
  assert (HS : outside 0x120A0 A) by side;
  assert (HP : outside (wrap64 (0x11000 - sizeof_data T)) A) by side;
  assert (ES : wrap64 (0x12000 + 8 * 20) = 0x120A0) by reflexivity;
  assert (Hf : 0 <= f < 2 ^ 64) by lia;
  destruct (chain_install T OK w 0x120A0 0x11000 L A rest 0x12000 20 f C0 Hp HA HnA HS HP ES Hf)
    as (? & ?E & ?HC & _).

Lemma hooked_once_chain : chain HookLayout hooked_once 0x120A0 0x11000 [0x20000].
Proof.
  install_sample HookLayout HookLayout_ok sample_world (@nil Z) 0x20000 [0x30000; 0x40000]
    0x15000 sample_unhooked.
  unfold hooked_once, new_hook. rewrite E. assumption.
Qed.

Lemma hooked_twice_chain : chain HookLayout hooked_twice 0x120A0 0x11000 [0x30000; 0x20000].
Proof.
  install_sample HookLayout HookLayout_ok hooked_once [0x20000] 0x30000 [0x40000]
    0x16000 hooked_once_chain.
  unfold hooked_twice, new_hook. rewrite E. assumption.
Qed.

Lemma install_touches_witness :
  exists w',
    hook HookLayout 0x12000 20 0x16000 hooked_once = (0x30000, w') /\
    calls w' = install_calls HookLayout hooked_once 0x120A0 [0x20000] 0x30000
               ++ calls hooked_once /\
    frozen w' = frozen hooked_once /\ pages w' = [0x40000] /\
    (forall B x, In B [0x20000] -> B <= x < B + page_size ->
       x < hd B [0x20000] + off_previous HookLayout
       \/ hd B [0x20000] + off_previous HookLayout + 8 <= x ->
       mem w' x = mem hooked_once x).
Proof.
  apply (install_touches HookLayout hooked_once 0x120A0 0x11000 [0x20000] 0x30000 [0x40000]
           0x12000 20 0x16000 HookLayout_ok hooked_once_chain).
  - vm_compute. reflexivity.
  - side.
  - intros [H|[]]. discriminate H.
  - side.
  - side.
  - reflexivity.
Defined.

Lemma destroy_touches_witness :
  exists w',
    destroy HookLayout 2 0x20000 hooked_twice = Some w' /\
    calls w' = destroy_calls HookLayout hooked_twice 0x120A0 [0x30000] 0x20000 []
               ++ calls hooked_twice /\
    frozen w' = frozen hooked_twice /\ pages w' = pages hooked_twice /\
    (forall B x, In B ([0x30000] ++ []) -> B <= x < B + page_size ->
       x < unlink_cell HookLayout 0x120A0 [0x30000]
       \/ unlink_cell HookLayout 0x120A0 [0x30000] + 8 <= x ->
       True -> mem w' x = mem hooked_twice x).
Proof.
  apply (destroy_touches HookLayout hooked_twice 0x120A0 0x11000 [0x30000] 0x20000 [] 2
           HookLayout_ok hooked_twice_chain).
  cbn. lia.
Defined.

(** The slot of the sample world when its protection can be changed but
    not put back: the result is false and the slot holds the pointer. *)
Lemma rdataWrite_writes_pointer_witness :
  fst (rdataWrite 0x120A0 0x15000 (jam 0x120A0 sample_world)) = false /\
  load64 (mem (snd (rdataWrite 0x120A0 0x15000 (jam 0x120A0 sample_world)))) 0x120A0 = 0x15000 /\
  (forall x, x < 0x120A0 \/ 0x120A0 + 8 <= x ->
     mem (snd (rdataWrite 0x120A0 0x15000 (jam 0x120A0 sample_world))) x
     = mem (jam 0x120A0 sample_world) x) /\
  calls (snd (rdataWrite 0x120A0 0x15000 (jam 0x120A0 sample_world)))
  = [Protect 0x120A0 false; Protect 0x120A0 true].
Proof.
  destruct (rdataWrite_writes_pointer 0x120A0 0x15000 (jam 0x120A0 sample_world))
    as (E1 & E2 & E3 & E4); [lia|].
  split; [rewrite E1; reflexivity|]. split; [rewrite E2; reflexivity|].
  split; [exact E3|]. rewrite E4. reflexivity.
Defined.

(** The sample world when [VirtualAlloc] has no page to give. *)
Definition no_page : World :=
  {| mem := mem sample_world; pages := []; heap := heap sample_world;
     frozen := frozen sample_world; stuck := stuck sample_world; calls := [] |}.

Lemma install_without_page_witness :
  fst (new_hook EntryHook 0x12000 20 0x15000 no_page) = 0 /\
  mem (snd (new_hook EntryHook 0x12000 20 0x15000 no_page)) = mem no_page /\
  heap (snd (new_hook EntryHook 0x12000 20 0x15000 no_page)) = heap no_page /\
  calls (snd (new_hook EntryHook 0x12000 20 0x15000 no_page)) = Alloc 0 :: calls no_page /\
  destroy EntryHook 1 (fst (new_hook EntryHook 0x12000 20 0x15000 no_page))
    (snd (new_hook EntryHook 0x12000 20 0x15000 no_page))
  = Some (snd (new_hook EntryHook 0x12000 20 0x15000 no_page)).
Proof. apply (install_without_page EntryHook 0x12000 20 0x15000 no_page 1). reflexivity. Defined.

End HookProps.

(** ** Chains of hooks of the templates *)

Module TemplateChains.
Import Mem MemFacts VFTHook HookFacts HookTemplates TemplateProps HookProps.

(** The [context] field of a new template hook. *)
Lemma setup_context T A S function w :
  In T templates -> page A -> 0 <= hd 0 (heap w) < 2 ^ 64 ->
  load64 (setup_mem T A S function w) (A + 32) = hd 0 (heap w) /\
  load64 (setup_mem T A S function w) (A + 40) = hd 0 (heap w).
Proof.
  intros HT HA Hh. destruct (template_data T HT) as (_ & Es & Em & Ec & Ep & En & Ef).
  unfold setup_mem. rewrite Ec, Em, Ep, En, Ef.
  split.
  - rewrite !load64_store64_other by lia. now apply load64_store64_same.
  - rewrite !(load64_store64_other _ _ _ (A + 40)) by lia.
    replace (A + 40) with (A + 32 + 8) by lia. now apply load64_store64_same.
Qed.

(** X18.  A hook of any template is installed on a slot that carries hooks of
    any templates: it goes on top of them.  The slot enters its
    trampoline, the bytes of [asmRaw] of its template, eighty bytes into
    the object; [fnNew] is the function given, and [allocator] and
    [context] hold the [HookContext] that the constructor of [HookData]
    has allocated. *)
Theorem template_install_on_chain (U : HookType) w S F0 L A rest V idx function :
  In U templates -> template_chain w S F0 L ->
  pages w = A :: rest -> page A -> ~ In A L ->
  outside S A -> outside (wrap64 (F0 - 80)) A -> wrap64 (V + 8 * idx) = S ->
  0 <= function < 2 ^ 64 -> 0 <= hd 0 (heap w) < 2 ^ 64 ->
  exists w',
    hook U V idx function w = (A, w') /\ template_chain w' S F0 (A :: L) /\
    load64 (mem w') S = A + 80 /\
    read (mem w') (A + 80) (length (asmRaw U)) = asmRaw U /\
    get_fnNew U w' A = function /\
    load64 (mem w') (A + 32) = hd 0 (heap w) /\
    load64 (mem w') (A + 40) = hd 0 (heap w).
Proof.
  intros HU HC Hp HA HnA HS HP ES Hfn Hh.
  pose proof (template_layout U HU) as OK.
  destruct (template_data U HU) as (Em & Es & Emx & Ec & Ep & En & Ef).
  apply (chain_template U HU) in HC. rewrite <- Es in HP.
  destruct (chain_install U OK w S F0 L A rest V idx function HC Hp HA HnA HS HP ES Hfn)
    as (w' & E & HC' & _ & Hnew).
  exists w'. split; [exact E|]. split; [now apply (chain_template U HU)|].
  split.
  { destruct (chain_linked _ _ _ _ _ HC') as (Hs & _). now rewrite <- Es. }
  rewrite (install_explicit U OK w S F0 L A rest V idx function HC Hp HA HnA HS HP ES) in E.
  injection E as <-. cbn [mem]. rewrite <- Es.
  assert (HcL : forall o, 0 <= o -> o + 8 <= page_size ->
                match L with
                | H :: _ => sep (H + off_previous U) (A + o)
                | [] => True
                end).
  { intros o Ho1 Ho2. destruct L as [|H L]; [exact I|].
    destruct HC as [_ Cp _ _ _ _ _ _ _]. apply List.Forall_cons_iff in Cp as [HH _].
    assert (HAH : A <> H) by (intros ->; apply HnA; now left).
    pose proof (page_apart A H HA HH HAH). pose proof (previous_field U OK).
    pose proof (data_size U OK). unfold sep, page_size in *. lia. }
  split.
  { rewrite read_store64_out.
    2: { pose proof (asm_size U OK). pose proof (data_size U OK).
         unfold outside, page_size in *. lia. }
    destruct L as [|H L]; cbn [link_top]; [now apply setup_asm|].
    rewrite read_store64_out; [now apply setup_asm|].
    destruct HC as [_ Cp _ _ _ _ _ _ _]. apply List.Forall_cons_iff in Cp as [HH _].
    assert (HAH : A <> H) by (intros ->; apply HnA; now left).
    pose proof (page_apart A H HA HH HAH). pose proof (previous_field U OK).
    pose proof (asm_size U OK). pose proof (data_size U OK). unfold page_size in *. lia. }
  split; [exact Hnew|].
  assert (G : forall o, 0 <= o -> o + 8 <= 80 ->
              load64 (store64 (link_top U (setup_mem U A S function w) L A) S
                        (A + sizeof_data U)) (A + o)
              = load64 (setup_mem U A S function w) (A + o)).
  { intros o Ho1 Ho2. rewrite load64_store64_other by (unfold outside, page_size in *; lia).
    specialize (HcL o Ho1 ltac:(unfold page_size; lia)).
    destruct L as [|H L]; cbn [link_top]; [reflexivity|].
    now apply load64_store64_sep. }
  rewrite !G by lia. now apply setup_context.
Qed.

(** X19.  The destructor of a template hook takes the hook out of the chain it
    is in, whatever the templates of the other hooks, and keeps the
    chain: what entered the hook, the slot or the [fnHooked] field of the
    hook above it, now holds what the hook had hooked, and the hook below
    it, if there is one, has for [previous] what the hook had.  The page
    of the hook is freed last. *)
Theorem template_destroy_in_chain (U : HookType) w S F0 L1 A L2 fuel :
  In U templates -> template_chain w S F0 (L1 ++ A :: L2) -> (length L1 < fuel)%nat ->
  exists w',
    destroy U fuel A w = Some w' /\ template_chain w' S F0 (L1 ++ L2) /\
    pages w' = pages w /\ hd (Alloc 0) (calls w') = Free A /\
    load64 (mem w') (unlink_cell EntryHook S L1) = get_fnHooked U w A /\
    (forall N, hd_error L2 = Some N -> get_previous U w' N = get_previous U w A).
Proof.
  intros HU HC Hf.
  destruct (template_data U HU) as (_ & _ & _ & _ & Ep & _ & Ef).
  unfold get_fnHooked, get_previous. rewrite Ep, Ef.
  rewrite (template_destroy U fuel A w HU).
  destruct (chain_destroy EntryHook EntryHook_ok w S F0 L1 A L2 fuel HC Hf)
    as (w' & E & HC' & Hp & Hfree).
  exists w'. split; [exact E|]. split; [exact HC'|]. split; [exact Hp|].
  split; [exact Hfree|].
  rewrite (destroy_explicit EntryHook EntryHook_ok w S F0 L1 A L2 fuel HC Hf) in E.
  injection E as <-. cbn [mem]. split.
  - apply load64_store64_same. apply load64_range.
  - intros N HN. destruct L2 as [|N' L2]; [discriminate|]. injection HN as ->.
    destruct (linked_at EntryHook _ _ _ _ _ _ _ (chain_linked _ _ _ _ _ HC))
      as (_ & HAp & _ & _).
    change (off_previous EntryHook) with 48 in HAp. rewrite HAp.
    destruct (linked_at EntryHook _ _ _ _ _ _ _ (chain_linked _ _ _ _ _ HC'))
      as (_ & HNp & _ & _).
    exact HNp.
Qed.

(** Hooks are installed on a slot one after the other, each with its
    template and its function. *)
Fixpoint install_all (V idx : Z) (hs : list (HookType * Z)) (w : World) : list Z * World :=
  match hs with
  | [] => ([], w)
  | (U, function) :: r =>
      let '(A, w) := hook U V idx function w in
      let '(As, w) := install_all V idx r w in
      (A :: As, w)
  end.

Lemma NoDup_insert_mid (a : Z) : forall l l',
  List.NoDup (l ++ l') -> ~ In a (l ++ l') -> List.NoDup (l ++ a :: l').
Proof.
  induction l as [|x l IH]; intros l' Hnd Hn; cbn [app] in *.
  - now constructor.
  - apply List.NoDup_cons_iff in Hnd as [Hx Hnd]. constructor.
    + intros Hin. apply in_app_or in Hin as [Hin|[<-|Hin]].
      * apply Hx, in_or_app. now left.
      * apply Hn. now left.
      * apply Hx, in_or_app. now right.
    + apply IH; [exact Hnd|]. intros Hin. apply Hn. now right.
Qed.

Lemma install_all_chain S F0 V idx : forall hs As w L rest,
  wrap64 (V + 8 * idx) = S ->
  template_chain w S F0 L ->
  Forall (fun h => In (fst h) templates /\ 0 <= snd h < 2 ^ 64) hs ->
  pages w = As ++ rest -> length As = length hs ->
  Forall page As -> List.NoDup (As ++ L) ->
  Forall (outside S) As -> Forall (outside (wrap64 (F0 - 80))) As ->
  exists w1, install_all V idx hs w = (As, w1) /\ template_chain w1 S F0 (rev As ++ L) /\
             pages w1 = rest.
Proof.
  induction hs as [|[U f] hs IH]; intros As w L rest ES HC Hhs Hp Hlen HP Hnd HS HR.
  - destruct As; [|discriminate]. exists w. cbn [app] in Hp.
    split; [reflexivity|]. split; [exact HC | exact Hp].
  - destruct As as [|A As]; [discriminate|]. cbn [length] in Hlen.
    apply List.Forall_cons_iff in Hhs as [[HU Hf] Hhs].
    apply List.Forall_cons_iff in HP as [HA HP].
    apply List.Forall_cons_iff in HS as [HSA HS].
    apply List.Forall_cons_iff in HR as [HRA HR].
    cbn [app] in Hp, Hnd. apply List.NoDup_cons_iff in Hnd as [HnA Hnd].
    pose proof (template_layout U HU) as OK.
    destruct (template_data U HU) as (_ & Es & _).
    assert (HC' : chain U w S F0 L) by (now apply (chain_template U HU)).
    assert (HnAL : ~ In A L) by (intros Hin; apply HnA, in_or_app; now right).
    rewrite <- Es in HRA.
    destruct (chain_install U OK w S F0 L A (As ++ rest) V idx f HC' Hp HA HnAL HSA HRA ES Hf)
      as (w' & E & HC1 & Hp1 & _).
    apply (chain_template U HU) in HC1.
    destruct (IH As w' (A :: L) rest ES HC1 Hhs Hp1 ltac:(lia) HP) as (w1 & E1 & HC2 & Hp2);
      try assumption.
    { now apply NoDup_insert_mid. }
    exists w1. cbn [install_all]. rewrite E, E1.
    split; [reflexivity|]. split; [|exact Hp2].
    cbn [rev]. rewrite <- app_assoc. exact HC2.
Qed.

(** X20.  Any number of hooks of any templates are installed on a slot that
    held no hook; they form one chain, the last installed on top.
    Destroying all the handles, in any order, leaves the slot with the
    function it held at the start and without hook. *)
Theorem template_hooks_round_trip w S F0 V idx (hs : list (HookType * Z))
    (As rest : list Z) (fuel : nat) :
  template_chain w S F0 [] -> wrap64 (V + 8 * idx) = S ->
  Forall (fun h => In (fst h) templates /\ 0 <= snd h < 2 ^ 64) hs ->
  pages w = As ++ rest -> length As = length hs ->
  Forall page As -> List.NoDup As ->
  Forall (outside S) As -> Forall (outside (wrap64 (F0 - 80))) As ->
  (length hs <= fuel)%nat ->
  exists w1,
    install_all V idx hs w = (As, w1) /\ template_chain w1 S F0 (rev As) /\
    forall order, Permutation order As ->
      exists w2, destroy_all EntryHook fuel order w1 = Some w2 /\
                 load64 (mem w2) S = F0 /\ template_chain w2 S F0 [].
Proof.
  intros HC ES Hhs Hp Hlen HP Hnd HS HR Hfuel.
  destruct (install_all_chain S F0 V idx hs As w [] rest ES HC Hhs Hp Hlen HP) as (w1 & E & HC1 & _);
    try assumption.
  { now rewrite app_nil_r. }
  rewrite app_nil_r in HC1.
  exists w1. split; [exact E|]. split; [exact HC1|].
  intros order HPerm.
  assert (HPerm' : Permutation order (rev As)).
  { eapply Permutation_trans; [exact HPerm | apply Permutation_rev]. }
  destruct (chain_destroy_all EntryHook EntryHook_ok S F0 fuel order (rev As) w1 HPerm' HC1)
    as (w2 & E2 & HC2).
  { rewrite length_rev. lia. }
  exists w2. split; [exact E2|]. split; [|exact HC2].
  exact (chain_linked _ _ _ _ _ HC2).
Qed.


(** *** The sample world *)

Lemma sample_template_chain : template_chain sample_world 0x120A0 0x11000 [].
Proof.
  constructor.
  - lia.
  - constructor.
  - constructor.
  - constructor.
  - constructor.
  - side.
  - vm_compute. intros H. discriminate H.
  - intros x. reflexivity.
  - cbn [linked]. vm_compute. reflexivity.
Qed.

(** The sample world after the install of an [EntryHook] on slot 20. *)
Definition entry_hooked : World := snd (hook EntryHook 0x12000 20 0x15000 sample_world).

Lemma entry_hooked_chain : template_chain entry_hooked 0x120A0 0x11000 [0x20000].
Proof.
  install_sample EntryHook EntryHook_ok sample_world (@nil Z) 0x20000 [0x30000; 0x40000]
    0x15000 sample_template_chain.
  unfold entry_hooked. rewrite E. assumption.
Qed.

Lemma template_install_on_chain_witness :
  exists w',
    hook ExitHookV 0x12000 20 0x16000 entry_hooked = (0x30000, w') /\
    template_chain w' 0x120A0 0x11000 [0x30000; 0x20000] /\
    load64 (mem w') 0x120A0 = 0x30000 + 80 /\
    read (mem w') (0x30000 + 80) (length (asmRaw ExitHookV)) = asmRaw ExitHookV /\
    get_fnNew ExitHookV w' 0x30000 = 0x16000 /\
    load64 (mem w') (0x30000 + 32) = hd 0 (heap entry_hooked) /\
    load64 (mem w') (0x30000 + 40) = hd 0 (heap entry_hooked).
Proof.
  apply (template_install_on_chain ExitHookV entry_hooked 0x120A0 0x11000 [0x20000] 0x30000
           [0x40000] 0x12000 20 0x16000).
  - unfold templates. cbn [In]. tauto.
  - exact entry_hooked_chain.
  - vm_compute. reflexivity.
  - side.
  - intros [H|[]]. discriminate H.
  - side.
  - side.
  - reflexivity.
  - lia.
  - vm_compute. split; [intros H; discriminate H | reflexivity].
Defined.

(** The sample world with room on the heap for the objects of three
    template hooks. *)
Definition roomy_world : World :=
  {| mem := mem sample_world; pages := pages sample_world;
     heap := [0x500000; 0x500400; 0x500800; 0x500C00; 0x501000; 0x501400;
              0x501800; 0x501C00; 0x502000];
     frozen := frozen sample_world; stuck := stuck sample_world; calls := [] |}.

(** It after the install of an [EntryHook], a [ContextHook] and an
    [ExitHookV] on slot 20, in that order. *)
Definition mixed_hooked : World :=
  snd (install_all 0x12000 20
         [(EntryHook, 0x15000); (ContextHook, 0x16000); (ExitHookV, 0x17000)] roomy_world).

Lemma roomy_template_chain : template_chain roomy_world 0x120A0 0x11000 [].
Proof.
  constructor.
  - lia.
  - constructor.
  - constructor.
  - constructor.
  - constructor.
  - side.
  - vm_compute. intros H. discriminate H.
  - intros x. reflexivity.
  - cbn [linked]. vm_compute. reflexivity.
Qed.

Lemma mixed_hooked_chain :
  template_chain mixed_hooked 0x120A0 0x11000 [0x40000; 0x30000; 0x20000].
Proof.
  assert (Hhs : Forall (fun h => In (fst h) templates /\ 0 <= snd h < 2 ^ 64)
                  [(EntryHook, 0x15000); (ContextHook, 0x16000); (ExitHookV, 0x17000)]).
  { unfold templates. repeat constructor; cbn [fst snd In]; try tauto; lia. }
  assert (HP : Forall page [0x20000; 0x30000; 0x40000]) by (repeat constructor; side).
  assert (Hnd : List.NoDup ([0x20000; 0x30000; 0x40000] ++ [])).
  { repeat constructor; cbn [In app]; intros H;
      repeat (destruct H as [H|H]; [discriminate H|]); exact H. }
  assert (HS : Forall (outside 0x120A0) [0x20000; 0x30000; 0x40000])
    by (repeat constructor; side).
  assert (HR : Forall (outside (wrap64 (0x11000 - 80))) [0x20000; 0x30000; 0x40000])
    by (repeat constructor; side).
  destruct (install_all_chain 0x120A0 0x11000 0x12000 20 _ [0x20000; 0x30000; 0x40000]
              roomy_world [] [] eq_refl roomy_template_chain Hhs eq_refl eq_refl HP Hnd HS HR)
    as (w1 & E & HC & _).
  unfold mixed_hooked. rewrite E. exact HC.
Qed.

(** The [ContextHook] in the middle of the three is destroyed. *)
Lemma template_destroy_in_chain_witness :
  exists w',
    destroy ContextHook 2 0x30000 mixed_hooked = Some w' /\
    template_chain w' 0x120A0 0x11000 ([0x40000] ++ [0x20000]) /\
    pages w' = pages mixed_hooked /\ hd (Alloc 0) (calls w') = Free 0x30000 /\
    load64 (mem w') (unlink_cell EntryHook 0x120A0 [0x40000])
    = get_fnHooked ContextHook mixed_hooked 0x30000 /\
    (forall N, hd_error [0x20000] = Some N ->
       get_previous ContextHook w' N = get_previous ContextHook mixed_hooked 0x30000).
Proof.
  apply (template_destroy_in_chain ContextHook mixed_hooked 0x120A0 0x11000
           [0x40000] 0x30000 [0x20000] 2).
  - unfold templates. cbn [In]. tauto.
  - exact mixed_hooked_chain.
  - cbn. lia.
Defined.

Lemma template_hooks_round_trip_witness :
  exists w1,
    install_all 0x12000 20 [(EntryHook, 0x15000); (ContextHook, 0x16000); (ExitHookV, 0x17000)]
      roomy_world = ([0x20000; 0x30000; 0x40000], w1) /\
    template_chain w1 0x120A0 0x11000 (rev [0x20000; 0x30000; 0x40000]) /\
    forall order, Permutation order [0x20000; 0x30000; 0x40000] ->
      exists w2, destroy_all EntryHook 3 order w1 = Some w2 /\
                 load64 (mem w2) 0x120A0 = 0x11000 /\ template_chain w2 0x120A0 0x11000 [].
Proof.
  apply (template_hooks_round_trip roomy_world 0x120A0 0x11000 0x12000 20
           [(EntryHook, 0x15000); (ContextHook, 0x16000); (ExitHookV, 0x17000)]
           [0x20000; 0x30000; 0x40000] [] 3).
  - exact roomy_template_chain.
  - reflexivity.
  - unfold templates. repeat constructor; cbn [fst snd In]; try tauto; lia.
  - reflexivity.
  - reflexivity.
  - repeat constructor; side.
  - repeat constructor; cbn [In]; intros H; repeat (destruct H as [H|H]; [discriminate H|]);
      exact H.
  - repeat constructor; side.
  - repeat constructor; side.
  - cbn. lia.
Defined.

End TemplateChains.

(** ** The example DLL, attached and detached *)

Module ExampleProps.
Import Mem MemFacts PEParser PEFacts RTTIScanner VFTHook HookFacts HookTemplates.
Import TemplateProps HookProps TemplateChains ParserProps ScannerProps Example.

(** What the scan of [placeExampleHook] starts from. *)
Definition constructed (os : option ProcessInfo) (st : RTTIScanner.state) : RTTIScanner.state :=
  {| parser := setProcessInfo os None (parser st);
     classRTTI := classRTTI st; sectionData := sectionData st |}.

(** X21.  The DLL is loaded into a process in which the scan finds a class
    [CS::PlayerIns] whose slot 20 carries no hook: attaching puts an
    [EntryHook] on the slot, with the example function as [fnNew], and
    detaching gives the slot back the function it held and frees the page
    of the hook.  Thread notifications change nothing. *)
Theorem attach_then_detach und fuel os exampleHook d st ex pClass F0 A rest :
  hook d = None ->
  scan und fuel (mem (world d)) os None (constructed os (scanner d)) = Some (true, st, ex) ->
  classRTTI st !! "CS::PlayerIns"%string = Some pClass ->
  0 <= pVirtualFunctionTable pClass /\ pVirtualFunctionTable pClass + 8 * 20 + 8 <= 2 ^ 64 ->
  template_chain (world d) (pVirtualFunctionTable pClass + 8 * 20) F0 [] ->
  pages (world d) = A :: rest -> page A ->
  outside (pVirtualFunctionTable pClass + 8 * 20) A -> outside (wrap64 (F0 - 80)) A ->
  0 <= exampleHook < 2 ^ 64 -> (1 <= fuel)%nat ->
  exists d1 d2,
    DllMain und fuel os exampleHook DLL_PROCESS_ATTACH d = Some (true, d1) /\
    hook d1 = Some A /\ scanner d1 = st /\
    load64 (mem (world d1)) (pVirtualFunctionTable pClass + 8 * 20) = A + 80 /\
    read (mem (world d1)) (A + 80) 79 = asmRaw EntryHook /\
    get_fnNew EntryHook (world d1) A = exampleHook /\
    get_fnHooked EntryHook (world d1) A = F0 /\
    DllMain und fuel os exampleHook DLL_THREAD_ATTACH d1 = Some (true, d1) /\
    DllMain und fuel os exampleHook DLL_THREAD_DETACH d1 = Some (true, d1) /\
    DllMain und fuel os exampleHook DLL_PROCESS_DETACH d1 = Some (true, d2) /\
    load64 (mem (world d2)) (pVirtualFunctionTable pClass + 8 * 20) = F0 /\
    hd (Alloc 0) (calls (world d2)) = Free A.
Proof.
  intros Hh Hs Hc HV HC Hp HA HS HP Hf Hfuel.
  set (S := pVirtualFunctionTable pClass + 8 * 20) in *.
  assert (ES : wrap64 (pVirtualFunctionTable pClass + 8 * 20) = S)
    by (apply wrap64_small; subst S; lia).
  assert (HnA : ~ In A []) by (intros []).
  destruct (chain_install EntryHook EntryHook_ok (world d) S F0 [] A rest
              (pVirtualFunctionTable pClass) 20 exampleHook HC Hp HA HnA HS HP ES Hf)
    as (w1 & E1 & HC1 & _ & Hnew).
  pose proof (install_explicit EntryHook EntryHook_ok (world d) S F0 [] A rest
                (pVirtualFunctionTable pClass) 20 exampleHook HC Hp HA HnA HS HP ES) as Ex.
  destruct (chain_destroy EntryHook EntryHook_ok w1 S F0 [] A [] fuel HC1)
    as (w2 & E2 & HC2 & _ & Hfree); [cbn; lia|].
  exists {| scanner := st; world := w1; hook := Some A |},
         {| scanner := st; world := w2; hook := Some A |}.
  assert (Ea : DllMain und fuel os exampleHook DLL_PROCESS_ATTACH d
               = Some (true, {| scanner := st; world := w1; hook := Some A |})).
  { unfold DllMain, placeExampleHook. cbn [Z.eqb DLL_PROCESS_ATTACH Pos.eqb].
    fold (constructed os (scanner d)). rewrite Hs.
    unfold new_hook_by_name, getClassRTTI. rewrite Hc, E1. reflexivity. }
  split; [exact Ea|]. split; [reflexivity|]. split; [reflexivity|]. cbn [world].
  destruct (chain_linked _ _ _ _ _ HC1) as (Hs1 & _ & _ & Hl1). cbn [linked] in Hl1.
  split; [exact Hs1|].
  split.
  { rewrite Ex in E1. injection E1 as <-. cbn [mem link_top].
    apply (alone_asm EntryHook EntryHook_ok A S exampleHook (world d) HA HS). }
  split; [exact Hnew|]. split; [exact Hl1|].
  split; [reflexivity|]. split; [reflexivity|].
  split.
  { unfold DllMain, removeExampleHook. cbn [Z.eqb DLL_PROCESS_ATTACH DLL_PROCESS_DETACH hook world].
    rewrite E2. reflexivity. }
  split; [exact (chain_linked _ _ _ _ _ HC2) | exact Hfree].
Qed.

(** X22.  When the scan fails, attaching installs nothing: no page is
    allocated, no byte written and [hook] stays null, so that detaching
    does nothing either. *)
Theorem attach_without_scan und fuel os exampleHook d st ex :
  hook d = None ->
  scan und fuel (mem (world d)) os None (constructed os (scanner d)) = Some (false, st, ex) ->
  exists d1,
    DllMain und fuel os exampleHook DLL_PROCESS_ATTACH d = Some (true, d1) /\
    world d1 = world d /\ hook d1 = None /\
    classRTTI (scanner d1) = classRTTI (scanner d) /\
    DllMain und fuel os exampleHook DLL_PROCESS_DETACH d1 = Some (true, d1).
Proof.
  intros Hh Hs.
  exists {| scanner := st; world := world d; hook := None |}.
  assert (Ea : DllMain und fuel os exampleHook DLL_PROCESS_ATTACH d
               = Some (true, {| scanner := st; world := world d; hook := None |})).
  { unfold DllMain, placeExampleHook. cbn [Z.eqb DLL_PROCESS_ATTACH Pos.eqb].
    fold (constructed os (scanner d)). rewrite Hs, Hh. reflexivity. }
  split; [exact Ea|]. split; [reflexivity|]. split; [reflexivity|]. split.
  - cbn [scanner]. now destruct (scan_false _ _ _ _ _ _ _ _ Hs).
  - reflexivity.
Qed.

(** *** The sample module *)

(** A process that has loaded the sample module. *)
Definition demo_world : World :=
  {| mem := Demo.image;
     pages := [0x20000; 0x30000];
     heap := [0x500000; 0x500040; 0x500080];
     frozen := fun _ => false; stuck := fun _ => false;
     calls := [] |}.

Definition demo_dll : Dll := {| scanner := fresh; world := demo_world; hook := None |}.

Lemma demo_dll_scan :
  scan Demo.undecorate 16 (mem (world demo_dll)) (Some Demo.module) None
    (constructed (Some Demo.module) (scanner demo_dll))
  = Some (true, demo_scanned, demo_examined).
Proof. vm_compute. reflexivity. Qed.

Lemma demo_slot_chain :
  template_chain demo_world (Demo.base + 0x2010 + 8 * 20) (Demo.base + 0x1100) [].
Proof.
  constructor.
  - unfold Demo.base. lia.
  - constructor.
  - constructor.
  - constructor.
  - constructor.
  - unfold sep. left. vm_compute. intros H. discriminate H.
  - vm_compute. intros H. discriminate H.
  - intros x. reflexivity.
  - cbn [linked]. vm_compute. reflexivity.
Qed.

Lemma attach_then_detach_witness :
  exists d1 d2,
    DllMain Demo.undecorate 16 (Some Demo.module) 0x7FF000001000 DLL_PROCESS_ATTACH demo_dll
    = Some (true, d1) /\
    hook d1 = Some 0x20000 /\ scanner d1 = demo_scanned /\
    load64 (mem (world d1)) (pVirtualFunctionTable demo_record + 8 * 20) = 0x20000 + 80 /\
    read (mem (world d1)) (0x20000 + 80) 79 = asmRaw EntryHook /\
    get_fnNew EntryHook (world d1) 0x20000 = 0x7FF000001000 /\
    get_fnHooked EntryHook (world d1) 0x20000 = Demo.base + 0x1100 /\
    DllMain Demo.undecorate 16 (Some Demo.module) 0x7FF000001000 DLL_THREAD_ATTACH d1
    = Some (true, d1) /\
    DllMain Demo.undecorate 16 (Some Demo.module) 0x7FF000001000 DLL_THREAD_DETACH d1
    = Some (true, d1) /\
    DllMain Demo.undecorate 16 (Some Demo.module) 0x7FF000001000 DLL_PROCESS_DETACH d1
    = Some (true, d2) /\
    load64 (mem (world d2)) (pVirtualFunctionTable demo_record + 8 * 20)
    = Demo.base + 0x1100 /\
    hd (Alloc 0) (calls (world d2)) = Free 0x20000.
Proof.
  apply (attach_then_detach Demo.undecorate 16 (Some Demo.module) 0x7FF000001000 demo_dll
           demo_scanned demo_examined demo_record (Demo.base + 0x1100) 0x20000 [0x30000]).
  - reflexivity.
  - exact demo_dll_scan.
  - reflexivity.
  - cbn. unfold Demo.base. lia.
  - exact demo_slot_chain.
  - reflexivity.
  - side.
  - unfold outside, page_size. cbn. unfold Demo.base. lia.
  - unfold outside, page_size. vm_compute. right. intros H. discriminate H.
  - lia.
  - lia.
Defined.

(** The sample module without its [.rdata] section: the scan fails. *)
Definition no_rdata : memory := write Demo.image (Demo.base + 0x1B0) [46; 114; 100; 97; 116; 88].

Definition no_rdata_dll : Dll :=
  {| scanner := fresh;
     world := {| mem := no_rdata; pages := [0x20000]; heap := []; frozen := fun _ => false; stuck := fun _ => false;
                 calls := [] |};
     hook := None |}.

Definition no_rdata_scanned : RTTIScanner.state :=
  match scan Demo.undecorate 16 no_rdata (Some Demo.module) None
          (constructed (Some Demo.module) fresh) with
  | Some (_, st, _) => st
  | None => fresh
  end.

Lemma attach_without_scan_witness :
  exists d1,
    DllMain Demo.undecorate 16 (Some Demo.module) 0x7FF000001000 DLL_PROCESS_ATTACH no_rdata_dll
    = Some (true, d1) /\
    world d1 = world no_rdata_dll /\ hook d1 = None /\
    classRTTI (scanner d1) = classRTTI (scanner no_rdata_dll) /\
    DllMain Demo.undecorate 16 (Some Demo.module) 0x7FF000001000 DLL_PROCESS_DETACH d1
    = Some (true, d1).
Proof.
  apply (attach_without_scan Demo.undecorate 16 (Some Demo.module) 0x7FF000001000 no_rdata_dll
           no_rdata_scanned []).
  - reflexivity.
  - vm_compute. reflexivity.
Defined.

End ExampleProps.
